(** * Auto-recruitment planner and execution loop (autoRecruitment.py)

    A shallow embedding of the distribution planner
    ([calculate_distribution], [balance_distribution]), of the time
    estimator ([estimate_recruitment_time]) and of one cycle of the
    resumable loop ([execute_recruitment_loop]), with the properties the
    specification states about them.

    Modelling conventions.
    - Python integers are [Z].  Python floats are exact rationals [Q]
      extended with an infinity ([pyfloat]); rounding error of IEEE
      doubles is not modelled.
    - A [dict] whose iteration order the code depends on (assignments,
      the recruitment order, the per-city estimates) is an
      insertion-ordered association list ([Dict]).  A [dict] that is only
      looked up (the capability map [unit_data], the city snapshots, the
      growth rates) is a [gmap].
    - [buildings_data] is a list of records; the Python code mutates the
      building objects through aliases, which becomes an update of the
      list at the object's index.
    - Network reads and writes of the loop are answers of an explicit
      environment record. *)

From Stdlib Require Import ZArith QArith Qround Lqa Lia.
From stdpp Require Import base option list gmap strings pretty.

Local Open Scope Z_scope.

(** ** Insertion-ordered dictionaries with integer keys *)

Module Dict.

Definition t (V : Type) : Type := list (Z * V).

(** [d.get(k)] *)
Fixpoint get {V : Type} (k : Z) (d : t V) : option V :=
  match d with
  | [] => None
  | (k', v) :: rest => if Z.eqb k' k then Some v else get k rest
  end.

(** [d[k] = v]: an existing key keeps its position, a new key goes last. *)
Fixpoint set {V : Type} (k : Z) (v : V) (d : t V) : t V :=
  match d with
  | [] => [(k, v)]
  | (k', v') :: rest =>
      if Z.eqb k' k then (k, v) :: rest else (k', v') :: set k v rest
  end.

(** [del d[k]] *)
Fixpoint del {V : Type} (k : Z) (d : t V) : t V :=
  match d with
  | [] => []
  | (k', v') :: rest =>
      if Z.eqb k' k then rest else (k', v') :: del k rest
  end.

Definition keys {V : Type} (d : t V) : list Z := map fst d.
Definition values {V : Type} (d : t V) : list V := map snd d.

(** [k in d] *)
Definition mem {V : Type} (k : Z) (d : t V) : bool :=
  match get k d with Some _ => true | None => false end.

(** [not d] is true for the empty dict only. *)
Definition is_empty {V : Type} (d : t V) : bool :=
  match d with [] => true | _ => false end.

End Dict.

(** [sum(xs)] over integers. *)
Definition zsum (xs : list Z) : Z := foldr Z.add 0 xs.

(** [int(x)]: truncation toward zero. *)
Definition py_int (x : Q) : Z := Z.quot (Qnum x) (Zpos (Qden x)).

(** ** Data model *)

(** The cost vector of a unit type, and the stock of a city: the same six
    keys in both dicts. *)
Record amounts : Type := Amounts {
  citizens : Z;
  wood : Z;
  wine : Z;
  marble : Z;
  crystal : Z;
  sulfur : Z
}.

(** One entry of [unit_data]. *)
Record unit_info : Type := UnitInfo {
  costs : amounts;
  time_seconds : Z
}.

Record building : Type := Building {
  city_id : Z;
  unit_data : gmap Z unit_info;
  is_busy : bool;
  queue_remaining_time : Z;
  action_code : option Z;
  assignments : Dict.t Z;
  estimated_time : Z;
  remaining_assignments : Dict.t Z
}.

Definition with_assignments (a : Dict.t Z) (b : building) : building :=
  {| city_id := city_id b; unit_data := unit_data b; is_busy := is_busy b;
     queue_remaining_time := queue_remaining_time b;
     action_code := action_code b; assignments := a;
     estimated_time := estimated_time b;
     remaining_assignments := remaining_assignments b |}.

Definition with_estimated_time (t : Z) (b : building) : building :=
  {| city_id := city_id b; unit_data := unit_data b; is_busy := is_busy b;
     queue_remaining_time := queue_remaining_time b;
     action_code := action_code b; assignments := assignments b;
     estimated_time := t;
     remaining_assignments := remaining_assignments b |}.

Definition with_remaining (r : Dict.t Z) (b : building) : building :=
  {| city_id := city_id b; unit_data := unit_data b; is_busy := is_busy b;
     queue_remaining_time := queue_remaining_time b;
     action_code := action_code b; assignments := assignments b;
     estimated_time := estimated_time b;
     remaining_assignments := r |}.

Definition with_status (busy : bool) (queue : Z) (code : option Z)
    (b : building) : building :=
  {| city_id := city_id b; unit_data := unit_data b; is_busy := busy;
     queue_remaining_time := queue;
     action_code := code; assignments := assignments b;
     estimated_time := estimated_time b;
     remaining_assignments := remaining_assignments b |}.

(** The recruitment order: unit type id to requested quantity, in the
    order the operator entered it. *)
Definition recruitment_order : Type := Dict.t Z.

(** [unit_idx in building.get('unit_data', {})] *)
Definition capable (unit_idx : Z) (b : building) : bool :=
  match unit_data b !! unit_idx with Some _ => true | None => false end.

(** The capable set of a unit type, in the order of [buildings_data]. *)
Abbreviation capable_buildings unit_idx bs :=
  (filter (fun b => capable unit_idx b = true) bs).

(** [building['assignments'].get(unit_idx, 0)] *)
Definition assigned (unit_idx : Z) (b : building) : Z :=
  default 0 (Dict.get unit_idx (assignments b)).

(** Units of one type planned over all buildings. *)
Definition total_assigned (unit_idx : Z) (bs : list building) : Z :=
  zsum (map (assigned unit_idx) bs).

(** ** calculate_distribution *)

(** [building['unit_data'][unit_idx]['time_seconds']] of a capable building. *)
Definition time_per_unit (unit_idx : Z) (b : building) : Z :=
  match unit_data b !! unit_idx with
  | Some d => time_seconds d
  | None => 0
  end.

(** [1.0 / time_per_unit] if [time_per_unit > 0], else [1.0]. *)
Definition speed_factor (t : Z) : Q :=
  if 0 <? t then (1 / inject_Z t)%Q else 1%Q.

Definition speed_factors (unit_idx : Z) (capable_buildings : list building)
    : list Q :=
  map (fun b => speed_factor (time_per_unit unit_idx b)) capable_buildings.

(** [total_speed], accumulated from 0 in list order. *)
Definition total_speed (speeds : list Q) : Q := foldl Qplus 0%Q speeds.

(** The branch [total_speed == 0]: an even split, the remainder going to
    the first buildings. *)
Definition even_split (total_qty : Z) (n : nat) : list Z :=
  let per_building := total_qty / Z.of_nat n in
  let remainder := total_qty mod Z.of_nat n in
  map (fun i => per_building + (if Z.of_nat i <? remainder then 1 else 0))
      (seq 0 n).

(** The other branch: every building but the last takes
    [int(total_qty * (speed / total_speed))], the last one takes what
    remains. *)
Fixpoint proportional_split (total_qty : Z) (ts : Q) (speeds : list Q)
    (remaining : Z) : list Z :=
  match speeds with
  | [] => []
  | s :: rest =>
      match rest with
      | [] => [remaining]
      | _ :: _ =>
          let qty := py_int (inject_Z total_qty * (s / ts))%Q in
          qty :: proportional_split total_qty ts rest (remaining - qty)
      end
  end.

(** Quantity computed for each capable building, in iteration order. *)
Definition unit_quantities (total_qty : Z) (speeds : list Q) : list Z :=
  let ts := total_speed speeds in
  if Qeq_bool ts 0 then even_split total_qty (length speeds)
  else proportional_split total_qty ts speeds total_qty.

(** [if qty > 0: building['assignments'][unit_idx] = qty] *)
Definition assign (unit_idx qty : Z) (b : building) : building :=
  if 0 <? qty
  then with_assignments (Dict.set unit_idx qty (assignments b)) b
  else b.

(** The capable buildings are aliases of entries of [buildings_data]: the
    i-th quantity is written to the i-th capable entry of the list.
    There are as many quantities as capable buildings, so the case of an
    exhausted list of quantities is never taken. *)
Fixpoint assign_quantities (unit_idx : Z) (qtys : list Z)
    (bs : list building) : list building :=
  match bs with
  | [] => []
  | b :: bs' =>
      if capable unit_idx b then
        match qtys with
        | q :: qs => assign unit_idx q b :: assign_quantities unit_idx qs bs'
        | [] => b :: bs'
        end
      else b :: assign_quantities unit_idx qtys bs'
  end.

(** The body of the loop over [recruitment_order.items()]. *)
Definition distribute_unit (bs : list building) (entry : Z * Z)
    : list building :=
  let unit_idx := fst entry in
  let total_qty := snd entry in
  match capable_buildings unit_idx bs with
  | [] => bs
  | _ :: _ =>
      assign_quantities unit_idx
        (unit_quantities total_qty
           (speed_factors unit_idx (capable_buildings unit_idx bs)))
        bs
  end.

Definition reset_building (b : building) : building :=
  with_estimated_time 0 (with_assignments [] b).

(** The distribution before the balancing pass. *)
Definition initial_allocation (bs : list building)
    (order : recruitment_order) : list building :=
  foldl distribute_unit (map reset_building bs) order.

(** Estimated completion time of one building: work assigned, the queue
    it is still busy with, ten seconds per unit type ordered. *)
Definition completion_time (b : building) : Z :=
  let work :=
    foldl (fun acc (e : Z * Z) =>
             match unit_data b !! fst e with
             | Some d => acc + time_seconds d * snd e
             | None => acc
             end) 0 (assignments b) in
  let queued := if is_busy b then work + queue_remaining_time b else work in
  if Dict.is_empty (assignments b) then queued
  else queued + 10 * Z.of_nat (length (assignments b)).

Definition set_estimated_times (bs : list building) : list building :=
  map (fun b => with_estimated_time (completion_time b) b) bs.

(** ** balance_distribution *)

(** [max(times)], [min(times)] and [times.index(x)] on a non-empty list. *)
Definition list_max (x : Z) (xs : list Z) : Z := foldl Z.max x xs.
Definition list_min (x : Z) (xs : list Z) : Z := foldl Z.min x xs.

Fixpoint index_of (x : Z) (xs : list Z) : nat :=
  match xs with
  | [] => O
  | y :: ys => if Z.eqb y x then O else S (index_of x ys)
  end.

(** The first unit type of the slowest building that the fastest one can
    build and of which more than ten are assigned. *)
Definition find_movable (slowest fastest : building) : option Z :=
  List.find (fun unit_idx =>
               capable unit_idx fastest && (10 <? assigned unit_idx slowest))
            (Dict.keys (assignments slowest)).

(** Take [move_qty] units away from a building. *)
Definition take_units (unit_idx move_qty : Z) (b : building) : building :=
  let left := assigned unit_idx b - move_qty in
  if left <=? 0
  then with_assignments (Dict.del unit_idx (assignments b)) b
  else with_assignments (Dict.set unit_idx left (assignments b)) b.

(** Give [move_qty] units to a building. *)
Definition give_units (unit_idx move_qty : Z) (b : building) : building :=
  with_assignments
    (Dict.set unit_idx (assigned unit_idx b + move_qty) (assignments b)) b.

(** The move of one iteration; both buildings are read from the list when
    they are written, as the Python aliases are.  Both indices come from
    [times.index], so the lookups succeed. *)
Definition move_units (unit_idx current_qty : Z) (slowest_idx fastest_idx : nat)
    (bs : list building) : list building :=
  let move_qty := Z.min 10 (current_qty - 1) in
  let bs1 :=
    match bs !! slowest_idx with
    | Some slowest => <[slowest_idx := take_units unit_idx move_qty slowest]> bs
    | None => bs
    end in
  match bs1 !! fastest_idx with
  | Some fastest => <[fastest_idx := give_units unit_idx move_qty fastest]> bs1
  | None => bs1
  end.

Inductive iteration_result : Type :=
| Stopped (bs : list building)
| Moved (bs : list building).

(** One pass through the body of the [while] loop. *)
Definition balance_step (tolerance : Z) (buildings_data : list building)
    : iteration_result :=
  let bs := set_estimated_times buildings_data in
  match map estimated_time bs with
  | [] => Stopped bs
  | t :: ts =>
      let max_time := list_max t ts in
      let min_time := list_min t ts in
      if max_time - min_time <=? tolerance then Stopped bs
      else
        let fastest_idx := index_of min_time (t :: ts) in
        let slowest_idx := index_of max_time (t :: ts) in
        match bs !! fastest_idx, bs !! slowest_idx with
        | Some fastest, Some slowest =>
            match find_movable slowest fastest with
            | Some unit_idx =>
                Moved (move_units unit_idx (assigned unit_idx slowest)
                         slowest_idx fastest_idx bs)
            | None => Stopped bs
            end
        | _, _ => Stopped bs
        end
  end.

Definition max_iterations : nat := 100.
Definition default_tolerance : Z := 1800.

(** The [while iteration < max_iterations] loop; the second component is
    the value of [iteration] when the loop is left. *)
Fixpoint balance_loop (fuel : nat) (tolerance : Z) (bs : list building)
    (iteration : nat) : list building * nat :=
  match fuel with
  | O => (bs, iteration)
  | S fuel' =>
      match balance_step tolerance bs with
      | Stopped bs' => (bs', S iteration)
      | Moved bs' => balance_loop fuel' tolerance bs' (S iteration)
      end
  end.

Definition balance_distribution (buildings_data : list building)
    (order : recruitment_order) (tolerance : Z) : list building :=
  fst (balance_loop max_iterations tolerance buildings_data 0).

Definition calculate_distribution (buildings_data : list building)
    (order : recruitment_order) : option (list building) :=
  match buildings_data, order with
  | [], _ => None
  | _, [] => None
  | _, _ =>
      Some (balance_distribution
              (set_estimated_times (initial_allocation buildings_data order))
              order default_tolerance)
  end.

(** Spread of the completion times of a distribution. *)
Definition skew (bs : list building) : Z :=
  match map completion_time bs with
  | [] => 0
  | t :: ts => list_max t ts - list_min t ts
  end.

(** ** estimate_recruitment_time *)

(** A Python float: a rational number or [float('inf')]. *)
Inductive pyfloat : Type :=
| Finite (q : Q)
| Infinity.

(** [a > b] on floats. *)
Definition pf_gt (a b : pyfloat) : bool :=
  match a, b with
  | Finite x, Finite y => negb (Qle_bool x y)
  | Finite _, Infinity => false
  | Infinity, Finite _ => true
  | Infinity, Infinity => false
  end.

Record city_estimate : Type := CityEstimate {
  citizens_needed : Z;
  citizens_available : Z;
  growth_rate : Q;
  citizen_wait_seconds : pyfloat;
  build_time_seconds : Z;
  total_time_seconds : pyfloat
}.

Record estimates : Type := Estimates {
  by_city : Dict.t city_estimate;
  overall_time_seconds : pyfloat;
  bottleneck : option Z
}.

(** The entry created when a city is seen for the first time. *)
Definition new_city_estimate (city_resources : gmap Z amounts)
    (city_growth_rates : gmap Z Q) (city : Z) : city_estimate :=
  {| citizens_needed := 0;
     citizens_available :=
       match city_resources !! city with
       | Some stock => citizens stock
       | None => 0
       end;
     growth_rate := default 0%Q (city_growth_rates !! city);
     citizen_wait_seconds := Finite 0;
     build_time_seconds := 0;
     total_time_seconds := Finite 0 |}.

(** One assigned unit type of a building added to its city's entry. *)
Definition add_unit (b : building) (est : city_estimate) (e : Z * Z)
    : city_estimate :=
  match unit_data b !! fst e with
  | Some d =>
      {| citizens_needed := citizens_needed est + citizens (costs d) * snd e;
         citizens_available := citizens_available est;
         growth_rate := growth_rate est;
         citizen_wait_seconds := citizen_wait_seconds est;
         build_time_seconds := build_time_seconds est + time_seconds d * snd e;
         total_time_seconds := total_time_seconds est |}
  | None => est
  end.

(** [city_est['build_time_seconds'] += 10], once for a building that has
    assignments. *)
Definition add_order_overhead (b : building) (est : city_estimate)
    : city_estimate :=
  if Dict.is_empty (assignments b) then est
  else
    {| citizens_needed := citizens_needed est;
       citizens_available := citizens_available est;
       growth_rate := growth_rate est;
       citizen_wait_seconds := citizen_wait_seconds est;
       build_time_seconds := build_time_seconds est + 10;
       total_time_seconds := total_time_seconds est |}.

(** The body of the first loop, over the buildings. *)
Definition add_building (city_resources : gmap Z amounts)
    (city_growth_rates : gmap Z Q) (cities : Dict.t city_estimate)
    (b : building) : Dict.t city_estimate :=
  let est :=
    match Dict.get (city_id b) cities with
    | Some est => est
    | None => new_city_estimate city_resources city_growth_rates (city_id b)
    end in
  Dict.set (city_id b)
    (add_order_overhead b (foldl (add_unit b) est (assignments b))) cities.

(** The wait and the total of one city, the first half of the body of the
    second loop. *)
Definition citizen_wait (est : city_estimate) : pyfloat :=
  if citizens_needed est <=? citizens_available est then Finite 0
  else if negb (Qle_bool (growth_rate est) 0) then
    Finite ((inject_Z (citizens_needed est - citizens_available est)
             / growth_rate est) * 3600)%Q
  else Infinity.

Definition total_time (wait : pyfloat) (build_time : Z) : pyfloat :=
  match wait with
  | Infinity => Infinity
  | Finite w => Finite (w * (8 # 10) + inject_Z build_time)%Q
  end.

Definition finish_city (est : city_estimate) : city_estimate :=
  let wait := citizen_wait est in
  {| citizens_needed := citizens_needed est;
     citizens_available := citizens_available est;
     growth_rate := growth_rate est;
     citizen_wait_seconds := wait;
     build_time_seconds := build_time_seconds est;
     total_time_seconds := total_time wait (build_time_seconds est) |}.

(** The second half: [max_total] and [bottleneck_city] updated on a
    strictly larger total. *)
Definition track_max (acc : pyfloat * option Z) (e : Z * city_estimate)
    : pyfloat * option Z :=
  if pf_gt (total_time_seconds (snd e)) (fst acc)
  then (total_time_seconds (snd e), Some (fst e))
  else acc.

Definition estimate_recruitment_time (buildings_data : list building)
    (city_resources : gmap Z amounts) (city_growth_rates : gmap Z Q)
    : estimates :=
  let cities :=
    foldl (add_building city_resources city_growth_rates) [] buildings_data in
  let finished := map (fun e => (fst e, finish_city (snd e))) cities in
  let result := foldl track_max (Finite 0, None) finished in
  {| by_city := finished;
     overall_time_seconds := fst result;
     bottleneck := snd result |}.

(** Build time of one building as the estimator counts it. *)
Definition building_build_time (b : building) : Z :=
  foldl (fun acc (e : Z * Z) =>
           match unit_data b !! fst e with
           | Some d => acc + time_seconds d * snd e
           | None => acc
           end) 0 (assignments b)
  + (if Dict.is_empty (assignments b) then 0 else 10).

(** The specification's reading: ten seconds for every distinct unit type
    of every building. *)
Definition spec_building_build_time (b : building) : Z :=
  zsum (map (fun e : Z * Z => time_per_unit (fst e) b * snd e) (assignments b))
  + 10 * Z.of_nat (length (assignments b)).

Definition buildings_of_city (city : Z) (bs : list building) : list building :=
  filter (fun b => city_id b = city) bs.

(** ** execute_recruitment_loop *)

(** What the game answers during one cycle.  Buildings are named by their
    index in the distribution. *)
Record environment : Type := Environment {
  (** stock of a city on its page *)
  city_snapshot : Z -> amounts;
  (** the building page: [None] if the request or its parsing fails,
      otherwise the action code it carries, if any *)
  building_page : nat -> option (option Z);
  (** whether the recruitment request goes through *)
  post_succeeds : nat -> bool
}.

(** [fetch_building_data]: the answer copies [is_busy] from the building
    it was asked about and reports no queue time. *)
Definition fetch_building_data (env : environment) (i : nat) (b : building)
    : option (bool * Z * option Z) :=
  match building_page env i with
  | Some code => Some (is_busy b, 0, code)
  | None => None
  end.

Record recruit_info : Type := RecruitInfo {
  ri_building : nat;
  to_recruit : Dict.t Z;
  ri_total : Z;
  ri_threshold : Z;
  building_remaining : Z
}.

Definition no_stock : amounts := Amounts 0 0 0 0 0 0.

(** [city_resources[city_id]]; the key is always present. *)
Definition stock_of (city_resources : gmap Z amounts) (city : Z) : amounts :=
  default no_stock (city_resources !! city).

(** One snapshot per distinct city. *)
Definition refresh_resources (env : environment) (bs : list building)
    : gmap Z amounts :=
  foldl (fun m b =>
           match m !! city_id b with
           | Some _ => m
           | None => <[city_id b := city_snapshot env (city_id b)]> m
           end) ∅ bs.

(** [if cost > 0: max_possible = min(max_possible, stock // cost)] *)
Definition limit_by (cost stock max_possible : Z) : Z :=
  if 0 <? cost then Z.min max_possible (stock / cost) else max_possible.

Definition max_possible (qty_needed : Z) (c available : amounts) : Z :=
  limit_by (sulfur c) (sulfur available)
    (limit_by (crystal c) (crystal available)
       (limit_by (marble c) (marble available)
          (limit_by (wine c) (wine available)
             (limit_by (wood c) (wood available)
                (limit_by (citizens c) (citizens available) qty_needed))))).

Definition deduct (available c : amounts) (qty : Z) : amounts :=
  {| citizens := citizens available - citizens c * qty;
     wood := wood available - wood c * qty;
     wine := wine available - wine c * qty;
     marble := marble available - marble c * qty;
     crystal := crystal available - crystal c * qty;
     sulfur := sulfur available - sulfur c * qty |}.

(** The greedy pass over [remaining.items()]: the working copy of the
    stock, [can_recruit_building] and [total_can_recruit]. *)
Definition consider_unit (b : building) (acc : amounts * Dict.t Z * Z)
    (e : Z * Z) : amounts * Dict.t Z * Z :=
  let '(available, can_recruit_building, total_can_recruit) := acc in
  match unit_data b !! fst e with
  | None => acc
  | Some d =>
      let m := max_possible (snd e) (costs d) available in
      if 0 <? m
      then (deduct available (costs d) m,
            Dict.set (fst e) m can_recruit_building,
            total_can_recruit + m)
      else acc
  end.

Definition can_recruit (b : building) (available : amounts)
    : amounts * Dict.t Z * Z :=
  foldl (consider_unit b) (available, [], 0) (remaining_assignments b).

(** [max(1, int(building_total_remaining * 0.20))] *)
Definition threshold_of (building_total_remaining : Z) : Z :=
  Z.max 1 (py_int (inject_Z building_total_remaining * (20 # 100))%Q).

(** The stock of the city reduced by what a building is going to order. *)
Definition commit_resources (b : building) (can_recruit_building : Dict.t Z)
    (stock : amounts) : amounts :=
  foldl (fun s (e : Z * Z) =>
           match unit_data b !! fst e with
           | Some d => deduct s (costs d) (snd e)
           | None => s
           end) stock can_recruit_building.

(** The busy check of a building with work left: the building after the
    refresh, and whether it is to be skipped. *)
Definition refresh_busy (env : environment) (i : nat) (b : building)
    : building :=
  if is_busy b then
    match fetch_building_data env i b with
    | Some (busy, queue, code) => with_status busy queue code b
    | None => b
    end
  else b.

Record planning : Type := Planning {
  pl_buildings : list building;
  pl_resources : gmap Z amounts;
  buildings_to_recruit : list recruit_info
}.

(** The body of the loop that decides, building by building, what is
    ordered in this cycle. *)
Definition plan_building (env : environment) (st : planning)
    (i : nat) : planning :=
  match pl_buildings st !! i with
  | None => st
  | Some b =>
      if Dict.is_empty (remaining_assignments b) then st
      else
        let b' := refresh_busy env i b in
        let bs' := <[i := b']> (pl_buildings st) in
        if is_busy b' then
          Planning bs' (pl_resources st) (buildings_to_recruit st)
        else
          let stock := stock_of (pl_resources st) (city_id b') in
          let building_total_remaining :=
            zsum (Dict.values (remaining_assignments b')) in
          let threshold := threshold_of building_total_remaining in
          let '(_, can_recruit_building, total_can_recruit) :=
            can_recruit b' stock in
          if threshold <=? total_can_recruit then
            Planning bs'
              (<[city_id b' :=
                   commit_resources b' can_recruit_building stock]>
                 (pl_resources st))
              (buildings_to_recruit st ++
                 [RecruitInfo i can_recruit_building total_can_recruit
                    threshold building_total_remaining])
          else Planning bs' (pl_resources st) (buildings_to_recruit st)
  end.

Definition plan_cycle (env : environment) (bs : list building) : planning :=
  foldl (plan_building env)
        (Planning bs (refresh_resources env bs) [])
        (seq 0 (length bs)).

(** [remaining[unit_idx] -= qty], the entry deleted when nothing is left. *)
Definition submit_unit (remaining : Dict.t Z) (e : Z * Z) : Dict.t Z :=
  let left := default 0 (Dict.get (fst e) remaining) - snd e in
  if left <=? 0 then Dict.del (fst e) remaining
  else Dict.set (fst e) left remaining.

(** The action code used for a submission: the cached one, or a freshly
    fetched one. *)
Definition obtain_action_code (env : environment) (i : nat) (b : building)
    : option Z :=
  match action_code b with
  | Some code => Some code
  | None =>
      match building_page env i with
      | Some (Some code) => Some code
      | _ => None
      end
  end.

(** The body of the loop over [buildings_to_recruit]: the buildings and
    the requests posted so far. *)
Definition submit_order (env : environment)
    (st : list building * list recruit_info) (info : recruit_info)
    : list building * list recruit_info :=
  let '(bs, posted) := st in
  match bs !! ri_building info with
  | None => st
  | Some b =>
      match obtain_action_code env (ri_building info) b with
      | None => st
      | Some code =>
          let b1 := with_status (is_busy b) (queue_remaining_time b)
                      (Some code) b in
          if post_succeeds env (ri_building info) then
            let b2 :=
              with_status true (queue_remaining_time b1) (action_code b1)
                (with_remaining
                   (foldl submit_unit (remaining_assignments b1)
                      (to_recruit info)) b1) in
            (<[ri_building info := b2]> bs, posted ++ [info])
          else (<[ri_building info := b1]> bs, posted ++ [info])
      end
  end.

Definition total_remaining (bs : list building) : Z :=
  zsum (map (fun b => zsum (Dict.values (remaining_assignments b))) bs).

Inductive cycle_result : Type :=
| Completed
| Continue (bs : list building) (posted : list recruit_info) (wait : Z).

(** One pass through the body of [while True]. *)
Definition run_cycle (env : environment) (bs : list building)
    : cycle_result :=
  if total_remaining bs <=? 0 then Completed
  else
    let st := plan_cycle env bs in
    match buildings_to_recruit st with
    | [] => Continue (pl_buildings st) [] 300
    | _ :: _ =>
        let '(bs', posted) :=
          foldl (submit_order env) (pl_buildings st, [])
                (buildings_to_recruit st) in
        Continue bs' posted 60
    end.

(** [building['remaining_assignments'] = building['assignments'].copy()] *)
Definition start_loop (distribution : list building) : list building :=
  map (fun b => with_remaining (assignments b) b) distribution.

(** The buildings after the cycles answered by [envs], and whether the
    completion notice was sent. *)
Fixpoint run_cycles (envs : list environment) (bs : list building)
    : list building * bool :=
  match envs with
  | [] => (bs, false)
  | env :: envs' =>
      match run_cycle env bs with
      | Completed => (bs, true)
      | Continue bs' _ _ => run_cycles envs' bs'
      end
  end.

Definition execute_recruitment_loop (envs : list environment)
    (distribution : list building) : list building * bool :=
  run_cycles envs (start_loop distribution).

(** ** Notions used in the statements *)

Definition qsum (xs : list Q) : Q := foldr Qplus 0%Q xs.




(** A building holds assignments only for unit types of its capability
    map. *)
Definition respects_capabilities (b : building) : Prop :=
  forall unit_idx,
    is_Some (Dict.get unit_idx (assignments b)) ->
    is_Some (unit_data b !! unit_idx).

(** The assignments of a building form a dict of positive quantities. *)
Definition planned_positive (b : building) : Prop :=
  NoDup (Dict.keys (assignments b)) /\
  Forall (fun e : Z * Z => 0 < snd e) (assignments b).

(** Position of the fastest and of the slowest building, as
    [times.index(min_time)] and [times.index(max_time)] pick them. *)
Definition fastest_index (bs : list building) : nat :=
  match map completion_time bs with
  | [] => O
  | t :: ts => index_of (list_min t ts) (t :: ts)
  end.

Definition slowest_index (bs : list building) : nat :=
  match map completion_time bs with
  | [] => O
  | t :: ts => index_of (list_max t ts) (t :: ts)
  end.

(** The balancer finds nothing to move between the slowest and the
    fastest building. *)
Definition no_move_possible (bs : list building) : Prop :=
  match bs !! fastest_index bs, bs !! slowest_index bs with
  | Some fastest, Some slowest => find_movable slowest fastest = None
  | _, _ => True
  end.


(** The work left in a building never exceeds what was planned for it,
    and no entry is kept at zero or below. *)
Definition remaining_within_plan (b : building) : Prop :=
  forall unit_idx q,
    Dict.get unit_idx (remaining_assignments b) = Some q ->
    0 < q /\
    exists a, Dict.get unit_idx (assignments b) = Some a /\ q <= a.

(** ** Sample data *)

Definition sample_costs : amounts := Amounts 1 30 0 0 0 30.

Definition idle_building (city : Z) (caps : gmap Z unit_info) : building :=
  Building city caps false 0 None [] 0 [].

(** Two buildings that build unit 301 in 10 s and in 20 s, and an order
    of 100 units. *)
Definition scenario_buildings : list building :=
  [idle_building 1 {[ 301 := UnitInfo sample_costs 10 ]};
   idle_building 2 {[ 301 := UnitInfo sample_costs 20 ]}].

Definition scenario_order : recruitment_order := [(301, 100)].

(** A building that alone builds unit 301 and shares unit 302 with a
    second building, an order too large to balance in 100 moves, and an
    order that leaves five units of the shared type on each building. *)
Definition mixed_buildings : list building :=
  [idle_building 1 {[ 301 := UnitInfo sample_costs 100;
                      302 := UnitInfo sample_costs 100 ]};
   idle_building 2 {[ 302 := UnitInfo sample_costs 100 ]}].


Definition small_order : recruitment_order := [(301, 100); (302, 10)].


Definition small_plan : list building :=
  set_estimated_times (initial_allocation mixed_buildings small_order).



(** The distribution planned for the small order, and a city that has
    50 citizens and gains 10 an hour. *)
Definition small_distribution : list building :=
  default [] (calculate_distribution mixed_buildings small_order).



Definition sample_stock : gmap Z amounts :=
  {[ 1 := Amounts 50 100000 0 0 0 100000 ]}.

Definition sample_growth : gmap Z Q := {[ 1 := 10%Q ]}.

(** A game that has plenty of everything but only 60 citizens in each
    city, hands out an action code and accepts every request. *)
Definition sample_environment : environment :=
  {| city_snapshot := fun _ => Amounts 60 100000 0 0 0 100000;
     building_page := fun _ => Some (Some 7);
     post_succeeds := fun _ => true |}.

(** What decides the work of a building: the loop changes nothing else
    than its status fields before it submits. *)
Definition work (b : building)
    : Dict.t Z * Dict.t Z * gmap Z unit_info * Z :=
  (assignments b, remaining_assignments b, unit_data b, city_id b).

(** An entry of the remaining work that is positive and within the
    plan. *)
Definition within_plan (planned : Dict.t Z) (e : Z * Z) : Prop :=
  0 < snd e /\ exists a, Dict.get (fst e) planned = Some a /\ snd e <= a.

(** What the loop records about a building it is going to order for. *)
Definition meets_threshold (bs : list building) (info : recruit_info) : Prop :=
  exists b stock left,
    bs !! ri_building info = Some b
    /\ can_recruit b stock = (left, to_recruit info, ri_total info)
    /\ ri_threshold info
       = threshold_of (zsum (Dict.values (remaining_assignments b)))
    /\ ri_threshold info <= ri_total info.

(** Every entry of the remaining work of a building is within its plan. *)
Definition in_plan (b : building) : Prop :=
  Forall (within_plan (assignments b)) (remaining_assignments b).

(** ** format_time *)

(** The list [parts] of a positive whole number of seconds: the amount of
    each part and its suffix. *)
Definition time_parts (seconds : Z) : list (Z * string) :=
  let hours := seconds / 3600 in
  let minutes := (seconds mod 3600) / 60 in
  let secs := seconds mod 60 in
  let parts := if 0 <? hours then [(hours, "h")] else [] in
  let parts := if 0 <? minutes then parts ++ [(minutes, "m")] else parts in
  if (0 <? secs) || (match parts with [] => true | _ => false end)
  then parts ++ [(secs, "s")]
  else parts.

Definition render_part (p : Z * string) : string :=
  (pretty (fst p) +:+ snd p)%string.

Definition format_time (seconds : Z) : string :=
  if seconds <=? 0 then "0s"
  else String.concat " " (map render_part (time_parts seconds)).

(** Seconds that a part stands for. *)
Definition part_seconds (p : Z * string) : Z :=
  if String.eqb (snd p) "h" then fst p * 3600
  else if String.eqb (snd p) "m" then fst p * 60
  else fst p.

(** ** check_resources *)

Inductive resource : Type := Wood | Wine | Marble | Crystal | Sulfur.

Record resource_check : Type := ResourceCheck {
  can_fulfill : bool;
  missing_resources : Dict.t (list (resource * Z));
  missing_citizens : Dict.t Z;
  available : Dict.t amounts
}.

(** [city_requirements[city_id][k] += unit_data[k] * qty] for the six
    keys. *)
Definition add_cost (req c : amounts) (qty : Z) : amounts :=
  {| citizens := citizens req + citizens c * qty;
     wood := wood req + wood c * qty;
     wine := wine req + wine c * qty;
     marble := marble req + marble c * qty;
     crystal := crystal req + crystal c * qty;
     sulfur := sulfur req + sulfur c * qty |}.

Definition require_unit (b : building) (req : amounts) (e : Z * Z) : amounts :=
  match unit_data b !! fst e with
  | Some d => add_cost req (costs d) (snd e)
  | None => req
  end.

(** The body of the first loop: the requirements of a building added to
    those of its city. *)
Definition require_building (reqs : Dict.t amounts) (b : building)
    : Dict.t amounts :=
  let req := default no_stock (Dict.get (city_id b) reqs) in
  Dict.set (city_id b) (foldl (require_unit b) req (assignments b)) reqs.

Definition city_requirements (distribution : list building) : Dict.t amounts :=
  foldl require_building [] distribution.

(** The dict [missing] of one city, in the order its keys are set. *)
Definition shortage (name : resource) (required stock : Z)
    : list (resource * Z) :=
  if stock <? required then [(name, required - stock)] else [].

Definition missing_of (req stock : amounts) : list (resource * Z) :=
  shortage Wood (wood req) (wood stock)
  ++ shortage Wine (wine req) (wine stock)
  ++ shortage Marble (marble req) (marble stock)
  ++ shortage Crystal (crystal req) (crystal stock)
  ++ shortage Sulfur (sulfur req) (sulfur stock).

(** The body of the second loop, over [city_requirements.items()]. *)
Definition check_city (env : environment) (result : resource_check)
    (e : Z * amounts) : resource_check :=
  let city := fst e in
  let req := snd e in
  let stock := city_snapshot env city in
  let short_citizens := citizens stock <? citizens req in
  let missing := missing_of req stock in
  {| can_fulfill :=
       if short_citizens then false
       else match missing with [] => can_fulfill result | _ => false end;
     missing_resources :=
       match missing with
       | [] => missing_resources result
       | _ => Dict.set city missing (missing_resources result)
       end;
     missing_citizens :=
       if short_citizens
       then Dict.set city (citizens req - citizens stock)
              (missing_citizens result)
       else missing_citizens result;
     available := Dict.set city stock (available result) |}.

Definition check_resources (env : environment)
    (distribution : list building) : resource_check :=
  foldl (check_city env) (ResourceCheck true [] [] [])
        (city_requirements distribution).

(** What a building needs of one of the six amounts, [field] being the
    projection, and what the buildings of a city need of it. *)
Definition building_need (field : amounts -> Z) (b : building) : Z :=
  foldl (fun acc (e : Z * Z) =>
           match unit_data b !! fst e with
           | Some d => acc + field (costs d) * snd e
           | None => acc
           end) 0 (assignments b).

Definition city_need (field : amounts -> Z) (city : Z) (bs : list building)
    : Z :=
  zsum (map (building_need field) (buildings_of_city city bs)).

(** The six keys of a cost vector. *)
Definition is_field (field : amounts -> Z) : Prop :=
  field = citizens \/ field = wood \/ field = wine \/ field = marble
  \/ field = crystal \/ field = sulfur.

(** The [city_resources] that the main function hands to the estimator:
    for every city of the distribution, the snapshot kept by
    [check_resources], if there is one. *)
Definition resources_for_estimate (check : resource_check)
    (distribution : list building) : gmap Z amounts :=
  foldl (fun m b =>
           match Dict.get (city_id b) (available check) with
           | Some stock => <[city_id b := stock]> m
           | None => m
           end) ∅ distribution.

(** ** execute_recruitment *)

(** A recruitment request as it is posted: the building, the action code
    and the quantity of every unit type. *)
Record request : Type := Request {
  rq_building : nat;
  rq_action_code : Z;
  rq_units : Dict.t Z
}.

(** The body of the loop over the distribution; [i] is the position of
    the building. *)
Definition execute_building (env : environment)
    (st : bool * list request) (ib : nat * building) : bool * list request :=
  let '(success, posted) := st in
  let '(i, b) := ib in
  if Dict.is_empty (assignments b) then st
  else
    match obtain_action_code env i b with
    | None => (false, posted)
    | Some code =>
        (if post_succeeds env i then success else false,
         posted ++ [Request i code (assignments b)])
    end.

Definition execute_recruitment (env : environment)
    (distribution : list building) : bool * list request :=
  foldl (execute_building env) (true, []) (imap pair distribution).

(** Units of one type over a list of posted requests. *)
Definition requested_units (unit_idx : Z) (posted : list request) : Z :=
  zsum (map (fun r => default 0 (Dict.get unit_idx (rq_units r))) posted).

(** ** The order taken from the operator *)

Definition UNITS_ORDER : list (string * Z) :=
  [("Hoplite", 303); ("Swordsman", 302); ("Steam Giant", 308);
   ("Sulphur Carabineer", 304); ("Mortar", 305); ("Gyrocopter", 312);
   ("Balloon-Bombardier", 309); ("Doctor", 311); ("Cook", 310);
   ("Battering Ram", 307); ("Spearman", 315); ("Slinger", 301);
   ("Archer", 313); ("Catapult", 306)]%string.

Definition SHIPS_ORDER : list (string * Z) :=
  [("Ram Ship", 210); ("Steam Ram", 216); ("Rocket Ship", 217);
   ("Diving Boat", 212); ("Paddle Speedboat", 218); ("Balloon Carrier", 219);
   ("Tender", 220); ("Fire Ship", 211); ("Ballista Ship", 213);
   ("Catapult Ship", 214); ("Mortar Ship", 215)]%string.

(** What [read] returns at a quantity prompt: the quote that leads back
    to the menu, the empty line, or a number. *)
Inductive answer : Type :=
| Back
| Blank
| Number (n : Z).

Inductive order_result : Type :=
| Cancelled
| NoUnitsParsed
| NothingSelected
| Ordered (order : recruitment_order).

(** The body of the loop over [unit_list]: [None] once the operator has
    gone back, otherwise the order and [units_shown] so far. *)
Definition ask_unit (buildings_data : list building) (read : Z -> answer)
    (st : option (recruitment_order * nat)) (unit : string * Z)
    : option (recruitment_order * nat) :=
  match st with
  | None => None
  | Some (order, units_shown) =>
      let game_idx := snd unit in
      if existsb (capable game_idx) buildings_data then
        match read game_idx with
        | Back => None
        | Blank => Some (order, S units_shown)
        | Number qty_input =>
            if 0 <? qty_input
            then Some (Dict.set game_idx qty_input order, S units_shown)
            else Some (order, S units_shown)
        end
      else Some (order, units_shown)
  end.

Definition ask_order (unit_list : list (string * Z))
    (buildings_data : list building) (read : Z -> answer) : order_result :=
  match foldl (ask_unit buildings_data read) (Some ([], O)) unit_list with
  | None => Cancelled
  | Some (order, units_shown) =>
      match units_shown with
      | O => NoUnitsParsed
      | S _ =>
          match order with
          | [] => NothingSelected
          | _ :: _ => Ordered order
          end
      end
  end.

(** Step 10 of the main function: the resumable loop is taken when
    something is short or a building is busy, the one-shot execution
    otherwise. *)
Definition uses_loop (check : resource_check) (buildings_data : list building)
    : bool :=
  negb (Dict.is_empty (missing_resources check))
  || negb (Dict.is_empty (missing_citizens check))
  || existsb is_busy buildings_data.

(** What the planner leaves alone in a building. *)
Definition fixed_part (b : building)
    : Z * gmap Z unit_info * bool * Z * option Z * Dict.t Z :=
  (city_id b, unit_data b, is_busy b, queue_remaining_time b,
   action_code b, remaining_assignments b).

(** An operator who asks for 100 of every unit type. *)
Definition hundred_each : Z -> answer := fun _ => Number 100.

(** What holds of every entry while the operator is asked. *)
Definition entry_ok (bs : list building) (read : Z -> answer)
    (e : Z * Z) : Prop :=
  0 < snd e
  /\ capable_buildings (fst e) bs <> []
  /\ read (fst e) = Number (snd e).

(** What the report says about a city, from what the city needs. *)
Definition citizens_short (env : environment) (c : Z) (req : amounts)
    : option Z :=
  if citizens (city_snapshot env c) <? citizens req
  then Some (citizens req - citizens (city_snapshot env c))
  else None.

Definition resources_short (env : environment) (c : Z) (req : amounts)
    : option (list (resource * Z)) :=
  match missing_of req (city_snapshot env c) with
  | [] => None
  | m => Some m
  end.

(** A city with 50 citizens that gains 10 an hour, and a building there
    that is to train 80 units of one citizen each. *)
Definition short_environment : environment :=
  {| city_snapshot := fun _ => Amounts 50 100000 0 0 0 100000;
     building_page := fun _ => Some (Some 7);
     post_succeeds := fun _ => true |}.

Definition short_building : building :=
  with_assignments [(301, 80)]
    (idle_building 1 {[ 301 := UnitInfo sample_costs 10 ]}).

(** The first cycle of the loop on the small distribution, in a game
    with 60 citizens in each city: what it leaves and what it posts. *)
Definition first_cycle : cycle_result :=
  run_cycle sample_environment (start_loop small_distribution).

Definition first_cycle_buildings : list building :=
  match first_cycle with
  | Continue bs _ _ => bs
  | Completed => []
  end.

Definition first_cycle_posted : list recruit_info :=
  match first_cycle with
  | Continue _ posted _ => posted
  | Completed => []
  end.

Definition first_order : recruit_info :=
  default (RecruitInfo 0 [] 0 0 0) (head first_cycle_posted).

(** ** What a cycle takes from a city *)

(** What an order for a building costs of one of the six amounts, and
    what the orders planned for the buildings of one city cost
    together. *)
Definition order_cost (field : amounts -> Z) (b : building)
    (to_recruit : Dict.t Z) : Z :=
  foldl (fun acc (e : Z * Z) =>
           match unit_data b !! fst e with
           | Some d => acc + field (costs d) * snd e
           | None => acc
           end) 0 to_recruit.

Definition city_orders (field : amounts -> Z) (bs : list building) (city : Z)
    (infos : list recruit_info) : Z :=
  zsum (map (fun info =>
               match bs !! ri_building info with
               | Some b =>
                   if Z.eqb (city_id b) city
                   then order_cost field b (to_recruit info)
                   else 0
               | None => 0
               end) infos).

(** None of the six amounts is negative. *)
Definition covered (a : amounts) : Prop :=
  forall field, is_field field -> 0 <= field a.

(** What holds of the stock while a cycle is planned. *)
Definition stock_accounted (env : environment) (bs : list building)
    (st : planning) : Prop :=
  map work (pl_buildings st) = map work bs
  /\ (forall b, In b bs -> is_Some (pl_resources st !! city_id b))
  /\ forall c s, pl_resources st !! c = Some s ->
       covered s
       /\ forall field, is_field field ->
            field s + city_orders field bs c (buildings_to_recruit st)
            = field (city_snapshot env c).

(** The six cases of [is_field]. *)
Ltac each_field H :=
  destruct H as [-> | [-> | [-> | [-> | [-> | ->]]]]].

(** Units of one type that remain for a building. *)
Definition remaining_of (unit_idx : Z) (b : building) : Z :=
  default 0 (Dict.get unit_idx (remaining_assignments b)).

(** A unit of the list is shown when some building can build it; the
    operator declines it with an empty line or a number that is not
    positive. *)
Definition shown (bs : list building) (unit : string * Z) : Prop :=
  existsb (capable (snd unit)) bs = true.

Definition declined (read : Z -> answer) (unit : string * Z) : Prop :=
  read (snd unit) = Blank
  \/ exists q, read (snd unit) = Number q /\ q <= 0.

(** ** Dictionaries *)

Lemma dict_get_set_eq {V : Type} (k : Z) (v : V) (d : Dict.t V) :
  Dict.get k (Dict.set k v d) = Some v.
Proof.
  induction d as [|[k' v'] d IH]; simpl.
  - rewrite Z.eqb_refl. reflexivity.
  - destruct (Z.eqb k' k) eqn:E; simpl.
    + rewrite Z.eqb_refl. reflexivity.
    + rewrite E. exact IH.
Qed.

Lemma dict_get_set_ne {V : Type} (k k' : Z) (v : V) (d : Dict.t V) :
  k <> k' -> Dict.get k' (Dict.set k v d) = Dict.get k' d.
Proof.
  intros Hne. induction d as [|[k0 v0] d IH]; simpl.
  - destruct (Z.eqb k k') eqn:E; [apply Z.eqb_eq in E; contradiction | reflexivity].
  - destruct (Z.eqb k0 k) eqn:E; simpl.
    + apply Z.eqb_eq in E. subst k0.
      destruct (Z.eqb k k') eqn:E'; [apply Z.eqb_eq in E'; contradiction | reflexivity].
    + rewrite IH. reflexivity.
Qed.

Lemma dict_get_del_ne {V : Type} (k k' : Z) (d : Dict.t V) :
  k <> k' -> Dict.get k' (Dict.del k d) = Dict.get k' d.
Proof.
  intros Hne. induction d as [|[k0 v0] d IH]; simpl; [reflexivity|].
  destruct (Z.eqb k0 k) eqn:E; simpl.
  - apply Z.eqb_eq in E. subst k0.
    destruct (Z.eqb k k') eqn:E'; [apply Z.eqb_eq in E'; contradiction | reflexivity].
  - rewrite IH. reflexivity.
Qed.

Lemma dict_get_In {V : Type} (k : Z) (v : V) (d : Dict.t V) :
  Dict.get k d = Some v -> In (k, v) d.
Proof.
  induction d as [|[k0 v0] d IH]; simpl; [discriminate|].
  destruct (Z.eqb k0 k) eqn:E.
  - apply Z.eqb_eq in E. intros [= ->]. left. congruence.
  - intros H. right. auto.
Qed.

Lemma dict_get_is_Some_keys {V : Type} (k : Z) (d : Dict.t V) :
  is_Some (Dict.get k d) <-> In k (Dict.keys d).
Proof.
  induction d as [|[k0 v0] d IH]; simpl.
  - split; [intros [x Hx]; discriminate | tauto].
  - destruct (Z.eqb k0 k) eqn:E.
    + apply Z.eqb_eq in E. split; eauto.
    + apply Z.eqb_neq in E. rewrite IH. tauto.
Qed.

Lemma dict_keys_set_In {V : Type} (k k' : Z) (v : V) (d : Dict.t V) :
  In k' (Dict.keys (Dict.set k v d)) <-> k' = k \/ In k' (Dict.keys d).
Proof.
  induction d as [|[k0 v0] d IH]; simpl.
  - intuition.
  - destruct (Z.eqb k0 k) eqn:E; simpl.
    + apply Z.eqb_eq in E. subst. intuition.
    + rewrite IH. intuition.
Qed.

Lemma dict_del_incl {V : Type} (k : Z) (d : Dict.t V) (e : Z * V) :
  In e (Dict.del k d) -> In e d.
Proof.
  induction d as [|[k0 v0] d IH]; simpl; [tauto|].
  destruct (Z.eqb k0 k); simpl; intuition.
Qed.

Lemma dict_set_In {V : Type} (k : Z) (v : V) (d : Dict.t V) (e : Z * V) :
  In e (Dict.set k v d) -> e = (k, v) \/ In e d.
Proof.
  induction d as [|[k0 v0] d IH]; simpl.
  - intuition.
  - destruct (Z.eqb k0 k); simpl; intuition.
Qed.

Lemma dict_keys_set_NoDup {V : Type} (k : Z) (v : V) (d : Dict.t V) :
  NoDup (Dict.keys d) -> NoDup (Dict.keys (Dict.set k v d)).
Proof.
  induction d as [|[k0 v0] d IH]; simpl; intros Hnd.
  - apply NoDup_singleton.
  - apply NoDup_cons in Hnd as [Hin Hnd].
    destruct (Z.eqb k0 k) eqn:E; simpl.
    + apply Z.eqb_eq in E. subst. apply NoDup_cons. split; assumption.
    + apply Z.eqb_neq in E. apply NoDup_cons. split; [|auto].
      rewrite list_elem_of_In. rewrite list_elem_of_In in Hin.
      fold (Dict.keys (Dict.set k v d)). rewrite dict_keys_set_In.
      intros [Heq | Hk]; [congruence | exact (Hin Hk)].
Qed.

Lemma dict_keys_del_NoDup {V : Type} (k : Z) (d : Dict.t V) :
  NoDup (Dict.keys d) -> NoDup (Dict.keys (Dict.del k d)).
Proof.
  induction d as [|[k0 v0] d IH]; simpl; intros Hnd; [assumption|].
  apply NoDup_cons in Hnd as [Hin Hnd].
  destruct (Z.eqb k0 k); simpl; [assumption|].
  apply NoDup_cons. split; [|auto].
  rewrite list_elem_of_In. rewrite list_elem_of_In in Hin.
  intros Hk. apply Hin. unfold Dict.keys in *.
  apply in_map_iff in Hk as [e [He Hine]].
  apply in_map_iff. exists e. split; [assumption|].
  eapply dict_del_incl; eassumption.
Qed.

Lemma dict_In_get_NoDup {V : Type} (k : Z) (v : V) (d : Dict.t V) :
  NoDup (Dict.keys d) -> In (k, v) d -> Dict.get k d = Some v.
Proof.
  induction d as [|[k0 v0] d IH]; simpl; intros Hnd Hin; [tauto|].
  apply NoDup_cons in Hnd as [Hnotin Hnd].
  destruct Hin as [Heq | Hin].
  - inversion Heq; subst. rewrite Z.eqb_refl. reflexivity.
  - destruct (Z.eqb k0 k) eqn:E.
    + apply Z.eqb_eq in E. subst k0. exfalso. apply Hnotin.
      rewrite list_elem_of_In. apply in_map_iff. exists (k, v). auto.
    + auto.
Qed.

(** Sum of the values after an update of an existing or new key. *)
Lemma dict_values_set_sum (k v : Z) (d : Dict.t Z) :
  zsum (Dict.values (Dict.set k v d))
  = zsum (Dict.values d) - default 0 (Dict.get k d) + v.
Proof.
  unfold Dict.values, zsum.
  induction d as [|[k0 v0] d IH]; simpl.
  - lia.
  - destruct (Z.eqb k0 k) eqn:E; simpl; lia.
Qed.

Lemma dict_values_del_sum (k : Z) (d : Dict.t Z) :
  zsum (Dict.values (Dict.del k d))
  = zsum (Dict.values d) - default 0 (Dict.get k d).
Proof.
  unfold Dict.values, zsum.
  induction d as [|[k0 v0] d IH]; simpl.
  - lia.
  - destruct (Z.eqb k0 k) eqn:E; simpl; lia.
Qed.

(** ** Rational arithmetic of the split *)

Lemma py_int_floor (x : Q) : (0 <= x)%Q -> py_int x = Qfloor x.
Proof.
  destruct x as [n d]. unfold py_int, Qfloor, Qle. simpl. intros H.
  apply Z.quot_div_nonneg; lia.
Qed.

Lemma py_int_nonneg (x : Q) : (0 <= x)%Q -> 0 <= py_int x.
Proof.
  intros H. rewrite py_int_floor by assumption.
  change 0 with (Qfloor 0). apply Qfloor_resp_le. assumption.
Qed.

Lemma py_int_le (x : Q) : (0 <= x)%Q -> (inject_Z (py_int x) <= x)%Q.
Proof. intros H. rewrite py_int_floor by assumption. apply Qfloor_le. Qed.

Lemma speed_factor_pos (t : Z) : (0 < speed_factor t)%Q.
Proof.
  unfold speed_factor. destruct (0 <? t) eqn:E; [|reflexivity].
  apply Z.ltb_lt in E. apply Qlt_shift_div_l.
  - unfold Qlt. simpl. lia.
  - rewrite Qmult_0_l. reflexivity.
Qed.

Lemma speed_factors_pos (u : Z) (bs : list building) :
  Forall (fun s => (0 < s)%Q) (speed_factors u bs).
Proof.
  unfold speed_factors. rewrite Forall_fmap. apply Forall_forall.
  intros b _. apply speed_factor_pos.
Qed.

Lemma foldl_Qplus_shift (a : Q) (xs : list Q) :
  (foldl Qplus a xs == a + qsum xs)%Q.
Proof.
  revert a. induction xs as [|x xs IH]; intros a; simpl.
  - ring.
  - rewrite IH. ring.
Qed.

Lemma total_speed_qsum (xs : list Q) : (total_speed xs == qsum xs)%Q.
Proof. unfold total_speed. rewrite foldl_Qplus_shift. ring. Qed.

Lemma qsum_nonneg (xs : list Q) :
  Forall (fun s => (0 < s)%Q) xs -> (0 <= qsum xs)%Q.
Proof.
  induction 1 as [|x xs Hx _ IH]; simpl; [apply Qle_refl|].
  lra.
Qed.

Lemma qsum_pos (xs : list Q) :
  Forall (fun s => (0 < s)%Q) xs -> xs <> [] -> (0 < qsum xs)%Q.
Proof.
  intros H Hne. destruct H as [|x xs Hx Hxs]; [congruence|].
  simpl. pose proof (qsum_nonneg xs Hxs). lra.
Qed.

Lemma total_speed_pos (xs : list Q) :
  Forall (fun s => (0 < s)%Q) xs -> xs <> [] -> (0 < total_speed xs)%Q.
Proof.
  intros H Hne. rewrite total_speed_qsum. apply qsum_pos; assumption.
Qed.

Lemma share_nonneg (total : Z) (s ts : Q) :
  0 <= total -> (0 < s)%Q -> (0 < ts)%Q ->
  (0 <= inject_Z total * (s / ts))%Q.
Proof.
  intros Ht Hs Hts. apply Qmult_le_0_compat.
  - change 0%Q with (inject_Z 0). rewrite <- Zle_Qle. assumption.
  - apply Qle_shift_div_l; [assumption|]. lra.
Qed.

Lemma proportional_split_length (total : Z) (ts : Q) (speeds : list Q)
    (remaining : Z) :
  length (proportional_split total ts speeds remaining) = length speeds.
Proof.
  revert remaining. induction speeds as [|s rest IH]; intros remaining.
  - reflexivity.
  - destruct rest as [|s' rest']; [reflexivity|].
    change (S (length (proportional_split total ts (s' :: rest')
               (remaining - py_int (inject_Z total * (s / ts))%Q)))
            = S (length (s' :: rest'))).
    rewrite IH. reflexivity.
Qed.

Lemma proportional_split_sum (total : Z) (ts : Q) (speeds : list Q)
    (remaining : Z) :
  speeds <> [] ->
  zsum (proportional_split total ts speeds remaining) = remaining.
Proof.
  revert remaining. induction speeds as [|s rest IH]; intros remaining Hne.
  - congruence.
  - destruct rest as [|s' rest'].
    + simpl. lia.
    + change (py_int (inject_Z total * (s / ts))%Q
              + zsum (proportional_split total ts (s' :: rest')
                        (remaining - py_int (inject_Z total * (s / ts))%Q))
              = remaining).
      rewrite IH by discriminate. lia.
Qed.

Lemma proportional_split_nonneg (total : Z) (ts : Q) (speeds : list Q)
    (remaining : Z) :
  0 <= total -> (0 < ts)%Q ->
  Forall (fun s => (0 < s)%Q) speeds ->
  (inject_Z total * (qsum speeds / ts) <= inject_Z remaining)%Q ->
  Forall (fun q => 0 <= q) (proportional_split total ts speeds remaining).
Proof.
  intros Ht Hts. revert remaining.
  induction speeds as [|s rest IH]; intros remaining Hpos Hrem.
  - constructor.
  - apply Forall_cons in Hpos as [Hs Hrest].
    destruct rest as [|s' rest'].
    + change (Forall (fun q => 0 <= q) [remaining]).
      constructor; [|constructor].
      change (qsum [s]) with (s + 0)%Q in Hrem.
      assert (H0 : (0 <= inject_Z total * ((s + 0) / ts))%Q).
      { apply share_nonneg; [assumption| lra |assumption]. }
      rewrite Zle_Qle. change (inject_Z 0) with 0%Q.
      eapply Qle_trans; eassumption.
    + change (Forall (fun q => 0 <= q)
                (py_int (inject_Z total * (s / ts))%Q
                 :: proportional_split total ts (s' :: rest')
                      (remaining - py_int (inject_Z total * (s / ts))%Q))).
      pose proof (share_nonneg total s ts Ht Hs Hts) as Hsh.
      constructor.
      * apply py_int_nonneg. assumption.
      * apply IH; [assumption|].
        pose proof (py_int_le _ Hsh) as Hle.
        unfold Z.sub. rewrite inject_Z_plus, inject_Z_opp.
        change (qsum (s :: s' :: rest')) with (s + qsum (s' :: rest'))%Q in Hrem.
        assert (Heq : (inject_Z total * ((s + qsum (s' :: rest')) / ts)
                       == inject_Z total * (s / ts)
                          + inject_Z total * (qsum (s' :: rest') / ts))%Q).
        { field. lra. }
        rewrite Heq in Hrem. lra.
Qed.

Lemma even_split_length (total : Z) (n : nat) :
  length (even_split total n) = n.
Proof. unfold even_split. rewrite length_map, length_seq. reflexivity. Qed.

Lemma unit_quantities_proportional (total : Z) (speeds : list Q) :
  Forall (fun s => (0 < s)%Q) speeds -> speeds <> [] ->
  unit_quantities total speeds
  = proportional_split total (total_speed speeds) speeds total.
Proof.
  intros Hpos Hne. unfold unit_quantities.
  destruct (Qeq_bool (total_speed speeds) 0) eqn:E; [|reflexivity].
  apply Qeq_bool_eq in E. pose proof (total_speed_pos speeds Hpos Hne). lra.
Qed.

Lemma unit_quantities_length (total : Z) (speeds : list Q) :
  length (unit_quantities total speeds) = length speeds.
Proof.
  unfold unit_quantities. destruct (Qeq_bool _ _).
  - apply even_split_length.
  - apply proportional_split_length.
Qed.

Lemma unit_quantities_sum (total : Z) (speeds : list Q) :
  Forall (fun s => (0 < s)%Q) speeds -> speeds <> [] ->
  zsum (unit_quantities total speeds) = total.
Proof.
  intros Hpos Hne. rewrite unit_quantities_proportional by assumption.
  apply proportional_split_sum. assumption.
Qed.

Lemma unit_quantities_nonneg (total : Z) (speeds : list Q) :
  0 <= total -> Forall (fun s => (0 < s)%Q) speeds -> speeds <> [] ->
  Forall (fun q => 0 <= q) (unit_quantities total speeds).
Proof.
  intros Ht Hpos Hne. rewrite unit_quantities_proportional by assumption.
  pose proof (total_speed_pos speeds Hpos Hne) as Hts.
  apply proportional_split_nonneg; try assumption.
  rewrite <- total_speed_qsum.
  assert (Heq : (inject_Z total * (total_speed speeds / total_speed speeds)
                 == inject_Z total)%Q) by (field; lra).
  rewrite Heq. apply Qle_refl.
Qed.

(** ** The initial allocation *)

Lemma zsum_app (xs ys : list Z) : zsum (xs ++ ys) = zsum xs + zsum ys.
Proof. unfold zsum. induction xs as [|x xs IH]; simpl; lia. Qed.

Lemma zsum_cons (x : Z) (xs : list Z) : zsum (x :: xs) = x + zsum xs.
Proof. reflexivity. Qed.

Lemma assign_unit_data (u q : Z) (b : building) :
  unit_data (assign u q b) = unit_data b.
Proof. unfold assign. destruct (0 <? q); reflexivity. Qed.

Lemma assign_capable (u u' q : Z) (b : building) :
  capable u' (assign u q b) = capable u' b.
Proof. unfold capable. rewrite assign_unit_data. reflexivity. Qed.

Lemma assign_assigned_other (u u' q : Z) (b : building) :
  u <> u' -> assigned u' (assign u q b) = assigned u' b.
Proof.
  intros Hne. unfold assign, assigned. destruct (0 <? q); [|reflexivity].
  simpl. rewrite dict_get_set_ne by assumption. reflexivity.
Qed.

Lemma assign_assigned_same (u q : Z) (b : building) :
  0 <= q -> assigned u b = 0 -> assigned u (assign u q b) = q.
Proof.
  intros Hq H0. unfold assign. destruct (0 <? q) eqn:E.
  - unfold assigned. simpl. rewrite dict_get_set_eq. reflexivity.
  - apply Z.ltb_ge in E. lia.
Qed.

Lemma assign_quantities_unit_data (u : Z) (qtys : list Z) (bs : list building) :
  map unit_data (assign_quantities u qtys bs) = map unit_data bs.
Proof.
  revert qtys. induction bs as [|b bs IH]; intros qtys; simpl; [reflexivity|].
  destruct (capable u b).
  - destruct qtys as [|q qs]; [reflexivity|].
    simpl. rewrite assign_unit_data, IH. reflexivity.
  - simpl. rewrite IH. reflexivity.
Qed.

Lemma assign_quantities_other (u u' : Z) (qtys : list Z) (bs : list building) :
  u <> u' ->
  map (assigned u') (assign_quantities u qtys bs) = map (assigned u') bs.
Proof.
  intros Hne. revert qtys.
  induction bs as [|b bs IH]; intros qtys; simpl; [reflexivity|].
  destruct (capable u b).
  - destruct qtys as [|q qs]; [reflexivity|].
    simpl. rewrite assign_assigned_other, IH by assumption. reflexivity.
  - simpl. rewrite IH. reflexivity.
Qed.

Lemma filter_capable_cons (u : Z) (b : building) (bs : list building) :
  capable_buildings u (b :: bs)
  = if capable u b then b :: capable_buildings u bs
    else capable_buildings u bs.
Proof.
  rewrite filter_cons. destruct (capable u b) eqn:E.
  - rewrite decide_True by reflexivity. reflexivity.
  - rewrite decide_False by discriminate. reflexivity.
Qed.

(** The quantities land, in order, on the capable buildings. *)
Lemma assign_quantities_capable (u : Z) (qtys : list Z) (bs : list building) :
  length qtys = length (capable_buildings u bs) ->
  Forall (fun b => assigned u b = 0) bs ->
  Forall (fun q => 0 <= q) qtys ->
  map (assigned u)
      (capable_buildings u (assign_quantities u qtys bs))
  = qtys.
Proof.
  revert qtys. induction bs as [|b bs IH]; intros qtys Hlen Hzero Hq.
  - simpl in *. destruct qtys; [reflexivity|discriminate].
  - apply Forall_cons in Hzero as [Hb Hbs].
    rewrite filter_capable_cons in Hlen. simpl.
    destruct (capable u b) eqn:E.
    + destruct qtys as [|q qs]; [discriminate|].
      apply Forall_cons in Hq as [Hq0 Hqs].
      rewrite filter_capable_cons, assign_capable, E. simpl.
      rewrite assign_assigned_same by assumption.
      f_equal. apply IH; [simpl in Hlen; lia|assumption|assumption].
    + rewrite filter_capable_cons, E. apply IH; assumption.
Qed.

(** Buildings that cannot build the unit type keep no assignment of it. *)
Lemma assign_quantities_total (u : Z) (qtys : list Z) (bs : list building) :
  length qtys = length (capable_buildings u bs) ->
  Forall (fun b => assigned u b = 0) bs ->
  Forall (fun q => 0 <= q) qtys ->
  total_assigned u (assign_quantities u qtys bs) = zsum qtys.
Proof.
  unfold total_assigned.
  revert qtys. induction bs as [|b bs IH]; intros qtys Hlen Hzero Hq.
  - simpl in *. destruct qtys; [reflexivity|discriminate].
  - apply Forall_cons in Hzero as [Hb Hbs].
    rewrite filter_capable_cons in Hlen. simpl.
    destruct (capable u b) eqn:E.
    + destruct qtys as [|q qs]; [discriminate|].
      apply Forall_cons in Hq as [Hq0 Hqs].
      simpl map. rewrite !zsum_cons.
      rewrite assign_assigned_same by assumption.
      f_equal. apply IH; [simpl in Hlen; lia|assumption|assumption].
    + simpl map. rewrite zsum_cons, Hb. apply IH; assumption.
Qed.

Lemma distribute_unit_unit_data (bs : list building) (e : Z * Z) :
  map unit_data (distribute_unit bs e) = map unit_data bs.
Proof.
  unfold distribute_unit.
  destruct (filter _ bs); [reflexivity|].
  apply assign_quantities_unit_data.
Qed.

Lemma distribute_unit_other (u : Z) (bs : list building) (e : Z * Z) :
  fst e <> u ->
  map (assigned u) (distribute_unit bs e) = map (assigned u) bs.
Proof.
  intros Hne. unfold distribute_unit.
  destruct (filter _ bs); [reflexivity|].
  apply assign_quantities_other. assumption.
Qed.

Lemma foldl_distribute_unit_data (bs : list building) (order : recruitment_order) :
  map unit_data (foldl distribute_unit bs order) = map unit_data bs.
Proof.
  revert bs. induction order as [|e order IH]; intros bs; simpl; [reflexivity|].
  rewrite IH. apply distribute_unit_unit_data.
Qed.

Lemma foldl_distribute_other (u : Z) (bs : list building)
    (order : recruitment_order) :
  ~ In u (Dict.keys order) ->
  map (assigned u) (foldl distribute_unit bs order) = map (assigned u) bs.
Proof.
  revert bs. induction order as [|e order IH]; intros bs Hnot; simpl;
    [reflexivity|].
  simpl in Hnot. rewrite IH by tauto.
  apply distribute_unit_other. tauto.
Qed.

(** Facts that depend on the capability maps only. *)
Lemma same_unit_data_filter (u : Z) (xs ys : list building) :
  map unit_data xs = map unit_data ys ->
  map unit_data (capable_buildings u xs)
  = map unit_data (capable_buildings u ys).
Proof.
  revert ys. induction xs as [|x xs IH]; intros [|y ys] H; try discriminate.
  - reflexivity.
  - simpl in H. injection H as Hxy Hrest.
    assert (Hc : capable u x = capable u y)
      by (unfold capable; rewrite Hxy; reflexivity).
    rewrite !filter_capable_cons, Hc.
    destruct (capable u y).
    + simpl. rewrite Hxy. f_equal. apply IH. assumption.
    + apply IH. assumption.
Qed.

Lemma speed_factors_unit_data (u : Z) (xs ys : list building) :
  map unit_data xs = map unit_data ys ->
  speed_factors u xs = speed_factors u ys.
Proof.
  revert ys. induction xs as [|x xs IH]; intros [|y ys] H; try discriminate.
  - reflexivity.
  - simpl in H. injection H as Hxy Hrest. unfold speed_factors in *. simpl.
    assert (Ht : time_per_unit u x = time_per_unit u y)
      by (unfold time_per_unit; rewrite Hxy; reflexivity).
    rewrite Ht. f_equal. auto.
Qed.

Lemma same_unit_data_assigned_filter (u : Z) (xs ys : list building) :
  map unit_data xs = map unit_data ys ->
  map (assigned u) xs = map (assigned u) ys ->
  map (assigned u) (capable_buildings u xs)
  = map (assigned u) (capable_buildings u ys).
Proof.
  revert ys. induction xs as [|x xs IH]; intros [|y ys] H Ha; try discriminate.
  - reflexivity.
  - simpl in H, Ha. injection H as Hxy Hrest. injection Ha as Haxy Harest.
    assert (Hc : capable u x = capable u y)
      by (unfold capable; rewrite Hxy; reflexivity).
    rewrite !filter_capable_cons, Hc.
    destruct (capable u y).
    + simpl. rewrite Haxy. f_equal. apply IH; assumption.
    + apply IH; assumption.
Qed.

Lemma reset_unit_data (bs : list building) :
  map unit_data (map reset_building bs) = map unit_data bs.
Proof. rewrite map_map. reflexivity. Qed.

Lemma reset_assigned (u : Z) (bs : list building) :
  Forall (fun b => assigned u b = 0) (map reset_building bs).
Proof. rewrite Forall_fmap. apply Forall_forall. intros b _. reflexivity. Qed.

Lemma initial_allocation_unit_data (bs : list building)
    (order : recruitment_order) :
  map unit_data (initial_allocation bs order) = map unit_data bs.
Proof.
  unfold initial_allocation.
  rewrite foldl_distribute_unit_data. apply reset_unit_data.
Qed.

Lemma map_eq_Forall {A B : Type} (f : A -> B) (y : B) (xs ys : list A) :
  map f xs = map f ys -> Forall (fun a => f a = y) ys ->
  Forall (fun a => f a = y) xs.
Proof.
  revert ys. induction xs as [|x xs IH]; intros [|z zs] H Hall; try discriminate.
  - constructor.
  - simpl in H. injection H as Hx Hrest.
    apply Forall_cons in Hall as [Hz Hzs].
    constructor; [congruence|eauto].
Qed.

(** What the planner has assigned of a unit type once its entry of the
    order has been processed: exactly the computed quantities, on the
    capable buildings, and nothing elsewhere. *)
Lemma initial_allocation_quantities (bs : list building)
    (order : recruitment_order) (u total : Z) :
  NoDup (Dict.keys order) ->
  In (u, total) order ->
  0 <= total ->
  capable_buildings u bs <> [] ->
  let qtys :=
    unit_quantities total
      (speed_factors u (capable_buildings u bs)) in
  map (assigned u)
      (capable_buildings u (initial_allocation bs order))
  = qtys
  /\ total_assigned u (initial_allocation bs order) = zsum qtys.
Proof.
  intros Hnd Hin Htotal Hcap qtys.
  apply in_split in Hin as [pre [post ->]].
  unfold Dict.keys in Hnd. rewrite map_app in Hnd. simpl in Hnd.
  apply NoDup_app in Hnd as (Hpre & Hdisj & Hpost).
  apply NoDup_cons in Hpost as [Hu_post _].
  assert (Hu_pre : ~ In u (Dict.keys pre)).
  { intros Hk. apply (Hdisj u); [apply list_elem_of_In; exact Hk|].
    left. }
  rewrite list_elem_of_In in Hu_post.
  unfold initial_allocation. rewrite foldl_app. simpl.
  set (B1 := foldl distribute_unit (map reset_building bs) pre).
  assert (HB1d : map unit_data B1 = map unit_data bs).
  { unfold B1. rewrite foldl_distribute_unit_data. apply reset_unit_data. }
  assert (HB1z : Forall (fun b => assigned u b = 0) B1).
  { eapply map_eq_Forall; [|apply (reset_assigned u bs)].
    unfold B1. apply foldl_distribute_other. assumption. }
  assert (Hfd : map unit_data (capable_buildings u B1)
                = map unit_data (capable_buildings u bs)).
  { apply same_unit_data_filter. assumption. }
  assert (Hsp : speed_factors u (capable_buildings u B1)
                = speed_factors u (capable_buildings u bs)).
  { apply speed_factors_unit_data. assumption. }
  set (B2 := distribute_unit B1 (u, total)).
  assert (HB2 : B2 = assign_quantities u qtys B1).
  { unfold B2, distribute_unit. simpl fst. simpl snd.
    destruct (capable_buildings u B1) as [|c cs] eqn:E.
    - exfalso. simpl in Hfd.
      destruct (capable_buildings u bs); [congruence|discriminate].
    - rewrite Hsp. reflexivity. }
  assert (Hlen : length qtys
                 = length (capable_buildings u B1)).
  { unfold qtys. rewrite unit_quantities_length.
    unfold speed_factors. rewrite length_map.
    rewrite <- (length_map unit_data), <- Hfd, length_map. reflexivity. }
  assert (Hne : speed_factors u (capable_buildings u bs) <> []).
  { unfold speed_factors.
    destruct (capable_buildings u bs); [congruence|discriminate]. }
  assert (Hq : Forall (fun q => 0 <= q) qtys).
  { apply unit_quantities_nonneg;
      [assumption|apply speed_factors_pos|assumption]. }
  assert (HB3d : map unit_data (foldl distribute_unit B2 post) = map unit_data B2).
  { apply foldl_distribute_unit_data. }
  assert (HB3a : map (assigned u) (foldl distribute_unit B2 post)
                 = map (assigned u) B2).
  { apply foldl_distribute_other. assumption. }
  split.
  - rewrite (same_unit_data_assigned_filter u _ B2 HB3d HB3a).
    rewrite HB2. apply assign_quantities_capable; assumption.
  - unfold total_assigned. rewrite HB3a.
    fold (total_assigned u B2). rewrite HB2.
    apply assign_quantities_total; assumption.
Qed.

(** ** The split in the specification's words *)






Lemma capable_speeds_nonempty (u : Z) (bs : list building) :
  capable_buildings u bs <> [] ->
  speed_factors u (capable_buildings u bs) <> [].
Proof.
  unfold speed_factors. destruct (capable_buildings u bs); [congruence|discriminate].
Qed.

(** C10. Whenever the capable set of a unit type is not empty, the total
    speed computed by calculate_distribution is strictly positive (every
    building contributes 1/build_time, or 1 when the build time is not
    positive), the test [total_speed == 0] fails, and the quantities are
    those of the proportional branch, never those of the even split. *)
Theorem total_speed_positive (u total : Z) (bs : list building) :
  capable_buildings u bs <> [] ->
  let speeds := speed_factors u (capable_buildings u bs) in
  (0 < total_speed speeds)%Q
  /\ Qeq_bool (total_speed speeds) 0 = false
  /\ unit_quantities total speeds
     = proportional_split total (total_speed speeds) speeds total.
Proof.
  intros Hcap speeds.
  assert (Hpos : Forall (fun s => (0 < s)%Q) speeds)
    by apply speed_factors_pos.
  assert (Hne : speeds <> []) by (apply capable_speeds_nonempty; assumption).
  pose proof (total_speed_pos speeds Hpos Hne) as Hts.
  split; [assumption|]. split.
  - destruct (Qeq_bool (total_speed speeds) 0) eqn:E; [|reflexivity].
    apply Qeq_bool_eq in E. lra.
  - apply unit_quantities_proportional; assumption.
Qed.

Lemma total_speed_positive_scenario :
  capable_buildings 301 scenario_buildings <> []
  /\ (0 < total_speed (speed_factors 301
                         (capable_buildings 301 scenario_buildings)))%Q
  /\ unit_quantities 100
       (speed_factors 301 (capable_buildings 301 scenario_buildings))
     = [66; 34].
Proof.
  assert (H : capable_buildings 301 scenario_buildings <> [])
    by (vm_compute; discriminate).
  split; [exact H|].
  pose proof (total_speed_positive 301 100 scenario_buildings H)
    as (Hpos & _ & Hq).
  split; [exact Hpos|].
  rewrite Hq. vm_compute. reflexivity.
Defined.



(** ** The balancing pass *)

Lemma set_estimated_times_assigned (u : Z) (bs : list building) :
  map (assigned u) (set_estimated_times bs) = map (assigned u) bs.
Proof. unfold set_estimated_times. rewrite map_map. reflexivity. Qed.

Lemma set_estimated_times_unit_data (bs : list building) :
  map unit_data (set_estimated_times bs) = map unit_data bs.
Proof. unfold set_estimated_times. rewrite map_map. reflexivity. Qed.

Lemma set_estimated_times_total (u : Z) (bs : list building) :
  total_assigned u (set_estimated_times bs) = total_assigned u bs.
Proof.
  unfold total_assigned. rewrite set_estimated_times_assigned. reflexivity.
Qed.

Lemma set_estimated_times_completion (bs : list building) :
  map completion_time (set_estimated_times bs) = map completion_time bs.
Proof. unfold set_estimated_times. rewrite map_map. reflexivity. Qed.

Lemma set_estimated_times_estimated (bs : list building) :
  map estimated_time (set_estimated_times bs) = map completion_time bs.
Proof. unfold set_estimated_times. rewrite map_map. reflexivity. Qed.

Lemma total_assigned_insert (u : Z) (bs : list building) (i : nat)
    (b b' : building) :
  bs !! i = Some b ->
  total_assigned u (<[i := b']> bs)
  = total_assigned u bs - assigned u b + assigned u b'.
Proof.
  unfold total_assigned, zsum. revert i.
  induction bs as [|x bs IH]; intros [|i] H; try discriminate.
  - simpl in H. injection H as ->. simpl. lia.
  - simpl in H. simpl. rewrite (IH i H). lia.
Qed.

Lemma find_movable_Some (slowest fastest : building) (u : Z) :
  find_movable slowest fastest = Some u ->
  In u (Dict.keys (assignments slowest))
  /\ capable u fastest = true
  /\ 10 < assigned u slowest.
Proof.
  unfold find_movable. intros H. apply find_some in H as [Hin Hp].
  apply andb_prop in Hp as [Hc Hq]. apply Z.ltb_lt in Hq. auto.
Qed.

Lemma take_units_assigned (u u' m : Z) (b : building) :
  m < assigned u b ->
  assigned u' (take_units u m b)
  = if Z.eqb u u' then assigned u b - m else assigned u' b.
Proof.
  intros Hm. unfold take_units.
  destruct (assigned u b - m <=? 0) eqn:E; [apply Z.leb_le in E; lia|].
  unfold assigned at 1. simpl.
  destruct (Z.eqb u u') eqn:Eu.
  - apply Z.eqb_eq in Eu. subst u'. rewrite dict_get_set_eq. reflexivity.
  - apply Z.eqb_neq in Eu. rewrite dict_get_set_ne by assumption. reflexivity.
Qed.

Lemma give_units_assigned (u u' m : Z) (b : building) :
  assigned u' (give_units u m b)
  = if Z.eqb u u' then assigned u b + m else assigned u' b.
Proof.
  unfold give_units. unfold assigned at 1. simpl.
  destruct (Z.eqb u u') eqn:Eu.
  - apply Z.eqb_eq in Eu. subst u'. rewrite dict_get_set_eq. reflexivity.
  - apply Z.eqb_neq in Eu. rewrite dict_get_set_ne by assumption. reflexivity.
Qed.

Lemma take_units_unit_data (u m : Z) (b : building) :
  unit_data (take_units u m b) = unit_data b.
Proof. unfold take_units. destruct (_ <=? _); reflexivity. Qed.

Lemma give_units_unit_data (u m : Z) (b : building) :
  unit_data (give_units u m b) = unit_data b.
Proof. reflexivity. Qed.

(** What a move does, when the slowest building holds more than ten
    units of the type. *)
Lemma move_units_unfold (u : Z) (si fi : nat) (bs : list building)
    (slowest : building) :
  bs !! si = Some slowest ->
  10 < assigned u slowest ->
  (fi < length bs)%nat ->
  exists f',
    <[si := take_units u 10 slowest]> bs !! fi = Some f'
    /\ move_units u (assigned u slowest) si fi bs
       = <[fi := give_units u 10 f']> (<[si := take_units u 10 slowest]> bs).
Proof.
  intros Hs Hq Hfi. unfold move_units. rewrite Hs.
  replace (Z.min 10 (assigned u slowest - 1)) with 10 by lia.
  destruct (<[si := take_units u 10 slowest]> bs !! fi) as [f'|] eqn:E.
  - exists f'. auto.
  - apply lookup_ge_None in E. rewrite length_insert in E. lia.
Qed.

Lemma move_units_total (u u' : Z) (si fi : nat) (bs : list building)
    (slowest : building) :
  bs !! si = Some slowest ->
  10 < assigned u slowest ->
  (fi < length bs)%nat ->
  total_assigned u' (move_units u (assigned u slowest) si fi bs)
  = total_assigned u' bs.
Proof.
  intros Hs Hq Hfi.
  destruct (move_units_unfold u si fi bs slowest Hs Hq Hfi) as (f' & Hf' & ->).
  rewrite (total_assigned_insert u' _ fi f' _ Hf').
  rewrite (total_assigned_insert u' bs si slowest _ Hs).
  rewrite take_units_assigned by lia. rewrite give_units_assigned.
  destruct (Z.eqb u u') eqn:Eu; [|lia].
  apply Z.eqb_eq in Eu. subst u'. lia.
Qed.

(** The two ways an iteration can end. *)
Lemma balance_step_cases (tolerance : Z) (bs0 : list building) :
  let bs := set_estimated_times bs0 in
  (balance_step tolerance bs0 = Stopped bs
   /\ (skew bs <= tolerance \/ no_move_possible bs))
  \/ exists u slowest fastest,
       bs !! slowest_index bs0 = Some slowest
       /\ bs !! fastest_index bs0 = Some fastest
       /\ find_movable slowest fastest = Some u
       /\ tolerance < skew bs0
       /\ balance_step tolerance bs0
          = Moved (move_units u (assigned u slowest)
                     (slowest_index bs0) (fastest_index bs0) bs).
Proof.
  intros bs.
  assert (Hest : map estimated_time bs = map completion_time bs0)
    by apply set_estimated_times_estimated.
  assert (Hct : map completion_time bs = map completion_time bs0)
    by apply set_estimated_times_completion.
  unfold balance_step, no_move_possible, slowest_index, fastest_index, skew.
  fold bs. rewrite Hest, Hct. clear Hest Hct.
  destruct bs0 as [|b0 bs0'].
  { left. split; [reflexivity|]. right. exact I. }
  change (map completion_time (b0 :: bs0'))
    with (completion_time b0 :: map completion_time bs0').
  generalize (completion_time b0) (map completion_time bs0'). intros t ts.
  destruct (list_max t ts - list_min t ts <=? tolerance) eqn:E.
  { left. split; [reflexivity|]. left. apply Z.leb_le. assumption. }
  apply Z.leb_gt in E.
  destruct (bs !! index_of (list_min t ts) (t :: ts)) as [fastest|] eqn:Hf;
    [|left; split; [reflexivity|right; exact I]].
  destruct (bs !! index_of (list_max t ts) (t :: ts)) as [slowest|] eqn:Hs;
    [|left; split; [reflexivity|right; exact I]].
  destruct (find_movable slowest fastest) as [u|] eqn:Ef;
    [|left; split; [reflexivity|right; reflexivity]].
  right. exists u, slowest, fastest. repeat split; try reflexivity; assumption.
Qed.

Lemma balance_step_total (tolerance u : Z) (bs : list building) :
  match balance_step tolerance bs with
  | Stopped bs' | Moved bs' => total_assigned u bs' = total_assigned u bs
  end.
Proof.
  destruct (balance_step_cases tolerance bs)
    as [[-> _] | (v & slowest & fastest & Hs & Hf & Hfind & _ & ->)].
  - apply set_estimated_times_total.
  - apply find_movable_Some in Hfind as (_ & _ & Hq).
    rewrite move_units_total; [apply set_estimated_times_total| |assumption|].
    + exact Hs.
    + apply lookup_lt_Some in Hf. exact Hf.
Qed.

Lemma balance_loop_total (fuel : nat) (tolerance u : Z) (bs : list building)
    (iteration : nat) :
  total_assigned u (fst (balance_loop fuel tolerance bs iteration))
  = total_assigned u bs.
Proof.
  revert bs iteration. induction fuel as [|fuel IH]; intros bs iteration.
  - reflexivity.
  - simpl. pose proof (balance_step_total tolerance u bs) as H.
    destruct (balance_step tolerance bs) as [bs'|bs'].
    + exact H.
    + rewrite IH. exact H.
Qed.

(** C1. For a valid input (the order is a dict, the requested quantity
    is not negative) and a unit type of the order that at least one
    building can build, calculate_distribution returns a distribution in
    which, after the balancing pass, the assignments of that unit type
    over all buildings add up to the requested quantity. *)
Theorem assignments_sum_to_request (bs : list building)
    (order : recruitment_order) (u total : Z) :
  NoDup (Dict.keys order) ->
  In (u, total) order ->
  0 <= total ->
  capable_buildings u bs <> [] ->
  exists distribution,
    calculate_distribution bs order = Some distribution
    /\ total_assigned u distribution = total.
Proof.
  intros Hnd Hin Ht Hcap.
  exists (balance_distribution
            (set_estimated_times (initial_allocation bs order))
            order default_tolerance).
  split.
  - unfold calculate_distribution.
    destruct bs as [|b bs]; [exfalso; apply Hcap; reflexivity|].
    destruct order as [|e order]; [destruct Hin|]. reflexivity.
  - unfold balance_distribution.
    rewrite balance_loop_total, set_estimated_times_total.
    destruct (initial_allocation_quantities bs order u total Hnd Hin Ht Hcap)
      as [_ Hsum].
    rewrite Hsum. apply unit_quantities_sum;
      [apply speed_factors_pos|apply capable_speeds_nonempty; assumption].
Qed.

Lemma assignments_sum_scenario :
  exists distribution,
    calculate_distribution scenario_buildings scenario_order
    = Some distribution
    /\ total_assigned 301 distribution = 100.
Proof.
  apply (assignments_sum_to_request scenario_buildings scenario_order 301 100).
  - apply NoDup_singleton.
  - left. reflexivity.
  - lia.
  - vm_compute. discriminate.
Defined.

(** ** Assignments stay inside the capability map *)

Lemma capable_is_Some (u : Z) (b : building) :
  capable u b = true <-> is_Some (unit_data b !! u).
Proof.
  unfold capable. destruct (unit_data b !! u).
  - split; eauto.
  - split; [discriminate|]. intros [x Hx]. discriminate.
Qed.

Lemma set_key_respects (u q : Z) (b : building) :
  capable u b = true ->
  respects_capabilities b ->
  respects_capabilities (with_assignments (Dict.set u q (assignments b)) b).
Proof.
  intros Hc Hr v Hv. simpl in *.
  apply dict_get_is_Some_keys, dict_keys_set_In in Hv as [-> | Hv].
  - apply capable_is_Some. assumption.
  - apply Hr. apply dict_get_is_Some_keys. assumption.
Qed.

Lemma del_key_respects (u : Z) (b : building) :
  respects_capabilities b ->
  respects_capabilities (with_assignments (Dict.del u (assignments b)) b).
Proof.
  intros Hr v Hv. simpl in *. apply Hr.
  apply dict_get_is_Some_keys. apply dict_get_is_Some_keys in Hv.
  unfold Dict.keys in *. apply in_map_iff in Hv as (e & He & Hin).
  apply in_map_iff. exists e. split; [assumption|].
  eapply dict_del_incl. eassumption.
Qed.

Lemma assign_respects (u q : Z) (b : building) :
  capable u b = true ->
  respects_capabilities b -> respects_capabilities (assign u q b).
Proof.
  intros Hc Hr. unfold assign. destruct (0 <? q); [|assumption].
  apply set_key_respects; assumption.
Qed.

Lemma assign_quantities_respects (u : Z) (qtys : list Z) (bs : list building) :
  Forall respects_capabilities bs ->
  Forall respects_capabilities (assign_quantities u qtys bs).
Proof.
  intros H. revert qtys. induction H as [|b bs Hb Hbs IH]; intros qtys; simpl.
  - constructor.
  - destruct (capable u b) eqn:E.
    + destruct qtys as [|q qs]; [constructor; assumption|].
      constructor; [apply assign_respects; assumption|apply IH].
    + constructor; [assumption|apply IH].
Qed.

Lemma distribute_unit_respects (bs : list building) (e : Z * Z) :
  Forall respects_capabilities bs ->
  Forall respects_capabilities (distribute_unit bs e).
Proof.
  intros H. unfold distribute_unit.
  destruct (capable_buildings (fst e) bs); [assumption|].
  apply assign_quantities_respects. assumption.
Qed.

Lemma initial_allocation_respects (bs : list building)
    (order : recruitment_order) :
  Forall respects_capabilities (initial_allocation bs order).
Proof.
  unfold initial_allocation.
  assert (H : Forall respects_capabilities (map reset_building bs)).
  { rewrite Forall_fmap. apply Forall_forall. intros b _ u [x Hx]. discriminate. }
  revert H. generalize (map reset_building bs).
  induction order as [|e order IH]; intros l H; simpl; [assumption|].
  apply IH. apply distribute_unit_respects. assumption.
Qed.

Lemma set_estimated_times_respects (bs : list building) :
  Forall respects_capabilities bs ->
  Forall respects_capabilities (set_estimated_times bs).
Proof.
  intros H. unfold set_estimated_times. rewrite Forall_fmap.
  eapply Forall_impl; [exact H|]. intros b Hb. exact Hb.
Qed.

Lemma take_units_respects (u m : Z) (b : building) :
  In u (Dict.keys (assignments b)) ->
  respects_capabilities b -> respects_capabilities (take_units u m b).
Proof.
  intros Hin Hr. unfold take_units. destruct (_ <=? _).
  - apply del_key_respects. assumption.
  - apply set_key_respects; [|assumption].
    apply capable_is_Some, Hr, dict_get_is_Some_keys. assumption.
Qed.

Lemma give_units_respects (u m : Z) (b : building) :
  capable u b = true ->
  respects_capabilities b -> respects_capabilities (give_units u m b).
Proof. intros Hc Hr. unfold give_units. apply set_key_respects; assumption. Qed.

Lemma move_units_respects (u q : Z) (si fi : nat) (bs : list building)
    (slowest fastest : building) :
  bs !! si = Some slowest ->
  bs !! fi = Some fastest ->
  In u (Dict.keys (assignments slowest)) ->
  capable u fastest = true ->
  Forall respects_capabilities bs ->
  Forall respects_capabilities (move_units u q si fi bs).
Proof.
  intros Hs Hf Hin Hc Hall. unfold move_units. rewrite Hs.
  assert (Hrs : respects_capabilities slowest).
  { eapply Forall_lookup_1; eassumption. }
  assert (H1 : Forall respects_capabilities
                 (<[si := take_units u (Z.min 10 (q - 1)) slowest]> bs)).
  { apply Forall_insert; [assumption|].
    apply take_units_respects; assumption. }
  destruct (<[si := take_units u (Z.min 10 (q - 1)) slowest]> bs !! fi)
    as [f'|] eqn:E; [|assumption].
  apply Forall_insert; [assumption|].
  apply give_units_respects.
  - apply list_lookup_insert_Some in E as [(-> & <- & _) | (Hne & E)].
    + unfold capable. rewrite take_units_unit_data.
      rewrite Hs in Hf. injection Hf as <-. exact Hc.
    + rewrite Hf in E. injection E as <-. exact Hc.
  - eapply Forall_lookup_1; eassumption.
Qed.

Lemma balance_step_respects (tolerance : Z) (bs : list building) :
  Forall respects_capabilities bs ->
  match balance_step tolerance bs with
  | Stopped bs' | Moved bs' => Forall respects_capabilities bs'
  end.
Proof.
  intros H. apply set_estimated_times_respects in H.
  destruct (balance_step_cases tolerance bs)
    as [[-> _] | (v & slowest & fastest & Hs & Hf & Hfind & _ & ->)].
  - assumption.
  - apply find_movable_Some in Hfind as (Hin & Hc & _).
    eapply move_units_respects; eassumption.
Qed.

Lemma balance_loop_respects (fuel : nat) (tolerance : Z) (bs : list building)
    (iteration : nat) :
  Forall respects_capabilities bs ->
  Forall respects_capabilities (fst (balance_loop fuel tolerance bs iteration)).
Proof.
  revert bs iteration. induction fuel as [|fuel IH]; intros bs iteration H.
  - assumption.
  - simpl. pose proof (balance_step_respects tolerance bs H) as H'.
    destruct (balance_step tolerance bs) as [bs'|bs'].
    + exact H'.
    + apply IH. exact H'.
Qed.

(** C3. At no point of the planning does a building hold an assignment
    for a unit type that its capability map lacks: not after the initial
    allocation (proportional or even split), not after any number of
    iterations of the balancer, and so not in the distribution that
    calculate_distribution returns. *)
Theorem assignments_within_capabilities (bs : list building)
    (order : recruitment_order) :
  Forall respects_capabilities (initial_allocation bs order)
  /\ (forall (iterations : nat) (tolerance : Z),
        Forall respects_capabilities
          (fst (balance_loop iterations tolerance
                  (set_estimated_times (initial_allocation bs order)) 0)))
  /\ match calculate_distribution bs order with
     | Some distribution => Forall respects_capabilities distribution
     | None => True
     end.
Proof.
  pose proof (initial_allocation_respects bs order) as H0.
  assert (H1 : forall (iterations : nat) (tolerance : Z),
             Forall respects_capabilities
               (fst (balance_loop iterations tolerance
                       (set_estimated_times (initial_allocation bs order)) 0))).
  { intros. apply balance_loop_respects, set_estimated_times_respects, H0. }
  split; [exact H0|]. split; [exact H1|].
  unfold calculate_distribution.
  destruct bs as [|b bs']; [exact I|].
  destruct order as [|e order']; [exact I|].
  apply H1.
Qed.

(** ** How the balancing loop ends *)





(** ** One move of the balancer *)










(** ** The time estimate *)

Lemma dict_get_map_values {V W : Type} (f : V -> W) (k : Z) (d : Dict.t V) :
  Dict.get k (map (fun e => (fst e, f (snd e))) d) = f <$> Dict.get k d.
Proof.
  induction d as [|[k0 v0] d IH]; simpl; [reflexivity|].
  destruct (Z.eqb k0 k); [reflexivity|exact IH].
Qed.

Lemma foldl_add_unit_build (b : building) (l : Dict.t Z) (est : city_estimate) :
  build_time_seconds (foldl (add_unit b) est l)
  = build_time_seconds est
    + foldl (fun acc (e : Z * Z) =>
               match unit_data b !! fst e with
               | Some d => acc + time_seconds d * snd e
               | None => acc
               end) 0 l.
Proof.
  assert (H : forall (l : Dict.t Z) (est : city_estimate) (x : Z),
             build_time_seconds (foldl (add_unit b) est l)
             = build_time_seconds est - x
               + foldl (fun acc (e : Z * Z) =>
                          match unit_data b !! fst e with
                          | Some d => acc + time_seconds d * snd e
                          | None => acc
                          end) x l).
  { clear. intros l. induction l as [|e l IH]; intros est x; simpl.
    - lia.
    - unfold add_unit at 2. destruct (unit_data b !! e.1) as [d|].
      + rewrite (IH _ (x + time_seconds d * e.2)). simpl. lia.
      + apply IH. }
  rewrite (H l est 0). lia.
Qed.

Lemma add_order_overhead_build (b : building) (est : city_estimate) :
  build_time_seconds (add_order_overhead b est)
  = build_time_seconds est
    + (if Dict.is_empty (assignments b) then 0 else 10).
Proof.
  unfold add_order_overhead. destruct (Dict.is_empty _); simpl; lia.
Qed.

Lemma filter_none {A : Type} (P : A -> Prop) `{forall x, Decision (P x)}
    (l : list A) :
  (forall x, In x l -> ~ P x) -> filter P l = [].
Proof.
  induction l as [|x l IH]; intros Hall; [reflexivity|].
  rewrite filter_cons, decide_False by (apply Hall; left; reflexivity).
  apply IH. intros y Hy. apply Hall. right. exact Hy.
Qed.

Lemma buildings_of_city_snoc (c : Z) (bs : list building) (b : building) :
  buildings_of_city c (bs ++ [b])
  = buildings_of_city c bs ++ (if Z.eqb (city_id b) c then [b] else []).
Proof.
  unfold buildings_of_city. rewrite filter_app. f_equal.
  rewrite filter_cons, filter_nil.
  destruct (Z.eqb (city_id b) c) eqn:E.
  - apply Z.eqb_eq in E. rewrite decide_True by exact E. reflexivity.
  - apply Z.eqb_neq in E. rewrite decide_False by exact E. reflexivity.
Qed.

(** After the first loop every building's city has an entry, and the
    build time of an entry is the sum over the buildings of that city. *)
Lemma cities_build_time (city_resources : gmap Z amounts)
    (city_growth_rates : gmap Z Q) (bs : list building) :
  let cities :=
    foldl (add_building city_resources city_growth_rates) [] bs in
  (forall b, In b bs -> is_Some (Dict.get (city_id b) cities))
  /\ (forall c est, Dict.get c cities = Some est ->
        build_time_seconds est
        = zsum (map building_build_time (buildings_of_city c bs))).
Proof.
  induction bs as [|b bs IH] using rev_ind.
  - simpl. split; [tauto|discriminate].
  - rewrite foldl_app. simpl.
    set (cities := foldl (add_building city_resources city_growth_rates) [] bs)
      in *.
    simpl in IH. destruct IH as [IHp IHb].
    unfold add_building. fold cities.
    set (est0 := match Dict.get (city_id b) cities with
                 | Some est => est
                 | None => new_city_estimate city_resources city_growth_rates
                             (city_id b)
                 end).
    set (est1 := add_order_overhead b (foldl (add_unit b) est0 (assignments b))).
    split.
    + intros b' Hin. apply in_app_or in Hin as [Hin | [<- | []]].
      * destruct (Z.eq_dec (city_id b) (city_id b')) as [E | E].
        -- rewrite <- E, dict_get_set_eq. eauto.
        -- rewrite dict_get_set_ne by exact E. apply IHp. exact Hin.
      * rewrite dict_get_set_eq. eauto.
    + intros c est Hget. rewrite buildings_of_city_snoc, map_app, zsum_app.
      destruct (Z.eqb (city_id b) c) eqn:E.
      * apply Z.eqb_eq in E. subst c. rewrite dict_get_set_eq in Hget.
        injection Hget as <-. unfold est1.
        rewrite add_order_overhead_build, foldl_add_unit_build.
        assert (H0 : build_time_seconds est0
                     = zsum (map building_build_time
                               (buildings_of_city (city_id b) bs))).
        { unfold est0.
          destruct (Dict.get (city_id b) cities) as [e0|] eqn:Eg.
          - apply IHb. exact Eg.
          - unfold buildings_of_city. rewrite filter_none; [reflexivity|].
            intros x Hx Hc. destruct (IHp x Hx) as [y Hy].
            rewrite Hc, Eg in Hy. discriminate. }
        rewrite H0.
        change (zsum (map building_build_time [b]))
          with (building_build_time b + 0).
        assert (Hb : building_build_time b
                     = foldl (fun acc (e : Z * Z) =>
                                match unit_data b !! fst e with
                                | Some d => acc + time_seconds d * snd e
                                | None => acc
                                end) 0 (assignments b)
                       + (if Dict.is_empty (assignments b) then 0 else 10))
          by reflexivity.
        rewrite Hb. lia.
      * apply Z.eqb_neq in E. rewrite dict_get_set_ne in Hget by exact E.
        rewrite (IHb c est Hget).
        change (zsum (map building_build_time [])) with 0. lia.
Qed.

(** C8 (as the code has it). In the estimate, the build time of the city
    of any building is the sum, over the buildings of that city, of the
    per-unit build time times the assigned quantity of every assigned
    unit type the building can build, plus 10 seconds for every building
    that has assignments (one order per building). *)
Theorem city_build_time (bs : list building) (city_resources : gmap Z amounts)
    (city_growth_rates : gmap Z Q) (b : building) :
  In b bs ->
  exists est,
    Dict.get (city_id b)
      (by_city (estimate_recruitment_time bs city_resources city_growth_rates))
    = Some est
    /\ build_time_seconds est
       = zsum (map building_build_time (buildings_of_city (city_id b) bs)).
Proof.
  intros Hin.
  destruct (cities_build_time city_resources city_growth_rates bs) as [Hp Hb].
  destruct (Hp b Hin) as [e0 He0].
  exists (finish_city e0). simpl.
  rewrite dict_get_map_values, He0. split; [reflexivity|].
  simpl. apply Hb. exact He0.
Qed.

Lemma city_build_time_small_distribution :
  exists est,
    Dict.get 1
      (by_city (estimate_recruitment_time small_distribution
                  sample_stock sample_growth))
    = Some est
    /\ build_time_seconds est = 10510.
Proof.
  destruct (city_build_time small_distribution sample_stock sample_growth
              (default (idle_building 0 ∅) (small_distribution !! 0%nat)))
    as (est & Hget & Hbuild).
  - vm_compute. left. reflexivity.
  - exists est. split; [exact Hget|]. rewrite Hbuild. vm_compute. reflexivity.
Defined.

(** C8 as stated fails: the first building of the small distribution
    holds two unit types; the estimate counts 10 s for it, where the
    statement counts 10 s for each of the two types. *)
Lemma build_time_counts_one_order_per_building :
  map assignments small_distribution = [[(301, 100); (302, 5)]; [(302, 5)]]
  /\ (build_time_seconds <$>
        Dict.get 1
          (by_city (estimate_recruitment_time small_distribution
                      sample_stock sample_growth)))
     = Some 10510
  /\ zsum (map spec_building_build_time
             (buildings_of_city 1 small_distribution)) = 10520.
Proof.
  split; [vm_compute; reflexivity|].
  split; vm_compute; reflexivity.
Qed.

(** ** Waiting times and the bottleneck *)










(** ** The planner hands positive quantities to the loop *)

Lemma set_key_positive (u q : Z) (b : building) :
  0 < q -> planned_positive b ->
  planned_positive (with_assignments (Dict.set u q (assignments b)) b).
Proof.
  intros Hq [Hnd Hpos]. split; simpl.
  - apply dict_keys_set_NoDup. exact Hnd.
  - apply Forall_forall. intros e He. apply list_elem_of_In in He.
    apply dict_set_In in He as [-> | He]; [exact Hq|].
    rewrite Forall_forall in Hpos. apply Hpos, list_elem_of_In, He.
Qed.

Lemma del_key_positive (u : Z) (b : building) :
  planned_positive b ->
  planned_positive (with_assignments (Dict.del u (assignments b)) b).
Proof.
  intros [Hnd Hpos]. split; simpl.
  - apply dict_keys_del_NoDup. exact Hnd.
  - apply Forall_forall. intros e He. apply list_elem_of_In in He.
    apply dict_del_incl in He.
    rewrite Forall_forall in Hpos. apply Hpos, list_elem_of_In, He.
Qed.

Lemma assigned_nonneg (u : Z) (b : building) :
  planned_positive b -> 0 <= assigned u b.
Proof.
  intros [_ Hpos]. unfold assigned.
  destruct (Dict.get u (assignments b)) as [q|] eqn:E; simpl; [|lia].
  apply dict_get_In in E. rewrite Forall_forall in Hpos.
  apply list_elem_of_In, Hpos in E. simpl in E. lia.
Qed.

Lemma assign_quantities_positive (u : Z) (qtys : list Z) (bs : list building) :
  Forall planned_positive bs ->
  Forall planned_positive (assign_quantities u qtys bs).
Proof.
  intros H. revert qtys. induction H as [|b bs Hb Hbs IH]; intros qtys; simpl.
  - constructor.
  - destruct (capable u b).
    + destruct qtys as [|q qs]; [constructor; assumption|].
      constructor; [|apply IH]. unfold assign.
      destruct (0 <? q) eqn:E; [|exact Hb].
      apply Z.ltb_lt in E. apply set_key_positive; assumption.
    + constructor; [assumption|apply IH].
Qed.

Lemma initial_allocation_positive (bs : list building)
    (order : recruitment_order) :
  Forall planned_positive (initial_allocation bs order).
Proof.
  unfold initial_allocation.
  assert (H : Forall planned_positive (map reset_building bs)).
  { rewrite Forall_fmap. apply Forall_forall. intros b _.
    split; simpl; constructor. }
  revert H. generalize (map reset_building bs).
  induction order as [|e order IH]; intros l H; simpl; [assumption|].
  apply IH. unfold distribute_unit.
  destruct (capable_buildings (fst e) l); [assumption|].
  apply assign_quantities_positive. assumption.
Qed.

Lemma move_units_positive (u : Z) (si fi : nat) (bs : list building)
    (slowest : building) :
  bs !! si = Some slowest ->
  10 < assigned u slowest ->
  (fi < length bs)%nat ->
  Forall planned_positive bs ->
  Forall planned_positive (move_units u (assigned u slowest) si fi bs).
Proof.
  intros Hs Hq Hfi Hall.
  destruct (move_units_unfold u si fi bs slowest Hs Hq Hfi) as (f' & Hf' & ->).
  assert (H1 : Forall planned_positive (<[si := take_units u 10 slowest]> bs)).
  { apply Forall_insert; [assumption|].
    assert (Hps : planned_positive slowest)
      by (eapply Forall_lookup_1; eassumption).
    unfold take_units. destruct (assigned u slowest - 10 <=? 0) eqn:E.
    - apply del_key_positive. exact Hps.
    - apply Z.leb_gt in E. apply set_key_positive; assumption. }
  apply Forall_insert; [assumption|].
  assert (Hpf : planned_positive f') by (eapply Forall_lookup_1; eassumption).
  unfold give_units. apply set_key_positive; [|exact Hpf].
  pose proof (assigned_nonneg u f' Hpf). lia.
Qed.

Lemma balance_loop_positive (fuel : nat) (tolerance : Z) (bs : list building)
    (iteration : nat) :
  Forall planned_positive bs ->
  Forall planned_positive (fst (balance_loop fuel tolerance bs iteration)).
Proof.
  revert bs iteration. induction fuel as [|fuel IH]; intros bs iteration H.
  - assumption.
  - simpl.
    assert (He : Forall planned_positive (set_estimated_times bs)).
    { unfold set_estimated_times. rewrite Forall_fmap.
      eapply Forall_impl; [exact H|]. intros b Hb. exact Hb. }
    destruct (balance_step_cases tolerance bs)
      as [[-> _] | (v & slowest & fastest & Hs & Hf & Hfind & _ & ->)].
    + exact He.
    + apply IH. apply find_movable_Some in Hfind as (_ & _ & Hq).
      apply move_units_positive; try assumption.
      eapply lookup_lt_Some. exact Hf.
Qed.

Lemma calculate_distribution_positive (bs : list building)
    (order : recruitment_order) (distribution : list building) :
  calculate_distribution bs order = Some distribution ->
  Forall planned_positive distribution.
Proof.
  unfold calculate_distribution.
  destruct bs as [|b bs']; [discriminate|].
  destruct order as [|e order']; [discriminate|].
  intros [= <-]. unfold balance_distribution.
  apply balance_loop_positive.
  unfold set_estimated_times. rewrite Forall_fmap.
  eapply Forall_impl; [apply initial_allocation_positive|].
  intros x Hx. exact Hx.
Qed.

(** ** One cycle of the loop: what is decided *)

Lemma threshold_of_floor (n : Z) :
  threshold_of n = Z.max 1 (Qfloor (inject_Z n * (20 # 100))%Q).
Proof.
  unfold threshold_of.
  destruct (Qlt_le_dec (inject_Z n * (20 # 100))%Q 0) as [Hneg | Hpos].
  - assert (H1 : py_int (inject_Z n * (20 # 100))%Q <= 0).
    { unfold py_int. destruct (inject_Z n * (20 # 100))%Q as [a d].
      unfold Qlt in Hneg. simpl in *.
      replace a with (- (- a)) by lia.
      rewrite Z.quot_opp_l by lia.
      pose proof (Z.quot_pos (- a) (Z.pos d)). lia. }
    assert (H2 : Qfloor (inject_Z n * (20 # 100))%Q <= 0).
    { change 0 with (Qfloor 0). apply Qfloor_resp_le. apply Qlt_le_weak.
      exact Hneg. }
    lia.
  - rewrite py_int_floor by exact Hpos. reflexivity.
Qed.

Lemma consider_unit_positive (b : building) (acc : amounts * Dict.t Z * Z)
    (e : Z * Z) :
  Forall (fun x : Z * Z => 0 < snd x) (snd (fst acc)) ->
  Forall (fun x : Z * Z => 0 < snd x) (snd (fst (consider_unit b acc e))).
Proof.
  destruct acc as [[available can] total]. simpl. intros H.
  unfold consider_unit. destruct (unit_data b !! e.1) as [d|]; [|exact H].
  destruct (0 <? max_possible e.2 (costs d) available) eqn:E; [|exact H].
  apply Z.ltb_lt in E. simpl.
  apply Forall_forall. intros x Hx. apply list_elem_of_In in Hx.
  apply dict_set_In in Hx as [-> | Hx]; [exact E|].
  rewrite Forall_forall in H. apply H, list_elem_of_In, Hx.
Qed.

Lemma can_recruit_positive (b : building) (available : amounts) :
  Forall (fun x : Z * Z => 0 < snd x) (snd (fst (can_recruit b available))).
Proof.
  unfold can_recruit.
  assert (H : Forall (fun x : Z * Z => 0 < snd x)
                (snd (fst (available, @nil (Z * Z), 0)))) by constructor.
  revert H. generalize (available, @nil (Z * Z), 0).
  induction (remaining_assignments b) as [|e l IH]; intros acc H; simpl.
  - exact H.
  - apply IH. apply consider_unit_positive. exact H.
Qed.

Lemma can_recruit_work (b b' : building) (available : amounts) :
  work b' = work b -> can_recruit b' available = can_recruit b available.
Proof.
  unfold work. intros H.
  assert (Hr : remaining_assignments b' = remaining_assignments b)
    by congruence.
  assert (Hu : unit_data b' = unit_data b) by congruence.
  assert (Hc : forall acc e, consider_unit b' acc e = consider_unit b acc e).
  { intros acc e. unfold consider_unit. rewrite Hu. reflexivity. }
  unfold can_recruit. rewrite Hr.
  generalize (available, @nil (Z * Z), 0).
  generalize (remaining_assignments b). clear - Hc.
  intros l. induction l as [|e l IH]; intros acc; simpl.
  - reflexivity.
  - rewrite Hc. apply IH.
Qed.

Lemma refresh_busy_work (env : environment) (i : nat) (b : building) :
  work (refresh_busy env i b) = work b.
Proof.
  unfold refresh_busy. destruct (is_busy b); [|reflexivity].
  destruct (fetch_building_data env i b) as [[[busy queue] code]|]; reflexivity.
Qed.

Lemma insert_same_work (bs : list building) (i : nat) (b b' : building) :
  bs !! i = Some b -> work b' = work b ->
  map work (<[i := b']> bs) = map work bs.
Proof.
  revert i. induction bs as [|x bs IH]; intros [|i] H Hw; try discriminate.
  - simpl in H. injection H as ->. simpl. rewrite Hw. reflexivity.
  - simpl in H. simpl. rewrite (IH i H Hw). reflexivity.
Qed.

Lemma same_work_lookup (xs ys : list building) (i : nat) (x : building) :
  map work xs = map work ys -> xs !! i = Some x ->
  exists y, ys !! i = Some y /\ work x = work y.
Proof.
  intros H Hx.
  assert (Hl : (work <$> xs) !! i = Some (work x))
    by (rewrite list_lookup_fmap, Hx; reflexivity).
  change (work <$> xs) with (map work xs) in Hl. rewrite H in Hl.
  change (map work ys) with (work <$> ys) in Hl.
  rewrite list_lookup_fmap in Hl.
  destruct (ys !! i) as [y|]; [|discriminate].
  exists y. split; [reflexivity|]. simpl in Hl. congruence.
Qed.

Lemma plan_building_invariant (env : environment) (bs : list building)
    (st : planning) (i : nat) :
  map work (pl_buildings st) = map work bs ->
  Forall (meets_threshold bs) (buildings_to_recruit st) ->
  map work (pl_buildings (plan_building env st i)) = map work bs
  /\ Forall (meets_threshold bs) (buildings_to_recruit (plan_building env st i)).
Proof.
  intros Hw Hall. unfold plan_building.
  destruct (pl_buildings st !! i) as [b|] eqn:Hb; [|auto].
  destruct (Dict.is_empty (remaining_assignments b)); [auto|].
  pose proof (refresh_busy_work env i b) as Hrw.
  set (b' := refresh_busy env i b) in *.
  assert (Hw' : map work (<[i := b']> (pl_buildings st)) = map work bs).
  { rewrite (insert_same_work _ i b b' Hb Hrw). exact Hw. }
  destruct (is_busy b'); [simpl; auto|].
  destruct (can_recruit b' (stock_of (pl_resources st) (city_id b')))
    as [[left can] total] eqn:Ec.
  destruct (threshold_of (zsum (Dict.values (remaining_assignments b')))
            <=? total) eqn:Et; [|simpl; auto].
  simpl. split; [exact Hw'|].
  apply Forall_app. split; [exact Hall|].
  constructor; [|constructor].
  destruct (same_work_lookup _ _ i b Hw Hb) as (y & Hy & Hby).
  assert (Hyw : work b' = work y) by congruence.
  exists y, (stock_of (pl_resources st) (city_id b')), left. simpl.
  split; [exact Hy|]. split.
  - rewrite <- (can_recruit_work y b' _ Hyw). exact Ec.
  - assert (Hr : remaining_assignments b' = remaining_assignments y)
      by (unfold work in Hyw; congruence).
    rewrite <- Hr. split; [reflexivity|]. apply Z.leb_le. exact Et.
Qed.

Lemma plan_cycle_invariant (env : environment) (bs : list building) :
  map work (pl_buildings (plan_cycle env bs)) = map work bs
  /\ Forall (meets_threshold bs) (buildings_to_recruit (plan_cycle env bs)).
Proof.
  unfold plan_cycle.
  assert (H : map work (pl_buildings (Planning bs (refresh_resources env bs) []))
              = map work bs
              /\ Forall (meets_threshold bs)
                   (buildings_to_recruit
                      (Planning bs (refresh_resources env bs) [])))
    by (split; [reflexivity|constructor]).
  revert H. generalize (Planning bs (refresh_resources env bs) []).
  induction (seq 0 (length bs)) as [|i l IH]; intros st [Hw Hall]; simpl.
  - auto.
  - apply IH. apply plan_building_invariant; assumption.
Qed.

Lemma meets_threshold_positive (bs : list building) (info : recruit_info) :
  meets_threshold bs info ->
  Forall (fun x : Z * Z => 0 < snd x) (to_recruit info).
Proof.
  intros (b & stock & left & _ & Hc & _).
  pose proof (can_recruit_positive b stock) as H. rewrite Hc in H. exact H.
Qed.

(** ** One cycle of the loop: what is submitted *)

Lemma submit_unit_within (planned remaining : Dict.t Z) (e : Z * Z) :
  0 < snd e ->
  Forall (within_plan planned) remaining ->
  Forall (within_plan planned) (submit_unit remaining e).
Proof.
  intros He Hall. unfold submit_unit.
  destruct (default 0 (Dict.get e.1 remaining) - e.2 <=? 0) eqn:E.
  - apply Forall_forall. intros x Hx. apply list_elem_of_In in Hx.
    apply dict_del_incl in Hx.
    rewrite Forall_forall in Hall. apply Hall, list_elem_of_In, Hx.
  - apply Z.leb_gt in E.
    apply Forall_forall. intros x Hx. apply list_elem_of_In in Hx.
    apply dict_set_In in Hx as [-> | Hx].
    + destruct (Dict.get e.1 remaining) as [q|] eqn:Eg; simpl in E; [|lia].
      apply dict_get_In in Eg. rewrite Forall_forall in Hall.
      apply list_elem_of_In, Hall in Eg. destruct Eg as (_ & a & Ha & Hqa).
      simpl in *. split; [exact E|]. exists a. split; [exact Ha|simpl; lia].
    + rewrite Forall_forall in Hall. apply Hall, list_elem_of_In, Hx.
Qed.

Lemma submit_unit_sum (planned remaining : Dict.t Z) (e : Z * Z) :
  0 < snd e ->
  Forall (within_plan planned) remaining ->
  zsum (Dict.values (submit_unit remaining e)) <= zsum (Dict.values remaining).
Proof.
  intros He Hall. unfold submit_unit.
  assert (Hq : 0 <= default 0 (Dict.get e.1 remaining)).
  { destruct (Dict.get e.1 remaining) as [q|] eqn:Eg; simpl; [|lia].
    apply dict_get_In in Eg. rewrite Forall_forall in Hall.
    apply list_elem_of_In, Hall in Eg. destruct Eg as [Hpos _].
    simpl in Hpos. lia. }
  destruct (default 0 (Dict.get e.1 remaining) - e.2 <=? 0) eqn:E.
  - rewrite dict_values_del_sum. lia.
  - rewrite dict_values_set_sum. lia.
Qed.

Lemma submit_units_within (planned : Dict.t Z) (orders remaining : Dict.t Z) :
  Forall (fun x : Z * Z => 0 < snd x) orders ->
  Forall (within_plan planned) remaining ->
  Forall (within_plan planned) (foldl submit_unit remaining orders)
  /\ zsum (Dict.values (foldl submit_unit remaining orders))
     <= zsum (Dict.values remaining).
Proof.
  intros Hpos. revert remaining.
  induction Hpos as [|e orders He Hrest IH]; intros remaining Hall; simpl.
  - split; [exact Hall|lia].
  - destruct (IH (submit_unit remaining e)
                (submit_unit_within planned remaining e He Hall)) as [H1 H2].
    split; [exact H1|].
    pose proof (submit_unit_sum planned remaining e He Hall). lia.
Qed.

Lemma zsum_map_insert {A : Type} (f : A -> Z) (l : list A) (i : nat)
    (x y : A) :
  l !! i = Some x ->
  zsum (map f (<[i := y]> l)) = zsum (map f l) - f x + f y.
Proof.
  unfold zsum. revert i.
  induction l as [|a l IH]; intros [|i] H; try discriminate.
  - simpl in H. injection H as ->. simpl. lia.
  - simpl in H. simpl. rewrite (IH i H). lia.
Qed.

Lemma total_remaining_insert (bs : list building) (i : nat) (b b' : building) :
  bs !! i = Some b ->
  total_remaining (<[i := b']> bs)
  = total_remaining bs
    - zsum (Dict.values (remaining_assignments b))
    + zsum (Dict.values (remaining_assignments b')).
Proof.
  intros H. unfold total_remaining.
  exact (zsum_map_insert
           (fun b => zsum (Dict.values (remaining_assignments b)))
           bs i b b' H).
Qed.

Lemma insert_same_assignments (bs : list building) (i : nat) (b b' : building) :
  bs !! i = Some b -> assignments b' = assignments b ->
  map assignments (<[i := b']> bs) = map assignments bs.
Proof.
  revert i. induction bs as [|x bs IH]; intros [|i] H Hw; try discriminate.
  - simpl in H. injection H as ->. simpl. rewrite Hw. reflexivity.
  - simpl in H. simpl. rewrite (IH i H Hw). reflexivity.
Qed.

(** One request: nothing happens, or the request is posted and at most
    the building it names changes. *)
Lemma submit_order_cases (env : environment) (bs : list building)
    (posted : list recruit_info) (info : recruit_info) :
  Forall (fun x : Z * Z => 0 < snd x) (to_recruit info) ->
  submit_order env (bs, posted) info = (bs, posted)
  \/ exists b b',
       bs !! ri_building info = Some b
       /\ submit_order env (bs, posted) info
          = (<[ri_building info := b']> bs, posted ++ [info])
       /\ assignments b' = assignments b
       /\ (in_plan b ->
           in_plan b'
           /\ zsum (Dict.values (remaining_assignments b'))
              <= zsum (Dict.values (remaining_assignments b))).
Proof.
  intros Hpos. unfold submit_order.
  destruct (bs !! ri_building info) as [b|] eqn:Hb; [|left; reflexivity].
  destruct (obtain_action_code env (ri_building info) b) as [code|];
    [|left; reflexivity].
  right. destruct (post_succeeds env (ri_building info)).
  - eexists b, _. split; [reflexivity|]. split; [reflexivity|].
    split; [reflexivity|]. intros Hin. unfold in_plan in *. simpl.
    apply submit_units_within; assumption.
  - eexists b, _. split; [reflexivity|]. split; [reflexivity|].
    split; [reflexivity|]. intros Hin. split; [exact Hin|]. simpl. lia.
Qed.

Lemma submit_orders_spec (env : environment) (infos : list recruit_info) :
  Forall (fun info => Forall (fun x : Z * Z => 0 < snd x) (to_recruit info))
         infos ->
  forall (cur : list building) (posted : list recruit_info),
    let r := foldl (submit_order env) (cur, posted) infos in
    map assignments (fst r) = map assignments cur
    /\ (Forall in_plan cur ->
        Forall in_plan (fst r)
        /\ total_remaining (fst r) <= total_remaining cur)
    /\ (forall info, In info (snd r) -> In info posted \/ In info infos)
    /\ (forall info, In info posted -> In info (snd r))
    /\ (forall i,
          (forall info, In info (snd r) -> ri_building info <> i) ->
          remaining_assignments <$> fst r !! i
          = remaining_assignments <$> cur !! i).
Proof.
  induction 1 as [|info infos Hpos Hrest IH]; intros cur posted; cbv zeta;
    [simpl|cbn [foldl]].
  - split; [reflexivity|]. split; [intros Hall; split; [exact Hall|lia]|].
    split; [intros x Hx; left; exact Hx|].
    split; [intros x Hx; exact Hx|]. intros i _. reflexivity.
  - destruct (submit_order_cases env cur posted info Hpos)
      as [-> | (b & b' & Hb & -> & Ha & Hplan)].
    + destruct (IH cur posted) as (H1 & H2 & H3 & H4 & H5). cbv zeta in *.
      split; [exact H1|]. split; [exact H2|].
      split; [|split; [exact H4|exact H5]].
      intros x Hx.
      destruct (H3 x Hx) as [Hp | Hi]; [left; exact Hp|right; right; exact Hi].
    + destruct (IH (<[ri_building info := b']> cur) (posted ++ [info]))
        as (H1 & H2 & H3 & H4 & H5). cbv zeta in *.
      split; [rewrite H1; apply (insert_same_assignments cur _ b b' Hb Ha)|].
      split; [|split; [|split]].
      * intros Hall.
        assert (Hb_plan : in_plan b) by (eapply Forall_lookup_1; eassumption).
        destruct (Hplan Hb_plan) as [Hb' Hsum].
        destruct H2 as [H2a H2b]; [apply Forall_insert; assumption|].
        split; [exact H2a|].
        rewrite (total_remaining_insert cur _ b b' Hb) in H2b. lia.
      * intros x Hx.
        destruct (H3 x Hx) as [Hp | Hi]; [|right; right; exact Hi].
        apply in_app_or in Hp as [Hp | [<- | []]];
          [left; exact Hp|right; left; reflexivity].
      * intros x Hx. apply H4. apply in_or_app. left. exact Hx.
      * intros i Hi. rewrite (H5 i Hi).
        assert (Hne : ri_building info <> i).
        { apply Hi. apply H4. apply in_or_app. right. left. reflexivity. }
        rewrite list_lookup_insert_ne by exact Hne. reflexivity.
Qed.

Lemma same_work_in_plan (xs ys : list building) :
  map work xs = map work ys -> Forall in_plan ys -> Forall in_plan xs.
Proof.
  revert ys. induction xs as [|x xs IH]; intros [|y ys] H Hall; try discriminate.
  - constructor.
  - apply Forall_cons in Hall as [Hy Hys].
    assert (Hxy : work x = work y) by (simpl in H; congruence).
    assert (Hrest : map work xs = map work ys) by (simpl in H; congruence).
    constructor; [|eauto].
    unfold in_plan in *. unfold work in Hxy.
    replace (assignments x) with (assignments y) by congruence.
    replace (remaining_assignments x) with (remaining_assignments y)
      by congruence.
    exact Hy.
Qed.

Lemma same_work_total_remaining (xs ys : list building) :
  map work xs = map work ys -> total_remaining xs = total_remaining ys.
Proof.
  unfold total_remaining.
  revert ys. induction xs as [|x xs IH]; intros [|y ys] H; try discriminate.
  - reflexivity.
  - assert (Hxy : work x = work y) by (simpl in H; congruence).
    assert (Hrest : map work xs = map work ys) by (simpl in H; congruence).
    cbn [map]. rewrite !zsum_cons, (IH ys Hrest). unfold work in Hxy.
    replace (remaining_assignments x) with (remaining_assignments y)
      by congruence.
    reflexivity.
Qed.

Lemma same_work_remaining_lookup (xs ys : list building) (i : nat) :
  map work xs = map work ys ->
  remaining_assignments <$> xs !! i = remaining_assignments <$> ys !! i.
Proof.
  intros H. destruct (xs !! i) as [x|] eqn:Hx.
  - destruct (same_work_lookup xs ys i x H Hx) as (y & Hy & Hxy).
    rewrite Hy. simpl. unfold work in Hxy. congruence.
  - destruct (ys !! i) as [y|] eqn:Hy; [|reflexivity].
    symmetry in H.
    destruct (same_work_lookup ys xs i y H Hy) as (x & Hx' & _). congruence.
Qed.

Lemma same_work_assignments (xs ys : list building) :
  map work xs = map work ys -> map assignments xs = map assignments ys.
Proof.
  revert ys. induction xs as [|x xs IH]; intros [|y ys] H; try discriminate.
  - reflexivity.
  - assert (Hxy : work x = work y) by (simpl in H; congruence).
    assert (Hrest : map work xs = map work ys) by (simpl in H; congruence).
    cbn [map]. rewrite (IH ys Hrest). unfold work in Hxy. f_equal. congruence.
Qed.

(** What one cycle does to the buildings and which requests it posts. *)
Lemma run_cycle_spec (env : environment) (bs : list building) :
  match run_cycle env bs with
  | Completed => total_remaining bs <= 0
  | Continue bs' posted wait =>
      0 < total_remaining bs
      /\ map assignments bs' = map assignments bs
      /\ Forall (meets_threshold bs) posted
      /\ (forall i,
            (forall info, In info posted -> ri_building info <> i) ->
            remaining_assignments <$> bs' !! i
            = remaining_assignments <$> bs !! i)
      /\ (Forall in_plan bs ->
          Forall in_plan bs' /\ total_remaining bs' <= total_remaining bs)
  end.
Proof.
  unfold run_cycle.
  destruct (total_remaining bs <=? 0) eqn:E; [apply Z.leb_le; exact E|].
  apply Z.leb_gt in E.
  destruct (plan_cycle_invariant env bs) as [Hw Hmeet].
  set (st := plan_cycle env bs) in *.
  destruct (buildings_to_recruit st) as [|info infos] eqn:Einfos.
  - split; [exact E|]. split; [apply same_work_assignments; exact Hw|].
    split; [constructor|]. split.
    + intros i _. apply same_work_remaining_lookup. exact Hw.
    + intros Hall. split; [eapply same_work_in_plan; eassumption|].
      rewrite (same_work_total_remaining _ _ Hw). lia.
  - assert (Hpos : Forall (fun info =>
                     Forall (fun x : Z * Z => 0 < snd x) (to_recruit info))
                     (info :: infos)).
    { eapply Forall_impl; [exact Hmeet|].
      intros x Hx. eapply meets_threshold_positive. exact Hx. }
    pose proof (submit_orders_spec env (info :: infos) Hpos
                  (pl_buildings st) []) as Hsub.
    cbv zeta in Hsub.
    destruct (foldl (submit_order env) (pl_buildings st, []) (info :: infos))
      as [bs' posted].
    simpl in Hsub. destruct Hsub as (H1 & H2 & H3 & _ & H5).
    split; [exact E|].
    split; [rewrite H1; apply same_work_assignments; exact Hw|].
    split.
    { apply Forall_forall. intros x Hx. apply list_elem_of_In in Hx.
      destruct (H3 x Hx) as [[] | Hin].
      rewrite Forall_forall in Hmeet. apply Hmeet, list_elem_of_In, Hin. }
    split.
    { intros i Hi. rewrite (H5 i Hi).
      apply same_work_remaining_lookup. exact Hw. }
    intros Hall.
    destruct H2 as [H2a H2b]; [eapply same_work_in_plan; eassumption|].
    split; [exact H2a|].
    rewrite (same_work_total_remaining _ _ Hw) in H2b. exact H2b.
Qed.

Lemma plan_building_below_threshold (env : environment) (st : planning)
    (i : nat) (b : building) :
  pl_buildings st !! i = Some b ->
  snd (can_recruit (refresh_busy env i b)
         (stock_of (pl_resources st) (city_id (refresh_busy env i b))))
  < threshold_of
      (zsum (Dict.values (remaining_assignments (refresh_busy env i b)))) ->
  buildings_to_recruit (plan_building env st i) = buildings_to_recruit st
  /\ pl_resources (plan_building env st i) = pl_resources st.
Proof.
  intros Hb Hlt. unfold plan_building. rewrite Hb.
  destruct (Dict.is_empty (remaining_assignments b)); [auto|].
  destruct (is_busy (refresh_busy env i b)); [auto|].
  destruct (can_recruit (refresh_busy env i b)
              (stock_of (pl_resources st) (city_id (refresh_busy env i b))))
    as [[left can] total].
  simpl in Hlt.
  destruct (threshold_of
              (zsum (Dict.values (remaining_assignments (refresh_busy env i b))))
            <=? total) eqn:E; [apply Z.leb_le in E; lia|].
  auto.
Qed.

(** C4. In a cycle of the resumable loop a request is posted for a
    building only when the total it can afford, computed greedily over
    its remaining assignments, reaches max(1, floor(0.20 * units
    remaining in the building)); a building whose total stays below
    that threshold is passed over (nothing is recorded for it, the
    city's stock is left alone), and a building for which nothing is
    posted keeps its remaining assignments. *)
Theorem submissions_meet_threshold (env : environment)
    (bs bs' : list building) (posted : list recruit_info) (wait : Z) :
  run_cycle env bs = Continue bs' posted wait ->
  (forall info, In info posted ->
     exists b stock left,
       bs !! ri_building info = Some b
       /\ can_recruit b stock = (left, to_recruit info, ri_total info)
       /\ Z.max 1
            (Qfloor (inject_Z (zsum (Dict.values (remaining_assignments b)))
                     * (20 # 100))%Q)
          <= ri_total info)
  /\ (forall i b,
        bs !! i = Some b ->
        (forall info, In info posted -> ri_building info <> i) ->
        remaining_assignments <$> bs' !! i = Some (remaining_assignments b))
  /\ (forall (st : planning) (i : nat) (b : building),
        pl_buildings st !! i = Some b ->
        snd (can_recruit (refresh_busy env i b)
               (stock_of (pl_resources st) (city_id (refresh_busy env i b))))
        < threshold_of
            (zsum (Dict.values
                     (remaining_assignments (refresh_busy env i b)))) ->
        buildings_to_recruit (plan_building env st i)
        = buildings_to_recruit st
        /\ pl_resources (plan_building env st i) = pl_resources st).
Proof.
  intros Hrun. pose proof (run_cycle_spec env bs) as H. rewrite Hrun in H.
  destruct H as (_ & _ & Hmeet & Hkeep & _).
  split; [|split].
  - intros info Hin. rewrite Forall_forall in Hmeet.
    apply list_elem_of_In, Hmeet in Hin.
    destruct Hin as (b & stock & left & Hb & Hc & Ht & Hle).
    exists b, stock, left. split; [exact Hb|]. split; [exact Hc|].
    rewrite <- threshold_of_floor, <- Ht. exact Hle.
  - intros i b Hb Hnone. rewrite (Hkeep i Hnone), Hb. reflexivity.
  - intros st i b. apply plan_building_below_threshold.
Qed.

Lemma submissions_of_sample_cycle :
  exists bs' posted,
    run_cycle sample_environment (start_loop small_distribution)
    = Continue bs' posted 60
    /\ map (fun info => (ri_building info, to_recruit info, ri_total info))
           posted
       = [(0%nat, [(301, 60)], 60); (1%nat, [(302, 5)], 5)]
    /\ forall info, In info posted ->
         exists b stock left,
           start_loop small_distribution !! ri_building info = Some b
           /\ can_recruit b stock = (left, to_recruit info, ri_total info)
           /\ Z.max 1
                (Qfloor (inject_Z (zsum (Dict.values
                                           (remaining_assignments b)))
                         * (20 # 100))%Q)
              <= ri_total info.
Proof.
  eexists. eexists.
  assert (H : run_cycle sample_environment (start_loop small_distribution)
              = Continue _ _ 60) by (vm_compute; reflexivity).
  split; [exact H|]. split; [vm_compute; reflexivity|].
  exact (proj1 (submissions_meet_threshold _ _ _ _ _ H)).
Defined.

(** ** The remaining work over the cycles *)

Lemma in_plan_within (b : building) : in_plan b -> remaining_within_plan b.
Proof.
  intros H u q Hget. apply dict_get_In in Hget.
  unfold in_plan in H. rewrite Forall_forall in H.
  apply list_elem_of_In, H in Hget. exact Hget.
Qed.

Lemma in_plan_nonneg (b : building) :
  in_plan b -> 0 <= zsum (Dict.values (remaining_assignments b)).
Proof.
  unfold in_plan, Dict.values, zsum. intros H.
  induction H as [|e l [He _] _ IH]; simpl; lia.
Qed.

Lemma total_remaining_nonneg (bs : list building) :
  Forall in_plan bs -> 0 <= total_remaining bs.
Proof.
  unfold total_remaining. induction 1 as [|b bs Hb _ IH]; [reflexivity|].
  change (0 <= zsum (Dict.values (remaining_assignments b))
               + zsum (map (fun b => zsum (Dict.values (remaining_assignments b)))
                         bs)).
  pose proof (in_plan_nonneg b Hb). lia.
Qed.

Lemma start_loop_in_plan (distribution : list building) :
  Forall planned_positive distribution ->
  Forall in_plan (start_loop distribution).
Proof.
  intros H. unfold start_loop. rewrite Forall_fmap.
  eapply Forall_impl; [exact H|].
  intros b [Hnd Hpos]. unfold in_plan. simpl.
  apply Forall_forall. intros e He.
  rewrite Forall_forall in Hpos. split; [apply Hpos; exact He|].
  exists (snd e). split; [|lia].
  apply dict_In_get_NoDup; [exact Hnd|].
  apply list_elem_of_In in He. destruct e. exact He.
Qed.

Lemma run_cycles_in_plan (envs : list environment) (bs : list building) :
  Forall in_plan bs ->
  Forall in_plan (fst (run_cycles envs bs))
  /\ total_remaining (fst (run_cycles envs bs)) <= total_remaining bs
  /\ (snd (run_cycles envs bs) = true ->
      total_remaining (fst (run_cycles envs bs)) <= 0).
Proof.
  revert bs. induction envs as [|env envs IH]; intros bs Hall; simpl.
  - split; [exact Hall|]. split; [lia|discriminate].
  - pose proof (run_cycle_spec env bs) as H.
    destruct (run_cycle env bs) as [|bs' posted wait]; simpl.
    + split; [exact Hall|]. split; [lia|]. intros _. exact H.
    + destruct H as (_ & _ & _ & _ & Hplan).
      destruct (Hplan Hall) as [Hall' Hle].
      destruct (IH bs' Hall') as (H1 & H2 & H3).
      split; [exact H1|]. split; [lia|exact H3].
Qed.

(** C5. Throughout the resumable loop, started on a distribution of
    positive planned quantities: the remaining assignments start as a
    copy of the assignments; after any number of cycles every remaining
    entry is positive (entries that reach zero are deleted) and no
    larger than the assignment it comes from; the total remaining never
    grows from one cycle to the next; and a cycle sends the completion
    notice and ends the loop exactly when the total remaining is zero. *)
Theorem remaining_work_invariant (envs : list environment)
    (distribution : list building) :
  Forall planned_positive distribution ->
  let state := fst (execute_recruitment_loop envs distribution) in
  map remaining_assignments (start_loop distribution)
  = map assignments distribution
  /\ Forall remaining_within_plan state
  /\ 0 <= total_remaining state
  /\ total_remaining state <= total_remaining (start_loop distribution)
  /\ (snd (execute_recruitment_loop envs distribution) = true ->
      total_remaining state = 0)
  /\ forall env,
       match run_cycle env state with
       | Completed => total_remaining state = 0
       | Continue bs' _ _ =>
           0 < total_remaining state
           /\ total_remaining bs' <= total_remaining state
           /\ Forall remaining_within_plan bs'
       end.
Proof.
  intros Hpos state.
  pose proof (start_loop_in_plan distribution Hpos) as Hstart.
  destruct (run_cycles_in_plan envs (start_loop distribution) Hstart)
    as (Hin & Hle & Hdone).
  fold (execute_recruitment_loop envs distribution) in Hin, Hle, Hdone.
  fold state in Hin, Hle, Hdone.
  pose proof (total_remaining_nonneg state Hin) as Hnn.
  split.
  { unfold start_loop. rewrite map_map. reflexivity. }
  split.
  { eapply Forall_impl; [exact Hin|]. apply in_plan_within. }
  split; [exact Hnn|]. split; [exact Hle|].
  split; [intros Hd; specialize (Hdone Hd); lia|].
  intros env. pose proof (run_cycle_spec env state) as H.
  destruct (run_cycle env state) as [|bs' posted wait]; [lia|].
  destruct H as (Hgt & _ & _ & _ & Hplan).
  destruct (Hplan Hin) as [Hin' Hle'].
  split; [exact Hgt|]. split; [exact Hle'|].
  eapply Forall_impl; [exact Hin'|]. apply in_plan_within.
Qed.

Lemma remaining_work_of_sample_loop :
  Forall planned_positive small_distribution
  /\ map remaining_assignments
       (fst (execute_recruitment_loop [sample_environment; sample_environment]
               small_distribution))
     = [[(301, 40); (302, 5)]; []]
  /\ Forall remaining_within_plan
       (fst (execute_recruitment_loop [sample_environment; sample_environment]
               small_distribution))
  /\ total_remaining
       (fst (execute_recruitment_loop [sample_environment; sample_environment]
               small_distribution))
     <= total_remaining (start_loop small_distribution).
Proof.
  assert (Hpos : Forall planned_positive small_distribution).
  { apply (calculate_distribution_positive mixed_buildings small_order).
    vm_compute. reflexivity. }
  split; [exact Hpos|]. split; [vm_compute; reflexivity|].
  destruct (remaining_work_invariant
              [sample_environment; sample_environment] small_distribution Hpos)
    as (_ & Hwithin & _ & Hle & _).
  split; [exact Hwithin|exact Hle].
Defined.

(** ** format_time *)

(** X1. For a positive whole number of seconds, format_time shows at
    least one part, every part it shows is positive (a zero part is
    never shown), hours apart each part is below 60, and the parts add
    up to the number of seconds: the text loses nothing. *)
Theorem format_time_parts_exact (seconds : Z) :
  0 < seconds ->
  time_parts seconds <> []
  /\ zsum (map part_seconds (time_parts seconds)) = seconds
  /\ Forall (fun p : Z * string => 0 < fst p) (time_parts seconds)
  /\ Forall (fun p : Z * string => snd p = "h"%string \/ fst p < 60)
       (time_parts seconds)
  /\ format_time seconds
     = String.concat " " (map render_part (time_parts seconds)).
Proof.
  intros Hpos.
  assert (Hfmt : format_time seconds
                 = String.concat " " (map render_part (time_parts seconds))).
  { unfold format_time. destruct (seconds <=? 0) eqn:E; [|reflexivity].
    apply Z.leb_le in E. lia. }
  unfold time_parts in *.
  destruct (0 <? seconds / 3600) eqn:Eh;
    destruct (0 <? seconds mod 3600 / 60) eqn:Em;
    destruct (0 <? seconds mod 60) eqn:Es;
    cbn [orb app] in *;
    repeat match goal with
           | H : (_ <? _) = true |- _ => apply Z.ltb_lt in H
           | H : (_ <? _) = false |- _ => apply Z.ltb_ge in H
           end.
  all: split; [discriminate|].
  all: split; [unfold zsum, part_seconds; cbn; Z.div_mod_to_equations; lia|].
  all: split;
    [repeat (apply Forall_cons; split;
             [cbn; Z.div_mod_to_equations; lia|]); constructor|].
  all: split; [|exact Hfmt].
  all: repeat (apply Forall_cons; split;
               [cbn; first [left; reflexivity
                           |right; Z.div_mod_to_equations; lia]|]).
  all: constructor.
Qed.

Lemma format_time_parts_sample :
  0 < 3725
  /\ time_parts 3725 = [(1, "h"); (2, "m"); (5, "s")]%string
  /\ zsum (map part_seconds (time_parts 3725)) = 3725
  /\ format_time 3725 = "1h 2m 5s"%string.
Proof.
  assert (H : 0 < 3725) by lia.
  destruct (format_time_parts_exact 3725 H) as (_ & Hsum & _ & _ & _).
  split; [exact H|]. split; [vm_compute; reflexivity|].
  split; [exact Hsum|vm_compute; reflexivity].
Defined.

(** ** What the planner leaves alone *)

Lemma map_insert_same {A B : Type} (f : A -> B) (l : list A) (i : nat)
    (x y : A) :
  l !! i = Some x -> f y = f x -> map f (<[i := y]> l) = map f l.
Proof.
  revert i. induction l as [|a l IH]; intros [|i] H Hf; try discriminate.
  - simpl in H. injection H as ->. simpl. rewrite Hf. reflexivity.
  - simpl in H. simpl. rewrite (IH i H Hf). reflexivity.
Qed.

Lemma assign_fixed_part (u q : Z) (b : building) :
  fixed_part (assign u q b) = fixed_part b.
Proof. unfold assign. destruct (0 <? q); reflexivity. Qed.

Lemma assign_quantities_fixed_part (u : Z) (qtys : list Z)
    (bs : list building) :
  map fixed_part (assign_quantities u qtys bs) = map fixed_part bs.
Proof.
  revert qtys. induction bs as [|b bs IH]; intros qtys; simpl; [reflexivity|].
  destruct (capable u b).
  - destruct qtys as [|q qs]; [reflexivity|].
    simpl. rewrite assign_fixed_part, IH. reflexivity.
  - simpl. rewrite IH. reflexivity.
Qed.

Lemma initial_allocation_fixed_part (bs : list building)
    (order : recruitment_order) :
  map fixed_part (initial_allocation bs order) = map fixed_part bs.
Proof.
  unfold initial_allocation.
  assert (H : map fixed_part (map reset_building bs) = map fixed_part bs)
    by (rewrite map_map; reflexivity).
  rewrite <- H. generalize (map reset_building bs). clear H.
  induction order as [|e order IH]; intros l; simpl; [reflexivity|].
  rewrite IH. unfold distribute_unit.
  destruct (capable_buildings (fst e) l); [reflexivity|].
  apply assign_quantities_fixed_part.
Qed.

Lemma set_estimated_times_fixed_part (bs : list building) :
  map fixed_part (set_estimated_times bs) = map fixed_part bs.
Proof. unfold set_estimated_times. rewrite map_map. reflexivity. Qed.

Lemma take_units_fixed_part (u m : Z) (b : building) :
  fixed_part (take_units u m b) = fixed_part b.
Proof. unfold take_units. destruct (_ <=? _); reflexivity. Qed.

Lemma move_units_fixed_part (u q : Z) (si fi : nat) (bs : list building) :
  map fixed_part (move_units u q si fi bs) = map fixed_part bs.
Proof.
  unfold move_units.
  assert (H1 : map fixed_part
                 match bs !! si with
                 | Some slowest =>
                     <[si := take_units u (Z.min 10 (q - 1)) slowest]> bs
                 | None => bs
                 end = map fixed_part bs).
  { destruct (bs !! si) as [s|] eqn:Hs; [|reflexivity].
    apply (map_insert_same fixed_part bs si s _ Hs).
    apply take_units_fixed_part. }
  destruct (_ !! fi) as [f|] eqn:Hf; [|exact H1].
  rewrite (map_insert_same fixed_part _ fi f _ Hf); [exact H1|reflexivity].
Qed.

Lemma balance_loop_fixed_part (fuel : nat) (tolerance : Z)
    (bs : list building) (iteration : nat) :
  map fixed_part (fst (balance_loop fuel tolerance bs iteration))
  = map fixed_part bs.
Proof.
  revert bs iteration. induction fuel as [|fuel IH]; intros bs iteration.
  - reflexivity.
  - simpl.
    destruct (balance_step_cases tolerance bs)
      as [[-> _] | (v & slowest & fastest & _ & _ & _ & _ & ->)].
    + apply set_estimated_times_fixed_part.
    + rewrite IH, move_units_fixed_part.
      apply set_estimated_times_fixed_part.
Qed.

Lemma fixed_part_unit_data (xs ys : list building) :
  map fixed_part xs = map fixed_part ys -> map unit_data xs = map unit_data ys.
Proof.
  revert ys. induction xs as [|x xs IH]; intros [|y ys] H; try discriminate.
  - reflexivity.
  - assert (Hxy : fixed_part x = fixed_part y) by (simpl in H; congruence).
    assert (Hrest : map fixed_part xs = map fixed_part ys)
      by (simpl in H; congruence).
    cbn [map]. rewrite (IH ys Hrest). unfold fixed_part in Hxy.
    f_equal. congruence.
Qed.

(** X2. calculate_distribution returns nothing only for an empty list of
    buildings or an empty order.  What it returns has the buildings of
    the input, in their order, each with its city, capability map, busy
    flag, queue time and action code unchanged; and a unit type of the
    order that no building can build is dropped without a trace: no
    building holds an assignment for it. *)
Theorem planner_keeps_buildings (bs : list building)
    (order : recruitment_order) :
  (calculate_distribution bs order = None <-> bs = [] \/ order = [])
  /\ forall distribution,
       calculate_distribution bs order = Some distribution ->
       map fixed_part distribution = map fixed_part bs
       /\ forall u,
            capable_buildings u bs = [] ->
            Forall (fun b => Dict.get u (assignments b) = None) distribution.
Proof.
  split.
  - unfold calculate_distribution. destruct bs as [|b bs'].
    + split; [left; reflexivity|reflexivity].
    + destruct order as [|e order'].
      * split; [right; reflexivity|reflexivity].
      * split; [discriminate|]. intros [H | H]; discriminate.
  - intros distribution Hcalc.
    assert (Hd : distribution
                 = balance_distribution
                     (set_estimated_times (initial_allocation bs order))
                     order default_tolerance).
    { unfold calculate_distribution in Hcalc.
      destruct bs as [|b bs']; [discriminate|].
      destruct order as [|e order']; [discriminate|]. congruence. }
    assert (Hfix : map fixed_part distribution = map fixed_part bs).
    { rewrite Hd. unfold balance_distribution.
      rewrite balance_loop_fixed_part, set_estimated_times_fixed_part.
      apply initial_allocation_fixed_part. }
    split; [exact Hfix|].
    intros u Hnone.
    assert (Hresp : Forall respects_capabilities distribution).
    { rewrite Hd. unfold balance_distribution.
      apply balance_loop_respects, set_estimated_times_respects,
        initial_allocation_respects. }
    assert (Hcap : capable_buildings u distribution = []).
    { pose proof (same_unit_data_filter u _ _ (fixed_part_unit_data _ _ Hfix))
        as Hf.
      rewrite Hnone in Hf.
      destruct (capable_buildings u distribution); [reflexivity|discriminate]. }
    apply Forall_forall. intros b Hb.
    destruct (Dict.get u (assignments b)) as [q|] eqn:Eg; [|reflexivity].
    exfalso.
    rewrite Forall_forall in Hresp.
    assert (Hc : capable u b = true).
    { apply capable_is_Some. apply (Hresp b Hb). rewrite Eg. eauto. }
    assert (Hin : b ∈ capable_buildings u distribution).
    { apply list_elem_of_filter. split; assumption. }
    rewrite Hcap in Hin. inversion Hin.
Qed.

(** ** The shape of the planned assignments *)

Lemma set_key_within (keys : list Z) (u q : Z) (a : Dict.t Z) :
  In u keys ->
  (forall v, In v (Dict.keys a) -> In v keys) ->
  forall v, In v (Dict.keys (Dict.set u q a)) -> In v keys.
Proof.
  intros Hu Ha v Hv. apply dict_keys_set_In in Hv as [-> | Hv]; auto.
Qed.

Lemma del_key_within (keys : list Z) (u : Z) (a : Dict.t Z) :
  (forall v, In v (Dict.keys a) -> In v keys) ->
  forall v, In v (Dict.keys (Dict.del u a)) -> In v keys.
Proof.
  intros Ha v Hv. apply Ha. unfold Dict.keys in *.
  apply in_map_iff in Hv as (e & He & Hin).
  apply in_map_iff. exists e. split; [assumption|].
  eapply dict_del_incl. eassumption.
Qed.

Lemma assign_quantities_within (keys : list Z) (u : Z) (qtys : list Z)
    (bs : list building) :
  In u keys ->
  Forall (fun b => forall v, In v (Dict.keys (assignments b)) -> In v keys) bs ->
  Forall (fun b => forall v, In v (Dict.keys (assignments b)) -> In v keys)
    (assign_quantities u qtys bs).
Proof.
  intros Hu H. revert qtys.
  induction H as [|b bs Hb Hbs IH]; intros qtys; simpl.
  - constructor.
  - destruct (capable u b).
    + destruct qtys as [|q qs]; [constructor; assumption|].
      constructor; [|apply IH]. unfold assign.
      destruct (0 <? q); [|exact Hb].
      simpl. apply set_key_within; assumption.
    + constructor; [assumption|apply IH].
Qed.

Lemma initial_allocation_within (bs : list building)
    (order : recruitment_order) :
  Forall (fun b => forall v, In v (Dict.keys (assignments b)) ->
                             In v (Dict.keys order))
    (initial_allocation bs order).
Proof.
  unfold initial_allocation.
  assert (H : Forall (fun b => forall v, In v (Dict.keys (assignments b)) ->
                                         In v (Dict.keys order))
                (map reset_building bs)).
  { rewrite Forall_fmap. apply Forall_forall. intros b _ v []. }
  assert (Hsub : forall e, In e order -> In (fst e) (Dict.keys order)).
  { intros e He. unfold Dict.keys. apply in_map. exact He. }
  revert H Hsub. generalize (Dict.keys order) as keys.
  generalize (map reset_building bs).
  induction order as [|e order IH]; intros l keys H Hsub; simpl; [assumption|].
  apply IH; [|intros e' He'; apply Hsub; right; exact He'].
  unfold distribute_unit.
  destruct (capable_buildings (fst e) l); [assumption|].
  apply assign_quantities_within; [apply Hsub; left; reflexivity|assumption].
Qed.

Lemma move_units_within (keys : list Z) (u q : Z) (si fi : nat)
    (bs : list building) (slowest : building) :
  bs !! si = Some slowest ->
  In u (Dict.keys (assignments slowest)) ->
  Forall (fun b => forall v, In v (Dict.keys (assignments b)) -> In v keys) bs ->
  Forall (fun b => forall v, In v (Dict.keys (assignments b)) -> In v keys)
    (move_units u q si fi bs).
Proof.
  intros Hs Hin Hall. unfold move_units. rewrite Hs.
  assert (Hks : forall v, In v (Dict.keys (assignments slowest)) -> In v keys).
  { apply (Forall_lookup_1 _ _ _ _ Hall Hs). }
  assert (H1 : Forall (fun b => forall v, In v (Dict.keys (assignments b)) ->
                                          In v keys)
                 (<[si := take_units u (Z.min 10 (q - 1)) slowest]> bs)).
  { apply Forall_insert; [assumption|].
    unfold take_units. destruct (_ <=? _); simpl.
    - apply del_key_within. exact Hks.
    - apply set_key_within; [apply Hks; exact Hin|exact Hks]. }
  destruct (_ !! fi) as [f'|] eqn:E; [|assumption].
  apply Forall_insert; [assumption|].
  unfold give_units. simpl. apply set_key_within; [apply Hks; exact Hin|].
  apply (Forall_lookup_1 _ _ _ _ H1 E).
Qed.

Lemma balance_loop_within (keys : list Z) (fuel : nat) (tolerance : Z)
    (bs : list building) (iteration : nat) :
  Forall (fun b => forall v, In v (Dict.keys (assignments b)) -> In v keys) bs ->
  Forall (fun b => forall v, In v (Dict.keys (assignments b)) -> In v keys)
    (fst (balance_loop fuel tolerance bs iteration)).
Proof.
  revert bs iteration. induction fuel as [|fuel IH]; intros bs iteration H.
  - assumption.
  - simpl.
    assert (He : Forall (fun b => forall v, In v (Dict.keys (assignments b)) ->
                                            In v keys)
                   (set_estimated_times bs)).
    { unfold set_estimated_times. rewrite Forall_fmap.
      eapply Forall_impl; [exact H|]. intros b Hb. exact Hb. }
    destruct (balance_step_cases tolerance bs)
      as [[-> _] | (v & slowest & fastest & Hs & Hf & Hfind & _ & ->)].
    + exact He.
    + apply IH. apply find_movable_Some in Hfind as (Hin & _ & _).
      eapply move_units_within; eassumption.
Qed.

(** X3. In the distribution that calculate_distribution returns, the
    assignments of every building form a dict (no unit type twice) of
    strictly positive quantities, and only unit types of the order are
    assigned: no entry of 0 is ever stored and the balancer introduces
    no unit type of its own. *)
Theorem distribution_well_formed (bs : list building)
    (order : recruitment_order) (distribution : list building) :
  calculate_distribution bs order = Some distribution ->
  Forall (fun b =>
            NoDup (Dict.keys (assignments b))
            /\ Forall (fun e : Z * Z => 1 <= snd e) (assignments b)
            /\ forall u, In u (Dict.keys (assignments b)) ->
                         In u (Dict.keys order))
         distribution.
Proof.
  intros Hcalc.
  pose proof (calculate_distribution_positive bs order distribution Hcalc)
    as Hpos.
  assert (Hd : distribution
               = balance_distribution
                   (set_estimated_times (initial_allocation bs order))
                   order default_tolerance).
  { unfold calculate_distribution in Hcalc.
    destruct bs as [|b bs']; [discriminate|].
    destruct order as [|e order']; [discriminate|]. congruence. }
  assert (Hin : Forall (fun b => forall v, In v (Dict.keys (assignments b)) ->
                                           In v (Dict.keys order))
                  distribution).
  { rewrite Hd. unfold balance_distribution. apply balance_loop_within.
    unfold set_estimated_times. rewrite Forall_fmap.
    eapply Forall_impl; [apply initial_allocation_within|].
    intros b Hb. exact Hb. }
  rewrite Forall_forall in Hpos, Hin. apply Forall_forall. intros b Hb.
  destruct (Hpos b Hb) as [Hnd Hq].
  split; [exact Hnd|]. split; [|exact (Hin b Hb)].
  eapply Forall_impl; [exact Hq|]. intros e He. simpl in He. lia.
Qed.

Lemma distribution_well_formed_small :
  calculate_distribution mixed_buildings small_order = Some small_distribution
  /\ Forall (fun b =>
               NoDup (Dict.keys (assignments b))
               /\ Forall (fun e : Z * Z => 1 <= snd e) (assignments b)
               /\ forall u, In u (Dict.keys (assignments b)) ->
                            In u (Dict.keys small_order))
            small_distribution.
Proof.
  assert (H : calculate_distribution mixed_buildings small_order
              = Some small_distribution) by (vm_compute; reflexivity).
  split; [exact H|].
  exact (distribution_well_formed mixed_buildings small_order
           small_distribution H).
Defined.

(** ** Running the balancer on its own result *)

Lemma set_estimated_times_idempotent (bs : list building) :
  set_estimated_times (set_estimated_times bs) = set_estimated_times bs.
Proof. unfold set_estimated_times. rewrite map_map. reflexivity. Qed.

Lemma balance_step_estimated (tolerance : Z) (bs : list building) :
  balance_step tolerance (set_estimated_times bs) = balance_step tolerance bs.
Proof.
  unfold balance_step. rewrite set_estimated_times_idempotent. reflexivity.
Qed.

(** The loop leaves early only through an iteration that stops. *)
Lemma balance_loop_early (fuel : nat) (tolerance : Z) (bs : list building)
    (iteration : nat) :
  (snd (balance_loop fuel tolerance bs iteration) < iteration + fuel)%nat ->
  exists x,
    fst (balance_loop fuel tolerance bs iteration) = set_estimated_times x
    /\ balance_step tolerance x = Stopped (set_estimated_times x).
Proof.
  revert bs iteration. induction fuel as [|fuel IH]; intros bs iteration.
  - simpl. lia.
  - simpl.
    destruct (balance_step_cases tolerance bs)
      as [[Hstop _] | (v & slowest & fastest & _ & _ & _ & _ & Hmoved)].
    + rewrite Hstop. simpl. intros _. exists bs. split; [reflexivity|exact Hstop].
    + rewrite Hmoved. intros Hlt. apply IH. lia.
Qed.

(** X4. When the balancer returns before its 100th iteration, the
    estimated_time stored in every building is the completion time of
    what the building is finally assigned, and the result is a fixed
    point: balancing it again returns it unchanged. *)
Theorem balance_distribution_fixed_point (bs : list building)
    (order : recruitment_order) (tolerance : Z) :
  (snd (balance_loop max_iterations tolerance bs 0) < max_iterations)%nat ->
  let result := balance_distribution bs order tolerance in
  Forall (fun b => estimated_time b = completion_time b) result
  /\ balance_distribution result order tolerance = result.
Proof.
  intros Hearly result.
  destruct (balance_loop_early max_iterations tolerance bs 0 Hearly)
    as (x & Hx & Hstop).
  assert (Hr : result = set_estimated_times x) by exact Hx.
  split.
  - rewrite Hr. unfold set_estimated_times. rewrite Forall_fmap.
    apply Forall_forall. intros b _. reflexivity.
  - rewrite Hr. unfold balance_distribution.
    change max_iterations with (S 99). cbn [balance_loop].
    rewrite balance_step_estimated, Hstop. reflexivity.
Qed.

Lemma balance_fixed_point_small_plan :
  (snd (balance_loop max_iterations default_tolerance small_plan 0)
   < max_iterations)%nat
  /\ balance_distribution
       (balance_distribution small_plan small_order default_tolerance)
       small_order default_tolerance
     = balance_distribution small_plan small_order default_tolerance.
Proof.
  assert (H : (snd (balance_loop max_iterations default_tolerance small_plan 0)
               < max_iterations)%nat) by (vm_compute; lia).
  split; [exact H|].
  exact (proj2 (balance_distribution_fixed_point small_plan small_order
                  default_tolerance H)).
Defined.

(** ** From the operator's answers to the plan *)

Lemma planned_total (bs : list building) (order : recruitment_order)
    (u total : Z) :
  NoDup (Dict.keys order) ->
  In (u, total) order ->
  0 <= total ->
  capable_buildings u bs <> [] ->
  total_assigned u
    (balance_distribution (set_estimated_times (initial_allocation bs order))
       order default_tolerance)
  = total.
Proof.
  intros Hnd Hin Ht Hcap. unfold balance_distribution.
  rewrite balance_loop_total, set_estimated_times_total.
  destruct (initial_allocation_quantities bs order u total Hnd Hin Ht Hcap)
    as [_ Hsum].
  rewrite Hsum. apply unit_quantities_sum;
    [apply speed_factors_pos|apply capable_speeds_nonempty; assumption].
Qed.

Lemma existsb_capable (u : Z) (bs : list building) :
  existsb (capable u) bs = true -> capable_buildings u bs <> [].
Proof.
  intros H. apply existsb_exists in H as (b & Hb & Hc).
  assert (Hin : b ∈ capable_buildings u bs).
  { apply list_elem_of_filter. split; [exact Hc|].
    apply list_elem_of_In. exact Hb. }
  intros E. rewrite E in Hin. inversion Hin.
Qed.

Lemma ask_unit_invariant (bs : list building) (read : Z -> answer)
    (units : list (string * Z)) (asked : list Z)
    (order : recruitment_order) (shown : nat) :
  NoDup (Dict.keys order) ->
  Forall (entry_ok bs read) order ->
  (forall u, In u (Dict.keys order) -> In u asked) ->
  forall order' shown',
    foldl (ask_unit bs read) (Some (order, shown)) units
    = Some (order', shown') ->
    NoDup (Dict.keys order')
    /\ Forall (entry_ok bs read) order'
    /\ (forall u, In u (Dict.keys order') -> In u (asked ++ map snd units)).
Proof.
  revert asked order shown.
  induction units as [|unit units IH]; intros asked order shown Hnd Hok Hin
    order' shown' Hfold.
  - simpl in Hfold. injection Hfold as <- <-.
    split; [exact Hnd|]. split; [exact Hok|].
    intros u Hu. apply in_or_app. left. auto.
  - cbn [foldl] in Hfold.
    assert (Hgoal :
      forall o s,
        ask_unit bs read (Some (order, shown)) unit = Some (o, s) ->
        NoDup (Dict.keys o) /\ Forall (entry_ok bs read) o
        /\ (forall u, In u (Dict.keys o) -> In u (asked ++ [snd unit]))).
    { intros o s Hask. unfold ask_unit in Hask.
      assert (Hkeep : NoDup (Dict.keys order)
                /\ Forall (entry_ok bs read) order
                /\ (forall u, In u (Dict.keys order) ->
                              In u (asked ++ [snd unit]))).
      { split; [exact Hnd|]. split; [exact Hok|].
        intros u Hu. apply in_or_app. left. auto. }
      destruct (existsb (capable (snd unit)) bs) eqn:Ecap;
        [|injection Hask as <- <-; exact Hkeep].
      destruct (read (snd unit)) as [| |n] eqn:Eread;
        [discriminate|injection Hask as <- <-; exact Hkeep|].
      destruct (0 <? n) eqn:En; [|injection Hask as <- <-; exact Hkeep].
      injection Hask as <- <-. apply Z.ltb_lt in En.
      split; [apply dict_keys_set_NoDup; exact Hnd|]. split.
      - apply Forall_forall. intros e He. apply list_elem_of_In in He.
        apply dict_set_In in He as [-> | He].
        + split; [exact En|]. split; [apply existsb_capable; exact Ecap|].
          exact Eread.
        + rewrite Forall_forall in Hok. apply Hok, list_elem_of_In, He.
      - intros u Hu. apply dict_keys_set_In in Hu as [-> | Hu];
          apply in_or_app; [right; left; reflexivity|left; auto]. }
    destruct (ask_unit bs read (Some (order, shown)) unit) as [[o s]|] eqn:Ea.
    + destruct (Hgoal o s eq_refl) as (H1 & H2 & H3).
      destruct (IH (asked ++ [snd unit]) o s H1 H2 H3 order' shown' Hfold)
        as (H4 & H5 & H6).
      split; [exact H4|]. split; [exact H5|].
      intros u Hu. specialize (H6 u Hu).
      rewrite <- app_assoc in H6. exact H6.
    + exfalso. clear - Hfold.
      induction units as [|x units IHu]; simpl in Hfold;
        [discriminate|auto].
Qed.

(** X5. Whatever the operator answers, an order that comes out of the
    quantity prompts is a non-empty dict in which every unit type is one
    of the list shown, has at least one building that can build it, and
    carries the strictly positive number the operator typed for it; so
    the planner accepts it, and for every unit type of the order the
    planned assignments add up to the number typed. *)
Theorem operator_order_is_planned (unit_list : list (string * Z))
    (bs : list building) (read : Z -> answer) (order : recruitment_order) :
  ask_order unit_list bs read = Ordered order ->
  order <> []
  /\ NoDup (Dict.keys order)
  /\ Forall (fun e : Z * Z =>
               0 < snd e
               /\ capable_buildings (fst e) bs <> []
               /\ read (fst e) = Number (snd e)
               /\ In (fst e) (map snd unit_list))
            order
  /\ exists distribution,
       calculate_distribution bs order = Some distribution
       /\ forall u q, In (u, q) order -> total_assigned u distribution = q.
Proof.
  intros Hask. unfold ask_order in Hask.
  destruct (foldl (ask_unit bs read) (Some ([], O)) unit_list)
    as [[o shown]|] eqn:Efold; [|discriminate].
  destruct shown as [|shown]; [discriminate|].
  destruct o as [|e o]; [discriminate|].
  injection Hask as <-.
  destruct (ask_unit_invariant bs read unit_list [] [] O) with
    (order' := e :: o) (shown' := S shown) as (Hnd & Hok & Hin).
  { constructor. } { constructor. } { intros u []. } { exact Efold. }
  split; [discriminate|]. split; [exact Hnd|]. split.
  - apply Forall_forall. intros x Hx.
    rewrite Forall_forall in Hok. destruct (Hok x Hx) as (H1 & H2 & H3).
    split; [exact H1|]. split; [exact H2|]. split; [exact H3|].
    apply (Hin (fst x)). unfold Dict.keys. apply in_map.
    apply list_elem_of_In. exact Hx.
  - exists (balance_distribution
              (set_estimated_times (initial_allocation bs (e :: o)))
              (e :: o) default_tolerance).
    split.
    + unfold calculate_distribution. destruct bs as [|b bs'].
      * exfalso. apply Forall_cons in Hok as [(_ & Hc & _) _].
        apply Hc. reflexivity.
      * reflexivity.
    + intros u q Huq. rewrite Forall_forall in Hok.
      destruct (Hok (u, q)) as (Hq & Hc & _);
        [apply list_elem_of_In; exact Huq|].
      simpl in Hq, Hc. apply planned_total; [exact Hnd|exact Huq|lia|exact Hc].
Qed.

Lemma operator_order_hundred_each :
  ask_order UNITS_ORDER mixed_buildings hundred_each
  = Ordered [(302, 100); (301, 100)]
  /\ exists distribution,
       calculate_distribution mixed_buildings [(302, 100); (301, 100)]
       = Some distribution
       /\ total_assigned 301 distribution = 100
       /\ total_assigned 302 distribution = 100.
Proof.
  assert (H : ask_order UNITS_ORDER mixed_buildings hundred_each
              = Ordered [(302, 100); (301, 100)]) by (vm_compute; reflexivity).
  split; [exact H|].
  destruct (operator_order_is_planned UNITS_ORDER mixed_buildings hundred_each
              _ H) as (_ & _ & _ & d & Hd & Hsum).
  exists d. split; [exact Hd|]. split; apply Hsum.
  - right. left. reflexivity.
  - left. reflexivity.
Defined.

(** ** check_resources *)

Lemma is_field_add_cost (field : amounts -> Z) (req c : amounts) (q : Z) :
  is_field field -> field (add_cost req c q) = field req + field c * q.
Proof. intros [-> | [-> | [-> | [-> | [-> | ->]]]]]; reflexivity. Qed.

Lemma is_field_no_stock (field : amounts -> Z) :
  is_field field -> field no_stock = 0.
Proof. intros [-> | [-> | [-> | [-> | [-> | ->]]]]]; reflexivity. Qed.

Lemma foldl_require_unit (field : amounts -> Z) (b : building)
    (l : Dict.t Z) (req : amounts) :
  is_field field ->
  field (foldl (require_unit b) req l)
  = field req
    + foldl (fun acc (e : Z * Z) =>
               match unit_data b !! fst e with
               | Some d => acc + field (costs d) * snd e
               | None => acc
               end) 0 l.
Proof.
  intros Hf.
  assert (H : forall (l : Dict.t Z) (req : amounts) (x : Z),
             field (foldl (require_unit b) req l)
             = field req - x
               + foldl (fun acc (e : Z * Z) =>
                          match unit_data b !! fst e with
                          | Some d => acc + field (costs d) * snd e
                          | None => acc
                          end) x l).
  { clear l req. intros l. induction l as [|e l IH]; intros req x; simpl.
    - lia.
    - unfold require_unit at 2. destruct (unit_data b !! e.1) as [d|].
      + rewrite (IH _ (x + field (costs d) * e.2)).
        rewrite is_field_add_cost by exact Hf. lia.
      + apply IH. }
  rewrite (H l req 0). lia.
Qed.

Lemma city_requirements_keys (bs : list building) :
  NoDup (Dict.keys (city_requirements bs)).
Proof.
  unfold city_requirements.
  assert (H : NoDup (Dict.keys (@nil (Z * amounts)))) by constructor.
  revert H. generalize (@nil (Z * amounts)).
  induction bs as [|b bs IH]; intros l H; simpl; [exact H|].
  apply IH. unfold require_building. apply dict_keys_set_NoDup. exact H.
Qed.

(** The first loop: one entry per city, holding what its buildings need. *)
Lemma city_requirements_need (bs : list building) :
  (forall b, In b bs -> is_Some (Dict.get (city_id b) (city_requirements bs)))
  /\ (forall c req,
        Dict.get c (city_requirements bs) = Some req ->
        (exists b, In b bs /\ city_id b = c)
        /\ forall field, is_field field ->
                         field req = city_need field c bs).
Proof.
  unfold city_requirements, city_need.
  induction bs as [|b bs IH] using rev_ind.
  - simpl. split; [tauto|discriminate].
  - rewrite foldl_app. simpl.
    set (reqs := foldl require_building [] bs) in *.
    destruct IH as [IHp IHb]. unfold require_building.
    set (req0 := default no_stock (Dict.get (city_id b) reqs)).
    split.
    + intros b' Hin. apply in_app_or in Hin as [Hin | [<- | []]].
      * destruct (Z.eq_dec (city_id b) (city_id b')) as [E | E].
        -- rewrite <- E, dict_get_set_eq. eauto.
        -- rewrite dict_get_set_ne by exact E. apply IHp. exact Hin.
      * rewrite dict_get_set_eq. eauto.
    + intros c req Hget.
      destruct (Z.eqb (city_id b) c) eqn:E.
      * apply Z.eqb_eq in E. subst c. rewrite dict_get_set_eq in Hget.
        injection Hget as <-. split.
        { exists b. split; [apply in_or_app; right; left|]; reflexivity. }
        intros field Hf.
        rewrite buildings_of_city_snoc, Z.eqb_refl, map_app, zsum_app.
        rewrite foldl_require_unit by exact Hf.
        assert (H0 : field req0
                     = zsum (map (building_need field)
                               (buildings_of_city (city_id b) bs))).
        { unfold req0.
          destruct (Dict.get (city_id b) reqs) as [r0|] eqn:Eg; simpl.
          - apply (IHb _ _ Eg). exact Hf.
          - rewrite is_field_no_stock by exact Hf.
            unfold buildings_of_city. rewrite filter_none; [reflexivity|].
            intros x Hx Hc. destruct (IHp x Hx) as [y Hy].
            rewrite Hc, Eg in Hy. discriminate. }
        rewrite H0.
        change (zsum (map (building_need field) [b]))
          with (building_need field b + 0).
        assert (Hb : building_need field b
                     = foldl (fun acc (e : Z * Z) =>
                                match unit_data b !! fst e with
                                | Some d => acc + field (costs d) * snd e
                                | None => acc
                                end) 0 (assignments b)) by reflexivity.
        rewrite Hb. lia.
      * apply Z.eqb_neq in E. rewrite dict_get_set_ne in Hget by exact E.
        destruct (IHb c req Hget) as [(x & Hx & Hc) Hneed]. split.
        { exists x. split; [apply in_or_app; left; exact Hx|exact Hc]. }
        intros field Hf. rewrite (Hneed field Hf).
        rewrite buildings_of_city_snoc, map_app, zsum_app.
        apply Z.eqb_neq in E. rewrite E.
        change (zsum (map (building_need field) [])) with 0. lia.
Qed.

Lemma dict_get_snoc {V : Type} (k : Z) (d : Dict.t V) (e : Z * V) :
  Dict.get k (d ++ [e])
  = match Dict.get k d with
    | Some v => Some v
    | None => if Z.eqb (fst e) k then Some (snd e) else None
    end.
Proof.
  induction d as [|[k0 v0] d IH]; simpl.
  - destruct e as [k1 v1]. simpl. reflexivity.
  - destruct (Z.eqb k0 k); [reflexivity|exact IH].
Qed.

Lemma dict_get_None_keys {V : Type} (k : Z) (d : Dict.t V) :
  ~ In k (Dict.keys d) -> Dict.get k d = None.
Proof.
  intros H. destruct (Dict.get k d) eqn:E; [|reflexivity].
  exfalso. apply H. apply dict_get_is_Some_keys. rewrite E. eauto.
Qed.

Lemma dict_set_not_nil {V : Type} (k : Z) (v : V) (d : Dict.t V) :
  Dict.set k v d <> [].
Proof.
  destruct d as [|[k0 v0] d]; simpl; [discriminate|].
  destruct (Z.eqb k0 k); discriminate.
Qed.

(** The second loop, over a dict of requirements. *)
Lemma check_cities_report (env : environment) (reqs : Dict.t amounts) :
  NoDup (Dict.keys reqs) ->
  let r := foldl (check_city env) (ResourceCheck true [] [] []) reqs in
  (forall c,
     Dict.get c (available r)
     = (fun _ => city_snapshot env c) <$> Dict.get c reqs)
  /\ (forall c,
        Dict.get c (missing_citizens r)
        = Dict.get c reqs ≫= citizens_short env c)
  /\ (forall c,
        Dict.get c (missing_resources r)
        = Dict.get c reqs ≫= resources_short env c)
  /\ (can_fulfill r = true
      <-> missing_resources r = [] /\ missing_citizens r = []).
Proof.
  induction reqs as [|e reqs IH] using rev_ind; intros Hnd r.
  - simpl. repeat split; auto.
  - unfold r. rewrite foldl_app. cbn [foldl].
    unfold Dict.keys in Hnd. rewrite map_app in Hnd.
    apply NoDup_app in Hnd as (Hnd & Hdisj & _).
    assert (Hfresh : Dict.get (fst e) reqs = None).
    { apply dict_get_None_keys. intros Hk.
      apply (Hdisj (fst e)); [apply list_elem_of_In; exact Hk|].
      simpl. left. }
    specialize (IH Hnd). cbv zeta in IH.
    set (r0 := foldl (check_city env) (ResourceCheck true [] [] []) reqs) in *.
    destruct IH as (Ha & Hc & Hm & Hcan).
    unfold check_city. cbn [available missing_citizens missing_resources
                             can_fulfill].
    split; [|split; [|split]].
    + intros c. rewrite dict_get_snoc.
      destruct (Z.eq_dec (fst e) c) as [<- | Hne].
      * rewrite dict_get_set_eq, Hfresh, Z.eqb_refl. reflexivity.
      * rewrite dict_get_set_ne by exact Hne. rewrite Ha.
        apply Z.eqb_neq in Hne. rewrite Hne.
        destruct (Dict.get c reqs); reflexivity.
    + intros c. rewrite dict_get_snoc.
      destruct (Z.eq_dec (fst e) c) as [<- | Hne].
      * rewrite Hfresh, Z.eqb_refl. simpl. unfold citizens_short.
        destruct (citizens (city_snapshot env e.1) <? citizens e.2).
        -- apply dict_get_set_eq.
        -- rewrite Hc, Hfresh. reflexivity.
      * assert (Hrest : Dict.get c
                  (if citizens (city_snapshot env e.1) <? citizens e.2
                   then Dict.set e.1
                          (citizens e.2 - citizens (city_snapshot env e.1))
                          (missing_citizens r0)
                   else missing_citizens r0)
                = Dict.get c (missing_citizens r0)).
        { destruct (_ <? _); [|reflexivity].
          apply dict_get_set_ne. exact Hne. }
        rewrite Hrest, Hc. apply Z.eqb_neq in Hne. rewrite Hne.
        destruct (Dict.get c reqs); reflexivity.
    + intros c. rewrite dict_get_snoc.
      destruct (Z.eq_dec (fst e) c) as [<- | Hne].
      * rewrite Hfresh, Z.eqb_refl. simpl. unfold resources_short.
        destruct (missing_of e.2 (city_snapshot env e.1)) as [|x l].
        -- rewrite Hm, Hfresh. reflexivity.
        -- apply dict_get_set_eq.
      * assert (Hrest : Dict.get c
                  match missing_of e.2 (city_snapshot env e.1) with
                  | [] => missing_resources r0
                  | _ :: _ =>
                      Dict.set e.1 (missing_of e.2 (city_snapshot env e.1))
                        (missing_resources r0)
                  end
                = Dict.get c (missing_resources r0)).
        { destruct (missing_of _ _); [reflexivity|].
          apply dict_get_set_ne. exact Hne. }
        rewrite Hrest, Hm. apply Z.eqb_neq in Hne. rewrite Hne.
        destruct (Dict.get c reqs); reflexivity.
    + destruct (citizens (city_snapshot env e.1) <? citizens e.2).
      * split; [discriminate|]. intros [_ H].
        exfalso. exact (dict_set_not_nil _ _ _ H).
      * destruct (missing_of e.2 (city_snapshot env e.1)) as [|x l].
        -- exact Hcan.
        -- split; [discriminate|]. intros [H _].
           exfalso. exact (dict_set_not_nil _ _ _ H).
Qed.




(** ** The shortage report and the time estimate *)

Lemma foldl_add_unit_citizens (b : building) (l : Dict.t Z)
    (est : city_estimate) :
  citizens_needed (foldl (add_unit b) est l)
  = citizens_needed est
    + foldl (fun acc (e : Z * Z) =>
               match unit_data b !! fst e with
               | Some d => acc + citizens (costs d) * snd e
               | None => acc
               end) 0 l
  /\ citizens_available (foldl (add_unit b) est l) = citizens_available est
  /\ growth_rate (foldl (add_unit b) est l) = growth_rate est.
Proof.
  assert (H : forall (l : Dict.t Z) (est : city_estimate) (x : Z),
             citizens_needed (foldl (add_unit b) est l)
             = citizens_needed est - x
               + foldl (fun acc (e : Z * Z) =>
                          match unit_data b !! fst e with
                          | Some d => acc + citizens (costs d) * snd e
                          | None => acc
                          end) x l
             /\ citizens_available (foldl (add_unit b) est l)
                = citizens_available est
             /\ growth_rate (foldl (add_unit b) est l) = growth_rate est).
  { clear l est. intros l. induction l as [|e l IH]; intros est x; simpl.
    - split; [lia|]. split; reflexivity.
    - unfold add_unit at 2 4 6. destruct (unit_data b !! e.1) as [d|].
      + destruct (IH {| citizens_needed :=
                          citizens_needed est + citizens (costs d) * e.2;
                        citizens_available := citizens_available est;
                        growth_rate := growth_rate est;
                        citizen_wait_seconds := citizen_wait_seconds est;
                        build_time_seconds :=
                          build_time_seconds est + time_seconds d * e.2;
                        total_time_seconds := total_time_seconds est |}
                     (x + citizens (costs d) * e.2)) as (H1 & H2 & H3).
        split; [rewrite H1; simpl; lia|]. split; assumption.
      + apply IH. }
  destruct (H l est 0) as (H1 & H2 & H3).
  split; [|split; assumption].
  rewrite H1. lia.
Qed.

Lemma add_order_overhead_citizens (b : building) (est : city_estimate) :
  citizens_needed (add_order_overhead b est) = citizens_needed est
  /\ citizens_available (add_order_overhead b est) = citizens_available est
  /\ growth_rate (add_order_overhead b est) = growth_rate est.
Proof.
  unfold add_order_overhead. destruct (Dict.is_empty _); simpl; auto.
Qed.

(** After the first loop of the estimator, the entry of a city holds the
    citizens its buildings need, and the stock and the growth rate that
    were looked up when the city was first seen. *)
Lemma cities_citizens (city_resources : gmap Z amounts)
    (city_growth_rates : gmap Z Q) (bs : list building) :
  let cities :=
    foldl (add_building city_resources city_growth_rates) [] bs in
  (forall b, In b bs -> is_Some (Dict.get (city_id b) cities))
  /\ (forall c est, Dict.get c cities = Some est ->
        citizens_needed est = city_need citizens c bs
        /\ citizens_available est
           = citizens_available
               (new_city_estimate city_resources city_growth_rates c)
        /\ growth_rate est = default 0%Q (city_growth_rates !! c)).
Proof.
  induction bs as [|b bs IH] using rev_ind.
  - simpl. split; [tauto|discriminate].
  - rewrite foldl_app. simpl.
    set (cities := foldl (add_building city_resources city_growth_rates) [] bs)
      in *.
    simpl in IH. destruct IH as [IHp IHb].
    unfold add_building. fold cities.
    set (est0 := match Dict.get (city_id b) cities with
                 | Some est => est
                 | None => new_city_estimate city_resources city_growth_rates
                             (city_id b)
                 end).
    split.
    + intros b' Hin. apply in_app_or in Hin as [Hin | [<- | []]].
      * destruct (Z.eq_dec (city_id b) (city_id b')) as [E | E].
        -- rewrite <- E, dict_get_set_eq. eauto.
        -- rewrite dict_get_set_ne by exact E. apply IHp. exact Hin.
      * rewrite dict_get_set_eq. eauto.
    + intros c est Hget. unfold city_need.
      rewrite buildings_of_city_snoc, map_app, zsum_app.
      destruct (Z.eqb (city_id b) c) eqn:E.
      * apply Z.eqb_eq in E. subst c. rewrite dict_get_set_eq in Hget.
        injection Hget as <-.
        destruct (add_order_overhead_citizens b
                    (foldl (add_unit b) est0 (assignments b)))
          as (-> & -> & ->).
        destruct (foldl_add_unit_citizens b (assignments b) est0)
          as (-> & -> & ->).
        assert (H0 : citizens_needed est0
                     = city_need citizens (city_id b) bs
                     /\ citizens_available est0
                        = citizens_available
                            (new_city_estimate city_resources
                               city_growth_rates (city_id b))
                     /\ growth_rate est0
                        = default 0%Q (city_growth_rates !! city_id b)).
        { unfold est0.
          destruct (Dict.get (city_id b) cities) as [e0|] eqn:Eg.
          - apply IHb. exact Eg.
          - split; [|split; reflexivity].
            unfold city_need, buildings_of_city.
            rewrite filter_none; [reflexivity|].
            intros x Hx Hc. destruct (IHp x Hx) as [y Hy].
            rewrite Hc, Eg in Hy. discriminate. }
        destruct H0 as (H1 & H2 & H3).
        split; [|split; assumption].
        rewrite H1. unfold city_need.
        change (zsum (map (building_need citizens) [b]))
          with (building_need citizens b + 0).
        assert (Hb : building_need citizens b
                     = foldl (fun acc (e : Z * Z) =>
                                match unit_data b !! fst e with
                                | Some d => acc + citizens (costs d) * snd e
                                | None => acc
                                end) 0 (assignments b))
          by reflexivity.
        rewrite Hb. lia.
      * apply Z.eqb_neq in E. rewrite dict_get_set_ne in Hget by exact E.
        destruct (IHb c est Hget) as (H1 & H2 & H3).
        split; [|split; assumption].
        rewrite H1. unfold city_need.
        change (zsum (map (building_need citizens) [])) with 0. lia.
Qed.

(** The stock handed to the estimator for the city of a building is the
    one the report keeps. *)
Lemma resources_for_estimate_lookup (check : resource_check)
    (distribution : list building) (c : Z) :
  resources_for_estimate check distribution !! c
  = (if existsb (fun b => Z.eqb (city_id b) c) distribution
     then Dict.get c (available check) else None).
Proof.
  unfold resources_for_estimate.
  induction distribution as [|b bs IH] using rev_ind.
  - simpl. apply lookup_empty.
  - rewrite foldl_app, existsb_app. simpl. rewrite orb_false_r.
    destruct (Z.eqb (city_id b) c) eqn:E.
    + apply Z.eqb_eq in E. subst c. rewrite orb_true_r.
      destruct (Dict.get (city_id b) (available check)) as [s|] eqn:Eg.
      * apply lookup_insert_eq.
      * rewrite IH. destruct (existsb _ bs); reflexivity.
    + apply Z.eqb_neq in E. rewrite orb_false_r.
      destruct (Dict.get (city_id b) (available check)) as [s|].
      * rewrite lookup_insert_ne by exact E. exact IH.
      * exact IH.
Qed.

(** The snapshot and the missing citizens of the city of a building. *)
Lemma report_of_city (env : environment) (distribution : list building)
    (b : building) :
  In b distribution ->
  Dict.get (city_id b) (available (check_resources env distribution))
  = Some (city_snapshot env (city_id b))
  /\ Dict.get (city_id b)
       (missing_citizens (check_resources env distribution))
     = (if citizens (city_snapshot env (city_id b))
           <? city_need citizens (city_id b) distribution
        then Some (city_need citizens (city_id b) distribution
                   - citizens (city_snapshot env (city_id b)))
        else None).
Proof.
  intros Hin.
  destruct (city_requirements_need distribution) as [Hp Hneed].
  destruct (Hp b Hin) as [req Hreq].
  destruct (Hneed _ req Hreq) as [_ Hfields].
  destruct (check_cities_report env (city_requirements distribution)
              (city_requirements_keys distribution))
    as (Ha & Hc & _).
  fold (check_resources env distribution) in Ha, Hc.
  split; [rewrite Ha, Hreq; reflexivity|].
  rewrite Hc, Hreq. simpl. unfold citizens_short.
  rewrite (Hfields citizens) by (left; reflexivity). reflexivity.
Qed.

(** X7. The plan shown to the operator is consistent: for the city of
    any building of the distribution, the time estimate computed from
    the report of check_resources counts as available the citizens of
    the city's snapshot and as needed what the city's buildings need;
    the wait for citizens is zero exactly when the report names no
    missing citizens for the city, and otherwise it is the reported
    number of missing citizens divided by the hourly growth rate, times
    3600 seconds, or unknown when the rate is not positive. *)
Theorem estimate_agrees_with_report (env : environment)
    (distribution : list building) (city_growth_rates : gmap Z Q)
    (b : building) :
  In b distribution ->
  let c := city_id b in
  let check := check_resources env distribution in
  let rate := default 0%Q (city_growth_rates !! c) in
  exists est,
    Dict.get c
      (by_city (estimate_recruitment_time distribution
                  (resources_for_estimate check distribution)
                  city_growth_rates)) = Some est
    /\ citizens_available est = citizens (city_snapshot env c)
    /\ citizens_needed est = city_need citizens c distribution
    /\ citizen_wait_seconds est
       = match Dict.get c (missing_citizens check) with
         | None => Finite 0
         | Some m =>
             if negb (Qle_bool rate 0)
             then Finite ((inject_Z m / rate) * 3600)%Q
             else Infinity
         end.
Proof.
  intros Hin c check rate.
  destruct (cities_citizens (resources_for_estimate check distribution)
              city_growth_rates distribution) as [Hp Hc].
  destruct (Hp b Hin) as [e0 He0]. fold c in He0.
  destruct (Hc c e0 He0) as (Hneed & Havail & Hrate).
  destruct (report_of_city env distribution b Hin) as (Ha & Hm).
  fold c in Ha, Hm. fold check in Ha, Hm.
  assert (Hav : citizens_available e0 = citizens (city_snapshot env c)).
  { rewrite Havail. unfold new_city_estimate. simpl.
    rewrite resources_for_estimate_lookup.
    assert (Hex : existsb (fun b0 => Z.eqb (city_id b0) c) distribution = true).
    { apply existsb_exists. exists b. split; [exact Hin|]. apply Z.eqb_refl. }
    rewrite Hex. fold check. rewrite Ha. reflexivity. }
  exists (finish_city e0). simpl.
  rewrite dict_get_map_values, He0.
  split; [reflexivity|]. simpl.
  split; [exact Hav|]. split; [exact Hneed|].
  rewrite Hm. unfold citizen_wait. rewrite Hneed, Hav, Hrate. fold rate.
  rewrite Z.leb_antisym.
  destruct (citizens (city_snapshot env c) <? city_need citizens c distribution);
    reflexivity.
Qed.

Lemma estimate_agrees_with_report_short_city :
  In short_building [short_building]
  /\ exists est,
       Dict.get 1
         (by_city (estimate_recruitment_time [short_building]
                     (resources_for_estimate
                        (check_resources short_environment [short_building])
                        [short_building])
                     {[ 1 := 10%Q ]})) = Some est
       /\ citizens_available est = 50
       /\ citizens_needed est = 80
       /\ citizen_wait_seconds est = Finite ((inject_Z 30 / 10) * 3600)%Q.
Proof.
  assert (H : In short_building [short_building]) by (left; reflexivity).
  split; [exact H|].
  destruct (estimate_agrees_with_report short_environment [short_building]
              {[ 1 := 10%Q ]} short_building H)
    as (est & Hget & Ha & Hn & Hw).
  exists est. split; [exact Hget|].
  split; [exact Ha|]. split; [rewrite Hn; vm_compute; reflexivity|].
  exact Hw.
Defined.

(** ** execute_recruitment *)

Lemma execute_recruitment_snoc (env : environment) (d : list building)
    (b : building) :
  execute_recruitment env (d ++ [b])
  = execute_building env (execute_recruitment env d) (length d, b).
Proof.
  unfold execute_recruitment. rewrite imap_app, foldl_app. simpl.
  rewrite Nat.add_0_r. reflexivity.
Qed.

Lemma requested_units_snoc (u : Z) (posted : list request) (r : request) :
  requested_units u (posted ++ [r])
  = requested_units u posted + default 0 (Dict.get u (rq_units r)).
Proof.
  unfold requested_units. rewrite map_app, zsum_app. unfold zsum. simpl. lia.
Qed.

Lemma total_assigned_snoc (u : Z) (d : list building) (b : building) :
  total_assigned u (d ++ [b]) = total_assigned u d + assigned u b.
Proof.
  unfold total_assigned. rewrite map_app, zsum_app. unfold zsum. simpl. lia.
Qed.

Lemma is_empty_nil {V : Type} (d : Dict.t V) :
  Dict.is_empty d = true <-> d = [].
Proof.
  destruct d; simpl; split; intros H; try reflexivity; discriminate.
Qed.

(** When the one-shot execution reports success, the posted requests
    carry the whole plan. *)
Lemma execute_recruitment_units (env : environment) (d : list building) :
  fst (execute_recruitment env d) = true ->
  forall u, requested_units u (snd (execute_recruitment env d))
            = total_assigned u d.
Proof.
  induction d as [|b d IH] using rev_ind; intros Hs u.
  - reflexivity.
  - rewrite execute_recruitment_snoc in *. rewrite total_assigned_snoc.
    destruct (execute_recruitment env d) as [success posted].
    unfold execute_building in *.
    destruct (Dict.is_empty (assignments b)) eqn:Ee.
    + apply is_empty_nil in Ee. simpl in *. rewrite (IH Hs u).
      unfold assigned. rewrite Ee. simpl. lia.
    + destruct (obtain_action_code env (length d) b) as [code|];
        [|discriminate].
      simpl in *. rewrite requested_units_snoc. simpl.
      destruct (post_succeeds env (length d)); [|discriminate].
      rewrite (IH Hs u). reflexivity.
Qed.

(** X8. execute_recruitment reports success exactly when every building
    that has assignments obtains an action code and has its request
    accepted.  Every request it posts is for a building with
    assignments, carries that building's action code and exactly its
    assignments, and no building is sent two requests. *)
Theorem execute_recruitment_outcome (env : environment)
    (distribution : list building) :
  let success := fst (execute_recruitment env distribution) in
  let posted := snd (execute_recruitment env distribution) in
  (success = true
   <-> forall i b, distribution !! i = Some b -> assignments b <> [] ->
                   is_Some (obtain_action_code env i b)
                   /\ post_succeeds env i = true)
  /\ (forall r, In r posted ->
        exists b, distribution !! rq_building r = Some b
                  /\ assignments b <> []
                  /\ rq_units r = assignments b
                  /\ obtain_action_code env (rq_building r) b
                     = Some (rq_action_code r))
  /\ NoDup (map rq_building posted).
Proof.
  cbv zeta.
  induction distribution as [|b d IH] using rev_ind.
  - simpl. split; [|split].
    + split; [intros _ i b H; discriminate|reflexivity].
    + intros r [].
    + constructor.
  - rewrite execute_recruitment_snoc.
    destruct IH as (IHs & IHr & IHn).
    assert (Hlt : forall r, In r (snd (execute_recruitment env d)) ->
                            (rq_building r < length d)%nat).
    { intros r Hr. destruct (IHr r Hr) as (x & Hx & _).
      apply lookup_lt_Some in Hx. exact Hx. }
    destruct (execute_recruitment env d) as [success posted]. simpl in *.
    assert (Hold : forall i x, d !! i = Some x -> (d ++ [b]) !! i = Some x).
    { intros i x Hx. rewrite lookup_app_l; [exact Hx|].
      apply lookup_lt_Some in Hx. exact Hx. }
    assert (Hlast : (d ++ [b]) !! length d = Some b).
    { rewrite lookup_app_r by lia. rewrite Nat.sub_diag. reflexivity. }
    assert (Hsplit : forall i x, (d ++ [b]) !! i = Some x ->
                                 d !! i = Some x \/ (i = length d /\ x = b)).
    { intros i x Hx. destruct (Nat.lt_ge_cases i (length d)) as [Hi | Hi].
      - left. rewrite lookup_app_l in Hx by exact Hi. exact Hx.
      - right. rewrite lookup_app_r in Hx by exact Hi.
        destruct (i - length d)%nat as [|k] eqn:Ek; simpl in Hx;
          [|destruct k; discriminate].
        split; [lia|congruence]. }
    destruct (Dict.is_empty (assignments b)) eqn:Ee.
    + apply is_empty_nil in Ee. simpl. split; [|split].
      * rewrite IHs. split.
        -- intros H i x Hx Hne.
           destruct (Hsplit i x Hx) as [Hd | [-> ->]];
             [exact (H i x Hd Hne)|contradiction].
        -- intros H i x Hx Hne. exact (H i x (Hold i x Hx) Hne).
      * intros r Hr. destruct (IHr r Hr) as (x & Hx & Hrest).
        exists x. split; [apply Hold; exact Hx|exact Hrest].
      * exact IHn.
    + assert (Hne : assignments b <> []).
      { intros E. rewrite E in Ee. discriminate. }
      destruct (obtain_action_code env (length d) b) as [code|] eqn:Ec.
      * simpl. split; [|split].
        -- split.
           ++ intros H i x Hx Hnx.
              destruct (post_succeeds env (length d)) eqn:Ep; [|discriminate].
              destruct (Hsplit i x Hx) as [Hd | [-> ->]].
              ** apply IHs; assumption.
              ** rewrite Ec. split; [eauto|exact Ep].
           ++ intros H. destruct (H (length d) b Hlast Hne) as [_ ->].
              apply IHs. intros i x Hx Hnx. exact (H i x (Hold i x Hx) Hnx).
        -- intros r Hr. apply in_app_or in Hr as [Hr | [<- | []]].
           ++ destruct (IHr r Hr) as (x & Hx & Hrest).
              exists x. split; [apply Hold; exact Hx|exact Hrest].
           ++ exists b. simpl. auto.
        -- rewrite map_app. simpl. apply NoDup_app. split; [exact IHn|].
           split; [|apply NoDup_singleton].
           intros i Hi Hi'. apply list_elem_of_In in Hi.
           apply in_map_iff in Hi as (r & <- & Hr).
           apply list_elem_of_singleton in Hi'.
           specialize (Hlt r Hr). lia.
      * simpl. split; [|split].
        -- split; [discriminate|].
           intros H. destruct (H (length d) b Hlast Hne) as [[c Hc] _].
           rewrite Ec in Hc. discriminate.
        -- intros r Hr. destruct (IHr r Hr) as (x & Hx & Hrest).
           exists x. split; [apply Hold; exact Hx|exact Hrest].
        -- exact IHn.
Qed.

(** X9. Planning and one-shot execution together: for an order with
    unique keys, whenever execute_recruitment reports success on the
    planned distribution, the requests it posted ask, for every ordered
    unit type that some building can build, for exactly the ordered
    quantity. *)
Theorem one_shot_requests_the_order (env : environment)
    (bs : list building) (order : recruitment_order) (u total : Z) :
  NoDup (Dict.keys order) ->
  In (u, total) order ->
  0 <= total ->
  capable_buildings u bs <> [] ->
  exists distribution,
    calculate_distribution bs order = Some distribution
    /\ (fst (execute_recruitment env distribution) = true ->
        requested_units u (snd (execute_recruitment env distribution))
        = total).
Proof.
  intros Hnd Hin Ht Hcap.
  exists (balance_distribution
            (set_estimated_times (initial_allocation bs order))
            order default_tolerance).
  split.
  - unfold calculate_distribution.
    destruct bs as [|b bs]; [exfalso; apply Hcap; reflexivity|].
    destruct order as [|e order]; [destruct Hin|]. reflexivity.
  - intros Hs. rewrite (execute_recruitment_units env _ Hs u).
    apply planned_total; assumption.
Qed.

Lemma one_shot_requests_small_order :
  fst (execute_recruitment sample_environment small_distribution) = true
  /\ requested_units 301
       (snd (execute_recruitment sample_environment small_distribution))
     = 100.
Proof.
  assert (Hnd : NoDup (Dict.keys small_order)).
  { apply NoDup_ListNoDup. vm_compute. repeat constructor; simpl; intuition lia. }
  assert (Hin : In (301, 100) small_order) by (left; reflexivity).
  assert (Hcap : capable_buildings 301 mixed_buildings <> [])
    by (vm_compute; discriminate).
  destruct (one_shot_requests_the_order sample_environment mixed_buildings
              small_order 301 100 Hnd Hin ltac:(lia) Hcap)
    as (distribution & Hd & Hreq).
  assert (E : distribution = small_distribution).
  { unfold small_distribution. rewrite Hd. reflexivity. }
  subst distribution.
  assert (Hs : fst (execute_recruitment sample_environment small_distribution)
               = true) by (vm_compute; reflexivity).
  split; [exact Hs|exact (Hreq Hs)].
Defined.

(** ** Busy buildings in the loop *)

Lemma refresh_busy_keeps_busy (env : environment) (i : nat) (b : building) :
  is_busy (refresh_busy env i b) = is_busy b.
Proof.
  unfold refresh_busy. destruct (is_busy b) eqn:E; [|exact E].
  unfold fetch_building_data. destruct (building_page env i); simpl; auto.
Qed.

(** While the cycle is planned, a busy building stays as it is and is
    not put on the list of buildings to order for. *)
Lemma plan_building_busy (env : environment) (st : planning) (i j : nat)
    (w : Dict.t Z * Dict.t Z * gmap Z unit_info * Z) :
  (exists b, pl_buildings st !! i = Some b /\ is_busy b = true /\ work b = w) ->
  Forall (fun info => ri_building info <> i) (buildings_to_recruit st) ->
  (exists b, pl_buildings (plan_building env st j) !! i = Some b
             /\ is_busy b = true /\ work b = w)
  /\ Forall (fun info => ri_building info <> i)
       (buildings_to_recruit (plan_building env st j)).
Proof.
  intros (b & Hb & Hbusy & Hw) Hall. unfold plan_building.
  destruct (pl_buildings st !! j) as [x|] eqn:Hx; [|eauto].
  destruct (Dict.is_empty (remaining_assignments x)); [eauto|].
  destruct (Nat.eq_dec j i) as [-> | Hne].
  - assert (x = b) by congruence. subst x.
    rewrite refresh_busy_keeps_busy, Hbusy. simpl. split; [|exact Hall].
    exists (refresh_busy env i b).
    split; [apply list_lookup_insert_eq; apply lookup_lt_Some in Hb; exact Hb|].
    split; [rewrite refresh_busy_keeps_busy; exact Hbusy|].
    rewrite refresh_busy_work. exact Hw.
  - assert (Hkeep : <[j := refresh_busy env j x]> (pl_buildings st) !! i
                    = Some b)
      by (rewrite list_lookup_insert_ne by exact Hne; exact Hb).
    destruct (is_busy (refresh_busy env j x)); [simpl; eauto|].
    destruct (can_recruit _ _) as [[left can] total].
    destruct (_ <=? total); simpl; [|eauto].
    split; [eauto|]. apply Forall_app. split; [exact Hall|].
    constructor; [exact Hne|constructor].
Qed.

Lemma plan_cycle_busy (env : environment) (bs : list building) (i : nat)
    (b : building) :
  bs !! i = Some b -> is_busy b = true ->
  (exists b', pl_buildings (plan_cycle env bs) !! i = Some b'
              /\ is_busy b' = true /\ work b' = work b)
  /\ Forall (fun info => ri_building info <> i)
       (buildings_to_recruit (plan_cycle env bs)).
Proof.
  intros Hb Hbusy. unfold plan_cycle.
  assert (H : (exists b', pl_buildings (Planning bs (refresh_resources env bs) [])
                          !! i = Some b'
                          /\ is_busy b' = true /\ work b' = work b)
              /\ Forall (fun info => ri_building info <> i)
                   (buildings_to_recruit
                      (Planning bs (refresh_resources env bs) []))).
  { split; [exists b; auto|constructor]. }
  revert H. generalize (Planning bs (refresh_resources env bs) []).
  induction (seq 0 (length bs)) as [|j l IH]; intros st [H1 H2]; simpl.
  - auto.
  - apply IH. apply plan_building_busy; assumption.
Qed.

(** Orders are submitted to the buildings on the list only. *)
Lemma submit_order_skip (env : environment) (st : list building * list recruit_info)
    (info : recruit_info) (i : nat) :
  ri_building info <> i ->
  fst (submit_order env st info) !! i = fst st !! i
  /\ (forall x, In x (snd (submit_order env st info)) ->
                In x (snd st) \/ x = info).
Proof.
  intros Hne. destruct st as [bs posted]. unfold submit_order.
  destruct (bs !! ri_building info) as [b|]; [|simpl; auto].
  destruct (obtain_action_code env (ri_building info) b) as [code|];
    [|simpl; auto].
  destruct (post_succeeds env (ri_building info)); simpl;
    (split; [apply list_lookup_insert_ne; exact Hne|]);
    intros x Hx; apply in_app_or in Hx as [Hx | [<- | []]]; auto.
Qed.

Lemma submit_orders_skip (env : environment) (infos : list recruit_info)
    (i : nat) :
  Forall (fun info => ri_building info <> i) infos ->
  forall st,
    fst (foldl (submit_order env) st infos) !! i = fst st !! i
    /\ (forall x, In x (snd (foldl (submit_order env) st infos)) ->
                  In x (snd st) \/ In x infos).
Proof.
  induction 1 as [|info infos Hne _ IH]; intros st; simpl.
  - auto.
  - destruct (submit_order_skip env st info i Hne) as [H1 H2].
    destruct (IH (submit_order env st info)) as [H3 H4].
    split; [rewrite H3; exact H1|].
    intros x Hx. destruct (H4 x Hx) as [Hx' | Hx']; [|auto].
    destruct (H2 x Hx') as [Hx'' | ->]; auto.
Qed.

(** X10. A building that is marked busy is skipped by a cycle of the
    loop: no request of the cycle is for it, and after the cycle it is
    still marked busy, with the same assignments and the same remaining
    assignments, whatever the game answers when its page is fetched. *)
Theorem busy_building_is_skipped (env : environment)
    (bs bs' : list building) (posted : list recruit_info) (wait : Z)
    (i : nat) (b : building) :
  bs !! i = Some b ->
  is_busy b = true ->
  run_cycle env bs = Continue bs' posted wait ->
  (forall info, In info posted -> ri_building info <> i)
  /\ exists b', bs' !! i = Some b'
                /\ is_busy b' = true
                /\ assignments b' = assignments b
                /\ remaining_assignments b' = remaining_assignments b.
Proof.
  intros Hb Hbusy Hrun. unfold run_cycle in Hrun.
  destruct (total_remaining bs <=? 0); [discriminate|].
  destruct (plan_cycle_busy env bs i b Hb Hbusy)
    as [(b' & Hb' & Hbusy' & Hw) Hall].
  assert (Ha : assignments b' = assignments b
               /\ remaining_assignments b' = remaining_assignments b)
    by (unfold work in Hw; split; congruence).
  destruct (buildings_to_recruit (plan_cycle env bs)) as [|info infos] eqn:Ei.
  - injection Hrun as <- <- _. split; [intros info []|].
    exists b'. tauto.
  - destruct (submit_orders_skip env (info :: infos) i Hall
                (pl_buildings (plan_cycle env bs), [])) as [H1 H2].
    destruct (foldl (submit_order env)
                (pl_buildings (plan_cycle env bs), []) (info :: infos))
      as [cur sent].
    injection Hrun as <- <- _. simpl in H1, H2. split.
    + intros x Hx. destruct (H2 x Hx) as [[] | Hx'].
      rewrite Forall_forall in Hall. apply Hall, list_elem_of_In, Hx'.
    + exists b'. rewrite H1. tauto.
Qed.

Lemma busy_building_skipped_after_first_cycle :
  (is_busy <$> first_cycle_buildings !! 0%nat) = Some true
  /\ (forall bs' posted wait,
        run_cycle sample_environment first_cycle_buildings
        = Continue bs' posted wait ->
        (forall info, In info posted -> ri_building info <> 0%nat)
        /\ (remaining_assignments <$> bs' !! 0%nat)
           = Some [(301, 40); (302, 5)]).
Proof.
  split; [vm_compute; reflexivity|].
  intros bs' posted wait Hrun.
  assert (Hb : first_cycle_buildings !! 0%nat
               = Some (default (idle_building 0 ∅)
                         (first_cycle_buildings !! 0%nat)))
    by (vm_compute; reflexivity).
  assert (Hbusy : is_busy (default (idle_building 0 ∅)
                             (first_cycle_buildings !! 0%nat)) = true)
    by (vm_compute; reflexivity).
  assert (Hleft : remaining_assignments
                    (default (idle_building 0 ∅)
                       (first_cycle_buildings !! 0%nat))
                  = [(301, 40); (302, 5)])
    by (vm_compute; reflexivity).
  destruct (busy_building_is_skipped sample_environment first_cycle_buildings
              bs' posted wait 0%nat _ Hb Hbusy Hrun)
    as (Hskip & b' & Hb' & _ & _ & Hrem).
  split; [exact Hskip|]. rewrite Hb'.
  change (Some (remaining_assignments b') = Some [(301, 40); (302, 5)]).
  rewrite Hrem, Hleft. reflexivity.
Defined.

(** ** The loop after an order *)

Lemma run_cycle_busy_kept (env : environment) (bs : list building) (i : nat)
    (b : building) :
  bs !! i = Some b -> is_busy b = true ->
  match run_cycle env bs with
  | Completed => True
  | Continue bs' _ _ =>
      exists b', bs' !! i = Some b' /\ is_busy b' = true
                 /\ remaining_assignments b' = remaining_assignments b
  end.
Proof.
  intros Hb Hbusy. unfold run_cycle.
  destruct (total_remaining bs <=? 0); [exact I|].
  destruct (plan_cycle_busy env bs i b Hb Hbusy)
    as [(b' & Hb' & Hbusy' & Hw) Hall].
  assert (Ha : remaining_assignments b' = remaining_assignments b)
    by (unfold work in Hw; congruence).
  destruct (buildings_to_recruit (plan_cycle env bs)) as [|info infos] eqn:Ei.
  - exists b'. tauto.
  - destruct (submit_orders_skip env (info :: infos) i Hall
                (pl_buildings (plan_cycle env bs), [])) as [H1 _].
    destruct (foldl (submit_order env)
                (pl_buildings (plan_cycle env bs), []) (info :: infos))
      as [cur sent].
    simpl in H1. exists b'. rewrite H1. tauto.
Qed.

Lemma in_plan_positive (b : building) :
  in_plan b -> remaining_assignments b <> [] ->
  0 < zsum (Dict.values (remaining_assignments b)).
Proof.
  unfold in_plan. intros H Hne.
  destruct (remaining_assignments b) as [|e l]; [contradiction|].
  apply Forall_cons in H as [[He _] Hl].
  assert (Hnn : 0 <= zsum (Dict.values l)).
  { clear - Hl. induction Hl as [|x l [Hx _] _ IH]; [reflexivity|].
    unfold Dict.values, zsum in *. simpl. lia. }
  unfold Dict.values, zsum in *. simpl. lia.
Qed.

Lemma total_remaining_positive (bs : list building) (i : nat) (b : building) :
  Forall in_plan bs -> bs !! i = Some b -> remaining_assignments b <> [] ->
  0 < total_remaining bs.
Proof.
  intros Hall. revert i. induction Hall as [|x bs Hx Hall IH]; intros i Hb Hne.
  - discriminate.
  - assert (E : total_remaining (x :: bs)
                = zsum (Dict.values (remaining_assignments x))
                  + total_remaining bs) by reflexivity.
    rewrite E. pose proof (total_remaining_nonneg bs Hall) as Hnn.
    pose proof (in_plan_nonneg x Hx) as Hxn.
    destruct i as [|i]; simpl in Hb.
    + injection Hb as ->. pose proof (in_plan_positive b Hx Hne). lia.
    + specialize (IH i Hb Hne). lia.
Qed.

(** A busy building with work left keeps the loop from completing. *)
Lemma run_cycles_stalled (envs : list environment) (bs : list building)
    (i : nat) (b : building) :
  Forall in_plan bs ->
  bs !! i = Some b -> is_busy b = true -> remaining_assignments b <> [] ->
  snd (run_cycles envs bs) = false
  /\ exists b', fst (run_cycles envs bs) !! i = Some b'
                /\ is_busy b' = true
                /\ remaining_assignments b' = remaining_assignments b.
Proof.
  revert bs b. induction envs as [|env envs IH]; intros bs b Hall Hb Hbusy Hne.
  - simpl. split; [reflexivity|]. exists b. auto.
  - simpl. pose proof (run_cycle_spec env bs) as Hspec.
    pose proof (run_cycle_busy_kept env bs i b Hb Hbusy) as Hkept.
    pose proof (total_remaining_positive bs i b Hall Hb Hne) as Hpos.
    destruct (run_cycle env bs) as [|bs' posted wait]; [lia|].
    destruct Hspec as (_ & _ & _ & _ & Hplan).
    destruct (Hplan Hall) as [Hall' _].
    destruct Hkept as (b' & Hb' & Hbusy' & Hrem).
    destruct (IH bs' b' Hall' Hb' Hbusy') as (Hdone & b'' & H1 & H2 & H3).
    { rewrite Hrem. exact Hne. }
    split; [exact Hdone|]. exists b''. split; [exact H1|].
    split; [exact H2|]. congruence.
Qed.

(** A building whose request was accepted is marked busy. *)
Lemma submit_order_busy (env : environment)
    (st : list building * list recruit_info) (info : recruit_info) :
  (forall x, In x (snd st) -> post_succeeds env (ri_building x) = true ->
             is_busy <$> fst st !! ri_building x = Some true) ->
  forall x, In x (snd (submit_order env st info)) ->
            post_succeeds env (ri_building x) = true ->
            is_busy <$> fst (submit_order env st info) !! ri_building x
            = Some true.
Proof.
  destruct st as [bs posted]. simpl. intros Hinv x Hx Hpost.
  unfold submit_order in *.
  destruct (bs !! ri_building info) as [b|] eqn:Hb; [|simpl in *; auto].
  destruct (obtain_action_code env (ri_building info) b) as [code|];
    [|simpl in *; auto].
  assert (Hlt : (ri_building info < length bs)%nat)
    by (apply lookup_lt_Some in Hb; exact Hb).
  destruct (post_succeeds env (ri_building info)) eqn:Ep; simpl in *.
  - destruct (Nat.eq_dec (ri_building info) (ri_building x)) as [E | E].
    + rewrite <- E, list_lookup_insert_eq by exact Hlt. reflexivity.
    + rewrite list_lookup_insert_ne by exact E.
      apply in_app_or in Hx as [Hx | [<- | []]]; [auto|contradiction].
  - apply in_app_or in Hx as [Hx | [<- | []]]; [|congruence].
    destruct (Nat.eq_dec (ri_building info) (ri_building x)) as [E | E].
    + congruence.
    + rewrite list_lookup_insert_ne by exact E. auto.
Qed.

Lemma submit_orders_busy (env : environment) (infos : list recruit_info) :
  forall st,
    (forall x, In x (snd st) -> post_succeeds env (ri_building x) = true ->
               is_busy <$> fst st !! ri_building x = Some true) ->
    forall x, In x (snd (foldl (submit_order env) st infos)) ->
              post_succeeds env (ri_building x) = true ->
              is_busy <$> fst (foldl (submit_order env) st infos)
                            !! ri_building x
              = Some true.
Proof.
  induction infos as [|info infos IH]; intros st Hinv; simpl.
  - exact Hinv.
  - apply IH. apply submit_order_busy. exact Hinv.
Qed.

(** X11. Once the loop has had a request accepted for a building, the
    building is marked busy, and if it still has remaining assignments
    the loop never completes: in every later cycle, whatever the game
    answers, the building is skipped, its remaining assignments stay as
    they are and the completion notice is not sent. *)
Theorem loop_stalls_after_partial_order (env : environment)
    (bs bs' : list building) (posted : list recruit_info) (wait : Z)
    (info : recruit_info) :
  Forall in_plan bs ->
  run_cycle env bs = Continue bs' posted wait ->
  In info posted ->
  post_succeeds env (ri_building info) = true ->
  exists b',
    bs' !! ri_building info = Some b'
    /\ is_busy b' = true
    /\ (remaining_assignments b' <> [] ->
        forall envs,
          snd (run_cycles envs bs') = false
          /\ (remaining_assignments <$>
                fst (run_cycles envs bs') !! ri_building info)
             = Some (remaining_assignments b')).
Proof.
  intros Hall Hrun Hin Hpost.
  pose proof (run_cycle_spec env bs) as Hspec. rewrite Hrun in Hspec.
  destruct Hspec as (_ & _ & _ & _ & Hplan).
  destruct (Hplan Hall) as [Hall' _].
  assert (Hbusy : is_busy <$> bs' !! ri_building info = Some true).
  { unfold run_cycle in Hrun.
    destruct (total_remaining bs <=? 0); [discriminate|].
    destruct (buildings_to_recruit (plan_cycle env bs)) as [|x xs] eqn:Ei.
    - injection Hrun as _ <- _. destruct Hin.
    - pose proof (submit_orders_busy env (x :: xs)
                    (pl_buildings (plan_cycle env bs), [])) as H.
      destruct (foldl (submit_order env)
                  (pl_buildings (plan_cycle env bs), []) (x :: xs))
        as [cur sent].
      injection Hrun as <- <- _. simpl in H.
      apply H; [intros y []|exact Hin|exact Hpost]. }
  destruct (bs' !! ri_building info) as [b'|] eqn:Hb'; [|discriminate].
  exists b'. split; [reflexivity|].
  assert (Hb : is_busy b' = true) by (simpl in Hbusy; congruence).
  split; [exact Hb|]. intros Hne envs.
  destruct (run_cycles_stalled envs bs' (ri_building info) b' Hall' Hb' Hb Hne)
    as (Hdone & b'' & H1 & _ & H3).
  split; [exact Hdone|]. rewrite H1. simpl. rewrite H3. reflexivity.
Qed.

Lemma loop_stalls_on_small_distribution :
  Forall in_plan (start_loop small_distribution)
  /\ In first_order first_cycle_posted
  /\ (remaining_assignments <$> first_cycle_buildings !! 0%nat)
     = Some [(301, 40); (302, 5)]
  /\ forall envs,
       snd (run_cycles envs first_cycle_buildings) = false
       /\ (remaining_assignments <$>
             fst (run_cycles envs first_cycle_buildings) !! 0%nat)
          = Some [(301, 40); (302, 5)].
Proof.
  assert (Hall : Forall in_plan (start_loop small_distribution)).
  { apply start_loop_in_plan. apply calculate_distribution_positive
      with (bs := mixed_buildings) (order := small_order).
    vm_compute. reflexivity. }
  assert (Hrun : run_cycle sample_environment (start_loop small_distribution)
                 = Continue first_cycle_buildings first_cycle_posted 60)
    by (vm_compute; reflexivity).
  assert (Hin : In first_order first_cycle_posted)
    by (vm_compute; left; reflexivity).
  assert (Hidx : ri_building first_order = 0%nat)
    by (vm_compute; reflexivity).
  assert (Hpost : post_succeeds sample_environment (ri_building first_order)
                  = true) by (rewrite Hidx; reflexivity).
  assert (Hleft : (remaining_assignments <$> first_cycle_buildings !! 0%nat)
                  = Some [(301, 40); (302, 5)])
    by (vm_compute; reflexivity).
  destruct (loop_stalls_after_partial_order sample_environment
              (start_loop small_distribution) first_cycle_buildings
              first_cycle_posted 60 first_order Hall Hrun Hin Hpost)
    as (b' & Hb' & _ & Hstall).
  rewrite Hidx in Hb', Hstall.
  assert (Hrem : remaining_assignments b' = [(301, 40); (302, 5)]).
  { rewrite Hb' in Hleft.
    change (Some (remaining_assignments b') = Some [(301, 40); (302, 5)])
      in Hleft.
    congruence. }
  split; [exact Hall|]. split; [exact Hin|].
  split; [exact Hleft|].
  intros envs. rewrite <- Hrem. apply Hstall. rewrite Hrem. discriminate.
Defined.


(** ** The threshold of a building *)

Lemma Qfloor_fifth (n : Z) : Qfloor (inject_Z n * (20 # 100))%Q = n / 5.
Proof.
  unfold Qfloor, Qmult, inject_Z. simpl.
  change (Z.pos (1 * 100)) with 100.
  replace (n * 20) with (20 * n) by lia.
  change 100 with (20 * 5). rewrite Z.div_mul_cancel_l by lia. reflexivity.
Qed.

(** X12. The threshold of a building is the larger of 1 and a fifth of
    its remaining units, rounded down; for a building with work left it
    never exceeds the remaining units, so a building whose whole
    remaining work can be afforded always meets it. *)
Theorem threshold_is_a_fifth (n : Z) :
  threshold_of n = Z.max 1 (n / 5)
  /\ 1 <= threshold_of n
  /\ (1 <= n -> threshold_of n <= n).
Proof.
  rewrite threshold_of_floor, Qfloor_fifth.
  split; [reflexivity|]. split; [lia|]. intros Hn.
  assert (n / 5 <= n) by (apply Z.div_le_upper_bound; lia). lia.
Qed.

(** ** The choice between the loop and the one-shot execution *)

Lemma shortage_nil (name : resource) (required stock : Z) :
  shortage name required stock = [] <-> required <= stock.
Proof.
  unfold shortage. destruct (stock <? required) eqn:E.
  - apply Z.ltb_lt in E. split; [discriminate|lia].
  - apply Z.ltb_ge in E. tauto.
Qed.

Lemma missing_of_nil (req stock : amounts) :
  missing_of req stock = [] ->
  wood req <= wood stock /\ wine req <= wine stock
  /\ marble req <= marble stock /\ crystal req <= crystal stock
  /\ sulfur req <= sulfur stock.
Proof.
  unfold missing_of. intros H.
  repeat (apply app_eq_nil in H as [?%shortage_nil H]).
  apply shortage_nil in H. tauto.
Qed.

Lemma is_empty_false_cons {V : Type} (d : Dict.t V) :
  negb (Dict.is_empty d) = false <-> d = [].
Proof.
  destruct d; simpl; split; intros H; try reflexivity; discriminate.
Qed.

(** X13. The main function executes in one shot exactly when
    check_resources reports that everything can be fulfilled and no
    building is marked busy; it then holds, for the city of every
    building of the distribution and for citizens and each of the five
    resources, that what the city's buildings need is covered by the
    city's snapshot.  In every other case the resumable loop is
    started. *)
Theorem one_shot_only_when_covered (env : environment)
    (distribution buildings_data : list building) :
  let check := check_resources env distribution in
  (uses_loop check buildings_data = false
   <-> can_fulfill check = true
       /\ Forall (fun b => is_busy b = false) buildings_data)
  /\ (uses_loop check buildings_data = false ->
      forall b field,
        In b distribution -> is_field field ->
        city_need field (city_id b) distribution
        <= field (city_snapshot env (city_id b))).
Proof.
  intros check.
  destruct (check_cities_report env (city_requirements distribution)
              (city_requirements_keys distribution))
    as (_ & Hc & Hm & Hcan).
  fold (check_resources env distribution) in Hc, Hm, Hcan.
  fold check in Hc, Hm, Hcan.
  assert (Hiff : uses_loop check buildings_data = false
                 <-> (missing_resources check = []
                      /\ missing_citizens check = [])
                     /\ Forall (fun b => is_busy b = false) buildings_data).
  { unfold uses_loop. rewrite !orb_false_iff, !is_empty_false_cons.
    rewrite <- not_true_iff_false, existsb_exists, Forall_forall.
    split.
    - intros [[H1 H2] H3]. split; [tauto|]. intros x Hx.
      destruct (is_busy x) eqn:E; [|reflexivity].
      exfalso. apply H3. exists x. split; [apply list_elem_of_In; exact Hx|exact E].
    - intros [[H1 H2] H3]. split; [tauto|]. intros (x & Hx & Hb).
      apply list_elem_of_In in Hx. rewrite (H3 x Hx) in Hb. discriminate. }
  split; [rewrite Hiff, Hcan; reflexivity|].
  intros Hone b field Hin Hf.
  apply Hiff in Hone as [[Hmr Hmc] _].
  destruct (city_requirements_need distribution) as [Hp Hneed].
  destruct (Hp b Hin) as [req Hreq].
  destruct (Hneed _ req Hreq) as [_ Hfields].
  specialize (Hc (city_id b)). specialize (Hm (city_id b)).
  rewrite Hreq, Hmc in Hc. rewrite Hreq, Hmr in Hm. simpl in Hc, Hm.
  unfold citizens_short in Hc. unfold resources_short in Hm.
  rewrite <- (Hfields field Hf).
  assert (Hcit : citizens req <= citizens (city_snapshot env (city_id b))).
  { destruct (_ <? _) eqn:E; [discriminate|]. apply Z.ltb_ge in E. exact E. }
  assert (Hres : missing_of req (city_snapshot env (city_id b)) = []).
  { destruct (missing_of req (city_snapshot env (city_id b)));
      [reflexivity|discriminate]. }
  apply missing_of_nil in Hres.
  destruct Hf as [-> | [-> | [-> | [-> | [-> | ->]]]]]; tauto.
Qed.


(** ** The requests of one cycle *)

(** The requests posted in a cycle are taken, in order, from the list
    the cycle has planned. *)
Lemma submit_orders_sublist (env : environment) (infos : list recruit_info) :
  forall st,
    exists l, snd (foldl (submit_order env) st infos) = snd st ++ l
              /\ l `sublist_of` infos.
Proof.
  induction infos as [|info infos IH]; intros st; simpl.
  - exists []. rewrite app_nil_r. split; [reflexivity|constructor].
  - destruct (IH (submit_order env st info)) as (l & -> & Hl).
    destruct st as [bs posted]. unfold submit_order.
    destruct (bs !! ri_building info) as [b|];
      [|exists l; split; [reflexivity|apply sublist_cons; exact Hl]].
    destruct (obtain_action_code env (ri_building info) b) as [code|];
      [|exists l; split; [reflexivity|apply sublist_cons; exact Hl]].
    destruct (post_succeeds env (ri_building info)); simpl;
      (exists (info :: l); split;
       [rewrite <- app_assoc; reflexivity|apply sublist_skip; exact Hl]).
Qed.

Lemma run_cycle_posted (env : environment) (bs bs' : list building)
    (posted : list recruit_info) (wait : Z) :
  run_cycle env bs = Continue bs' posted wait ->
  posted `sublist_of` buildings_to_recruit (plan_cycle env bs).
Proof.
  unfold run_cycle. destruct (total_remaining bs <=? 0); [discriminate|].
  destruct (buildings_to_recruit (plan_cycle env bs)) as [|x xs] eqn:Ei.
  - intros [= _ <- _]. constructor.
  - destruct (submit_orders_sublist env (x :: xs)
                (pl_buildings (plan_cycle env bs), [])) as (l & Hl & Hsub).
    destruct (foldl (submit_order env)
                (pl_buildings (plan_cycle env bs), []) (x :: xs))
      as [cur sent].
    intros [= _ <- _]. simpl in Hl. subst sent. exact Hsub.
Qed.

(** Planning visits every building once. *)
Lemma plan_building_index (env : environment) (st : planning) (i : nat) :
  Forall (fun info => (ri_building info < i)%nat) (buildings_to_recruit st) ->
  NoDup (map ri_building (buildings_to_recruit st)) ->
  Forall (fun info => (ri_building info < S i)%nat)
    (buildings_to_recruit (plan_building env st i))
  /\ NoDup (map ri_building (buildings_to_recruit (plan_building env st i))).
Proof.
  intros Hlt Hnd.
  assert (Hlt' : Forall (fun info => (ri_building info < S i)%nat)
                   (buildings_to_recruit st)).
  { eapply Forall_impl; [exact Hlt|]. simpl. intros x Hx. lia. }
  unfold plan_building.
  destruct (pl_buildings st !! i) as [b|]; [|auto].
  destruct (Dict.is_empty (remaining_assignments b)); [auto|].
  destruct (is_busy (refresh_busy env i b)); [simpl; auto|].
  destruct (can_recruit _ _) as [[left can] total].
  destruct (_ <=? total); simpl; [|auto].
  split.
  - apply Forall_app. split; [exact Hlt'|]. constructor; [simpl; lia|constructor].
  - rewrite map_app. simpl. apply NoDup_app. split; [exact Hnd|].
    split; [|apply NoDup_singleton].
    intros j Hj Hj'. apply list_elem_of_singleton in Hj'. subst j.
    apply list_elem_of_In, in_map_iff in Hj as (x & Hx & Hin).
    rewrite Forall_forall in Hlt. apply list_elem_of_In, Hlt in Hin. lia.
Qed.

Lemma plan_cycle_distinct (env : environment) (bs : list building) :
  NoDup (map ri_building (buildings_to_recruit (plan_cycle env bs))).
Proof.
  unfold plan_cycle.
  assert (H : forall n k st,
             Forall (fun info => (ri_building info < k)%nat)
               (buildings_to_recruit st) ->
             NoDup (map ri_building (buildings_to_recruit st)) ->
             NoDup (map ri_building
                      (buildings_to_recruit
                         (foldl (plan_building env) st (seq k n))))).
  { induction n as [|n IH]; intros k st Hlt Hnd; simpl; [exact Hnd|].
    destruct (plan_building_index env st k Hlt Hnd) as [H1 H2].
    apply IH; assumption. }
  apply H; simpl; constructor.
Qed.

(** What a building is asked to train is part of what remains for it. *)
Lemma limit_by_le (cost stock m : Z) : limit_by cost stock m <= m.
Proof. unfold limit_by. destruct (0 <? cost); lia. Qed.

Lemma max_possible_le (q : Z) (c available : amounts) :
  max_possible q c available <= q.
Proof.
  unfold max_possible.
  repeat (etransitivity; [apply limit_by_le|]). reflexivity.
Qed.

Lemma can_recruit_within (b : building) (available : amounts) :
  Forall (fun e : Z * Z =>
            0 < snd e
            /\ is_Some (unit_data b !! fst e)
            /\ exists q, In (fst e, q) (remaining_assignments b)
                         /\ snd e <= q)
         (snd (fst (can_recruit b available)))
  /\ (remaining_assignments b = [] -> snd (can_recruit b available) = 0).
Proof.
  unfold can_recruit.
  assert (H : forall (l : Dict.t Z) (acc : amounts * Dict.t Z * Z),
             (forall e, In e l -> In e (remaining_assignments b)) ->
             Forall (fun e : Z * Z =>
                       0 < snd e
                       /\ is_Some (unit_data b !! fst e)
                       /\ exists q, In (fst e, q) (remaining_assignments b)
                                    /\ snd e <= q)
                    (snd (fst acc)) ->
             Forall (fun e : Z * Z =>
                       0 < snd e
                       /\ is_Some (unit_data b !! fst e)
                       /\ exists q, In (fst e, q) (remaining_assignments b)
                                    /\ snd e <= q)
                    (snd (fst (foldl (consider_unit b) acc l)))).
  { induction l as [|e l IH]; intros acc Hsub Hacc; simpl; [exact Hacc|].
    apply IH; [intros x Hx; apply Hsub; right; exact Hx|].
    destruct acc as [[avail can] total]. unfold consider_unit.
    destruct (unit_data b !! e.1) as [d|] eqn:Ed; [|exact Hacc].
    destruct (0 <? max_possible e.2 (costs d) avail) eqn:Em; [|exact Hacc].
    apply Z.ltb_lt in Em. simpl in *.
    apply Forall_forall. intros x Hx. apply list_elem_of_In in Hx.
    apply dict_set_In in Hx as [-> | Hx].
    - simpl. split; [exact Em|]. split; [rewrite Ed; eauto|].
      exists e.2. split; [|apply max_possible_le].
      apply Hsub. left. destruct e; reflexivity.
    - rewrite Forall_forall in Hacc. apply Hacc, list_elem_of_In, Hx. }
  split.
  - apply H; [auto|constructor].
  - intros ->. reflexivity.
Qed.

(** X14. The requests of one cycle of the loop are for distinct
    buildings.  Each is for a building that was not marked busy and had
    remaining assignments when the cycle began, and asks, for every
    unit type it names, for a positive quantity of a unit type the
    building can build, no larger than a quantity that remains for that
    unit type. *)
Theorem cycle_requests_within_remaining (env : environment)
    (bs bs' : list building) (posted : list recruit_info) (wait : Z) :
  run_cycle env bs = Continue bs' posted wait ->
  NoDup (map ri_building posted)
  /\ forall info, In info posted ->
       exists b,
         bs !! ri_building info = Some b
         /\ is_busy b = false
         /\ remaining_assignments b <> []
         /\ Forall (fun e : Z * Z =>
                      0 < snd e
                      /\ is_Some (unit_data b !! fst e)
                      /\ exists q, In (fst e, q) (remaining_assignments b)
                                   /\ snd e <= q)
                   (to_recruit info).
Proof.
  intros Hrun. pose proof (run_cycle_posted env bs bs' posted wait Hrun) as Hsub.
  split.
  - eapply sublist_NoDup; [apply plan_cycle_distinct|].
    change (map ri_building posted) with (ri_building <$> posted).
    change (map ri_building (buildings_to_recruit (plan_cycle env bs)))
      with (ri_building <$> buildings_to_recruit (plan_cycle env bs)).
    apply fmap_sublist. exact Hsub.
  - intros info Hin.
    assert (Hplanned : info ∈ buildings_to_recruit (plan_cycle env bs)).
    { eapply elem_of_sublist; [|exact Hsub]. apply list_elem_of_In. exact Hin. }
    destruct (plan_cycle_invariant env bs) as [_ Hmeet].
    rewrite Forall_forall in Hmeet.
    destruct (Hmeet info Hplanned) as (b & stock & left & Hb & Hcan & Hth & Hle).
    exists b. split; [exact Hb|].
    destruct (can_recruit_within b stock) as [Hwithin Hnone].
    rewrite Hcan in Hwithin, Hnone. simpl in Hwithin, Hnone.
    split; [|split; [|exact Hwithin]].
    + destruct (is_busy b) eqn:Ebusy; [|reflexivity].
      destruct (plan_cycle_busy env bs (ri_building info) b Hb Ebusy)
        as [_ Hall].
      rewrite Forall_forall in Hall. exfalso.
      exact (Hall info Hplanned eq_refl).
    + intros Hnil. specialize (Hnone Hnil).
      assert (1 <= ri_threshold info).
      { rewrite Hth. unfold threshold_of. lia. }
      lia.
Qed.

Lemma cycle_requests_of_first_cycle :
  map ri_building first_cycle_posted = [0%nat; 1%nat]
  /\ NoDup (map ri_building first_cycle_posted)
  /\ exists b,
       start_loop small_distribution !! ri_building first_order = Some b
       /\ is_busy b = false
       /\ to_recruit first_order = [(301, 60)].
Proof.
  assert (Hrun : run_cycle sample_environment (start_loop small_distribution)
                 = Continue first_cycle_buildings first_cycle_posted 60)
    by (vm_compute; reflexivity).
  assert (Hin : In first_order first_cycle_posted)
    by (vm_compute; left; reflexivity).
  destruct (cycle_requests_within_remaining sample_environment
              (start_loop small_distribution) first_cycle_buildings
              first_cycle_posted 60 Hrun) as [Hnd Hreq].
  destruct (Hreq first_order Hin) as (b & Hb & Hbusy & _ & _).
  split; [vm_compute; reflexivity|]. split; [exact Hnd|].
  exists b. split; [exact Hb|]. split; [exact Hbusy|].
  vm_compute. reflexivity.
Defined.

(** ** The stock of a city during a cycle *)

Lemma limit_by_div (cost stock m : Z) :
  0 < cost -> limit_by cost stock m <= stock / cost.
Proof.
  intros Hc. unfold limit_by.
  destruct (0 <? cost) eqn:E; [lia|apply Z.ltb_ge in E; lia].
Qed.

Lemma max_possible_affordable (q : Z) (c available : amounts)
    (field : amounts -> Z) :
  is_field field -> 0 < field c ->
  max_possible q c available <= field available / field c.
Proof.
  intros Hf Hc. unfold max_possible.
  pose proof limit_by_le as Hle. pose proof limit_by_div as Hdiv.
  each_field Hf.
  - do 5 (etransitivity; [apply Hle|]). apply Hdiv. exact Hc.
  - do 4 (etransitivity; [apply Hle|]). apply Hdiv. exact Hc.
  - do 3 (etransitivity; [apply Hle|]). apply Hdiv. exact Hc.
  - do 2 (etransitivity; [apply Hle|]). apply Hdiv. exact Hc.
  - do 1 (etransitivity; [apply Hle|]). apply Hdiv. exact Hc.
  - apply Hdiv. exact Hc.
Qed.

Lemma field_deduct (field : amounts -> Z) (a c : amounts) (m : Z) :
  is_field field ->
  field (deduct a c m) = field a - field c * m.
Proof. intros Hf. each_field Hf; reflexivity. Qed.

Lemma deduct_covered (q m : Z) (c available : amounts) :
  covered available -> 0 < m -> m = max_possible q c available ->
  covered (deduct available c m).
Proof.
  intros Hcov Hm Hmax field Hf. rewrite field_deduct by exact Hf.
  specialize (Hcov field Hf).
  destruct (Z.lt_ge_cases 0 (field c)) as [Hc | Hc].
  - pose proof (max_possible_affordable q c available field Hf Hc) as Hle.
    pose proof (Z.mul_div_le (field available) (field c) Hc).
    assert (field c * m <= field c * (field available / field c))
      by (apply Z.mul_le_mono_nonneg_l; lia).
    lia.
  - assert (field c * m <= 0) by nia. lia.
Qed.

Lemma dict_set_fresh {V : Type} (k : Z) (v : V) (d : Dict.t V) :
  ~ In k (Dict.keys d) -> Dict.set k v d = d ++ [(k, v)].
Proof.
  induction d as [|[k0 v0] d IH]; simpl; intros Hk; [reflexivity|].
  destruct (Z.eqb k0 k) eqn:E.
  - apply Z.eqb_eq in E. exfalso. apply Hk. left. exact E.
  - rewrite IH by tauto. reflexivity.
Qed.

(** The stock that [can_recruit] leaves is not negative, and it is what
    the commit takes the stock of the city down to. *)
Lemma can_recruit_left (b : building) (stock : amounts) :
  covered stock ->
  NoDup (Dict.keys (remaining_assignments b)) ->
  covered (fst (fst (can_recruit b stock)))
  /\ commit_resources b (snd (fst (can_recruit b stock))) stock
     = fst (fst (can_recruit b stock)).
Proof.
  intros Hcov Hnd. unfold can_recruit.
  assert (H : forall (l : Dict.t Z) (acc : amounts * Dict.t Z * Z),
             NoDup (Dict.keys l) ->
             (forall k, In k (Dict.keys (snd (fst acc))) ->
                        ~ In k (Dict.keys l)) ->
             covered (fst (fst acc)) ->
             commit_resources b (snd (fst acc)) stock = fst (fst acc) ->
             covered (fst (fst (foldl (consider_unit b) acc l)))
             /\ commit_resources b
                  (snd (fst (foldl (consider_unit b) acc l))) stock
                = fst (fst (foldl (consider_unit b) acc l))).
  { induction l as [|e l IH]; intros acc Hl Hfresh Hc Hcommit; simpl;
      [auto|].
    unfold Dict.keys in Hl. simpl in Hl.
    apply NoDup_cons in Hl as [He Hl].
    assert (Hnew : ~ In (fst e) (Dict.keys (snd (fst acc)))).
    { intros Hk. apply (Hfresh _ Hk). left. reflexivity. }
    destruct acc as [[avail can] total]. simpl in *.
    assert (Hstep :
              (forall k,
                 In k (Dict.keys (snd (fst (consider_unit b (avail, can, total) e)))) ->
                 ~ In k (Dict.keys l))
              /\ covered (fst (fst (consider_unit b (avail, can, total) e)))
              /\ commit_resources b
                   (snd (fst (consider_unit b (avail, can, total) e))) stock
                 = fst (fst (consider_unit b (avail, can, total) e))).
    { assert (Hkeep : forall k, In k (Dict.keys can) -> ~ In k (Dict.keys l)).
      { intros k Hk Hk'. apply (Hfresh k Hk). right. exact Hk'. }
      unfold consider_unit.
      destruct (unit_data b !! e.1) as [d|] eqn:Ed; [|simpl; auto].
      destruct (0 <? max_possible e.2 (costs d) avail) eqn:Em; [|simpl; auto].
      apply Z.ltb_lt in Em. simpl. split; [|split].
      - intros k Hk Hk'. apply dict_keys_set_In in Hk as [-> | Hk].
        + apply He. apply list_elem_of_In. exact Hk'.
        + exact (Hkeep k Hk Hk').
      - eapply deduct_covered; [exact Hc|exact Em|reflexivity].
      - rewrite dict_set_fresh by exact Hnew.
        unfold commit_resources in *. rewrite foldl_app. simpl.
        rewrite Ed, Hcommit. reflexivity. }
    destruct Hstep as (S1 & S2 & S3).
    apply IH; assumption. }
  apply H; simpl; [exact Hnd|tauto|exact Hcov|reflexivity].
Qed.

Lemma commit_resources_cost (field : amounts -> Z) (b : building)
    (can : Dict.t Z) (stock : amounts) :
  is_field field ->
  field (commit_resources b can stock) = field stock - order_cost field b can.
Proof.
  intros Hf. unfold commit_resources, order_cost.
  assert (H : forall (l : Dict.t Z) (s : amounts) (x : Z),
             field (foldl (fun s (e : Z * Z) =>
                             match unit_data b !! fst e with
                             | Some d => deduct s (costs d) (snd e)
                             | None => s
                             end) s l)
             = field s + x
               - foldl (fun acc (e : Z * Z) =>
                          match unit_data b !! fst e with
                          | Some d => acc + field (costs d) * snd e
                          | None => acc
                          end) x l).
  { induction l as [|e l IH]; intros s x; simpl; [lia|].
    destruct (unit_data b !! e.1) as [d|].
    - rewrite (IH _ (x + field (costs d) * e.2)).
      rewrite field_deduct by exact Hf. lia.
    - apply IH. }
  rewrite (H can stock 0). lia.
Qed.

Lemma order_cost_work (field : amounts -> Z) (b b' : building)
    (can : Dict.t Z) :
  work b' = work b -> order_cost field b' can = order_cost field b can.
Proof.
  intros Hw. assert (Hu : unit_data b' = unit_data b)
    by (unfold work in Hw; congruence).
  unfold order_cost. rewrite Hu. reflexivity.
Qed.

Lemma city_orders_snoc (field : amounts -> Z) (bs : list building) (c : Z)
    (infos : list recruit_info) (info : recruit_info) (b : building) :
  bs !! ri_building info = Some b ->
  city_orders field bs c (infos ++ [info])
  = city_orders field bs c infos
    + (if Z.eqb (city_id b) c then order_cost field b (to_recruit info)
       else 0).
Proof.
  intros Hb. unfold city_orders. rewrite map_app, zsum_app.
  unfold zsum at 2. simpl. rewrite Hb. lia.
Qed.

(** One snapshot is taken for every city that has a building. *)
Lemma refresh_resources_snapshot (env : environment) (bs : list building) :
  (forall c s, refresh_resources env bs !! c = Some s ->
               s = city_snapshot env c)
  /\ (forall b, In b bs -> is_Some (refresh_resources env bs !! city_id b)).
Proof.
  unfold refresh_resources.
  induction bs as [|b bs IH] using rev_ind.
  - simpl. split; [intros c s H; rewrite lookup_empty in H; discriminate|].
    intros b [].
  - rewrite foldl_app. simpl. destruct IH as [IH1 IH2].
    set (m := foldl _ ∅ bs) in *.
    destruct (m !! city_id b) as [s0|] eqn:Em.
    + split; [exact IH1|].
      intros x Hx. apply in_app_or in Hx as [Hx | [<- | []]]; [auto|].
      rewrite Em. eauto.
    + split.
      * intros c s Hs. destruct (Z.eq_dec (city_id b) c) as [<- | Hne].
        -- rewrite lookup_insert_eq in Hs. congruence.
        -- rewrite lookup_insert_ne in Hs by exact Hne. auto.
      * intros x Hx. apply in_app_or in Hx as [Hx | [<- | []]].
        -- destruct (Z.eq_dec (city_id b) (city_id x)) as [E | Hne].
           ++ rewrite <- E, lookup_insert_eq. eauto.
           ++ rewrite lookup_insert_ne by exact Hne. auto.
        -- rewrite lookup_insert_eq. eauto.
Qed.

Lemma plan_building_accounted (env : environment) (bs : list building)
    (st : planning) (i : nat) :
  Forall (fun b => NoDup (Dict.keys (remaining_assignments b))) bs ->
  stock_accounted env bs st ->
  stock_accounted env bs (plan_building env st i).
Proof.
  intros Hnd (Hw & Hsome & Hacc). unfold plan_building.
  destruct (pl_buildings st !! i) as [b|] eqn:Hb; [|split; auto].
  destruct (Dict.is_empty (remaining_assignments b)); [split; auto|].
  pose proof (refresh_busy_work env i b) as Hrw.
  set (b' := refresh_busy env i b) in *.
  assert (Hw' : map work (<[i := b']> (pl_buildings st)) = map work bs).
  { rewrite (insert_same_work _ i b b' Hb Hrw). exact Hw. }
  destruct (is_busy b'); [split; auto|].
  destruct (same_work_lookup _ _ i b Hw Hb) as (y & Hy & Hby).
  assert (Hyw : work b' = work y) by congruence.
  assert (Hcity : city_id b' = city_id y) by (unfold work in Hyw; congruence).
  assert (Hrem : remaining_assignments b' = remaining_assignments y)
    by (unfold work in Hyw; congruence).
  assert (Hin : In y bs).
  { apply list_elem_of_In. eapply list_elem_of_lookup_2. exact Hy. }
  destruct (Hsome y Hin) as [s Hs]. rewrite <- Hcity in Hs.
  assert (Hstock : stock_of (pl_resources st) (city_id b') = s)
    by (unfold stock_of; rewrite Hs; reflexivity).
  rewrite Hstock.
  destruct (Hacc _ s Hs) as [Hcov Hsum].
  assert (Hnd' : NoDup (Dict.keys (remaining_assignments b'))).
  { rewrite Hrem. rewrite Forall_forall in Hnd.
    apply Hnd, list_elem_of_In, Hin. }
  destruct (can_recruit_left b' s Hcov Hnd') as [Hleft Hcommit].
  destruct (can_recruit b' s) as [[left can] total]. simpl in Hleft, Hcommit.
  destruct (_ <=? total); [|split; auto].
  split; [exact Hw'|]. simpl. split.
  - intros x Hx. destruct (Z.eq_dec (city_id b') (city_id x)) as [E | E].
    + rewrite <- E, lookup_insert_eq. eauto.
    + rewrite lookup_insert_ne by exact E. auto.
  - intros c s' Hs'.
    destruct (Z.eq_dec (city_id b') c) as [E | E].
    + subst c. rewrite lookup_insert_eq in Hs'. injection Hs' as <-.
      rewrite Hcommit. split; [exact Hleft|].
      intros field Hf.
      rewrite (city_orders_snoc field bs (city_id b') _ _ y) by exact Hy.
      simpl. rewrite Hcity, Z.eqb_refl, <- Hcommit.
      rewrite commit_resources_cost by exact Hf.
      rewrite (order_cost_work field y b' can Hyw).
      specialize (Hsum field Hf). rewrite Hcity in Hsum. lia.
    + rewrite lookup_insert_ne in Hs' by exact E.
      destruct (Hacc c s' Hs') as [Hcov' Hsum'].
      split; [exact Hcov'|]. intros field Hf.
      rewrite (city_orders_snoc field bs c _ _ y) by exact Hy.
      simpl. rewrite <- Hcity.
      destruct (Z.eqb (city_id b') c) eqn:Eb;
        [apply Z.eqb_eq in Eb; contradiction|].
      rewrite Z.add_0_r. apply Hsum'. exact Hf.
Qed.

Lemma plan_cycle_accounted (env : environment) (bs : list building) :
  (forall c, covered (city_snapshot env c)) ->
  Forall (fun b => NoDup (Dict.keys (remaining_assignments b))) bs ->
  stock_accounted env bs (plan_cycle env bs).
Proof.
  intros Hcov Hnd. unfold plan_cycle.
  assert (H : stock_accounted env bs
                (Planning bs (refresh_resources env bs) [])).
  { destruct (refresh_resources_snapshot env bs) as [H1 H2].
    split; [reflexivity|]. split; [exact H2|].
    simpl. intros c s Hs. rewrite (H1 c s Hs). split; [apply Hcov|].
    intros field _. unfold city_orders, zsum. simpl. lia. }
  revert H. generalize (Planning bs (refresh_resources env bs) []).
  induction (seq 0 (length bs)) as [|i l IH]; intros st H; simpl.
  - exact H.
  - apply IH. apply plan_building_accounted; assumption.
Qed.

(** X15. A cycle of the loop never plans to spend more than a city has:
    when the snapshots of the cities are not negative, the orders that
    a cycle plans for the buildings of one city cost together, in
    citizens and in each of the five resources, no more than the
    snapshot of that city taken at the start of the cycle, and the
    running stock of the city is the snapshot less those costs. *)
Theorem cycle_orders_within_stock (env : environment) (bs : list building)
    (b : building) (field : amounts -> Z) :
  (forall c, covered (city_snapshot env c)) ->
  Forall (fun b => NoDup (Dict.keys (remaining_assignments b))) bs ->
  In b bs ->
  is_field field ->
  let planned := plan_cycle env bs in
  city_orders field bs (city_id b) (buildings_to_recruit planned)
  <= field (city_snapshot env (city_id b))
  /\ field (stock_of (pl_resources planned) (city_id b))
     = field (city_snapshot env (city_id b))
       - city_orders field bs (city_id b) (buildings_to_recruit planned).
Proof.
  intros Hcov Hnd Hin Hf planned.
  destruct (plan_cycle_accounted env bs Hcov Hnd) as (_ & Hsome & Hacc).
  fold planned in Hsome, Hacc.
  destruct (Hsome b Hin) as [s Hs].
  destruct (Hacc _ s Hs) as [Hcs Hsum].
  specialize (Hsum field Hf). specialize (Hcs field Hf).
  unfold stock_of. rewrite Hs. simpl. lia.
Qed.

Lemma cycle_orders_of_first_cycle :
  city_orders citizens (start_loop small_distribution) 1
    (buildings_to_recruit
       (plan_cycle sample_environment (start_loop small_distribution)))
  = 60
  /\ city_orders citizens (start_loop small_distribution) 1
       (buildings_to_recruit
          (plan_cycle sample_environment (start_loop small_distribution)))
     <= citizens (city_snapshot sample_environment 1).
Proof.
  assert (Hcov : forall c, covered (city_snapshot sample_environment c)).
  { intros c field Hf. each_field Hf; simpl; lia. }
  assert (Hnd : Forall (fun b => NoDup (Dict.keys (remaining_assignments b)))
                  (start_loop small_distribution)).
  { apply (bool_decide_unpack _). vm_compute. exact I. }
  assert (Hb : In (default (idle_building 1 ∅)
                     (start_loop small_distribution !! 0%nat))
                  (start_loop small_distribution))
    by (vm_compute; left; reflexivity).
  assert (Hcity : city_id (default (idle_building 1 ∅)
                             (start_loop small_distribution !! 0%nat)) = 1)
    by (vm_compute; reflexivity).
  pose proof (cycle_orders_within_stock sample_environment
                (start_loop small_distribution) _ citizens Hcov Hnd Hb
                (or_introl eq_refl)) as [Hle _].
  rewrite Hcity in Hle.
  split; [vm_compute; reflexivity|exact Hle].
Defined.

(** ** What an accepted request takes off the remaining work *)

Lemma dict_get_del_eq {V : Type} (k : Z) (d : Dict.t V) :
  NoDup (Dict.keys d) -> Dict.get k (Dict.del k d) = None.
Proof.
  induction d as [|[k0 v0] d IH]; simpl; intros Hnd; [reflexivity|].
  unfold Dict.keys in Hnd. simpl in Hnd.
  apply NoDup_cons in Hnd as [Hk Hnd].
  destruct (Z.eqb k0 k) eqn:E; simpl.
  - apply Z.eqb_eq in E. subst k0. apply dict_get_None_keys.
    intros H. apply Hk, list_elem_of_In, H.
  - rewrite E. apply IH. exact Hnd.
Qed.

Lemma submit_unit_keys (remaining : Dict.t Z) (e : Z * Z) :
  NoDup (Dict.keys remaining) -> NoDup (Dict.keys (submit_unit remaining e)).
Proof.
  intros H. unfold submit_unit. destruct (_ <=? 0).
  - apply dict_keys_del_NoDup. exact H.
  - apply dict_keys_set_NoDup. exact H.
Qed.

Lemma submit_unit_get (remaining : Dict.t Z) (e : Z * Z) (q k : Z) :
  NoDup (Dict.keys remaining) ->
  Dict.get (fst e) remaining = Some q ->
  0 < snd e <= q ->
  default 0 (Dict.get k (submit_unit remaining e))
  = default 0 (Dict.get k remaining) - (if Z.eqb (fst e) k then snd e else 0).
Proof.
  intros Hnd Hq Hm. unfold submit_unit. rewrite Hq. simpl.
  destruct (Z.eqb (fst e) k) eqn:Ek.
  - apply Z.eqb_eq in Ek. subst k. rewrite Hq. simpl.
    destruct (q - e.2 <=? 0) eqn:El.
    + apply Z.leb_le in El. rewrite dict_get_del_eq by exact Hnd. simpl. lia.
    + rewrite dict_get_set_eq. reflexivity.
  - apply Z.eqb_neq in Ek.
    destruct (q - e.2 <=? 0).
    + rewrite dict_get_del_ne by exact Ek. lia.
    + rewrite dict_get_set_ne by exact Ek. lia.
Qed.

Lemma submit_unit_get_other (remaining : Dict.t Z) (e : Z * Z) (k : Z) :
  fst e <> k ->
  Dict.get k (submit_unit remaining e) = Dict.get k remaining.
Proof.
  intros Hk. unfold submit_unit. destruct (_ <=? 0).
  - apply dict_get_del_ne. exact Hk.
  - apply dict_get_set_ne. exact Hk.
Qed.

Lemma submit_units_get (can : Dict.t Z) :
  forall remaining : Dict.t Z,
    NoDup (Dict.keys can) ->
    NoDup (Dict.keys remaining) ->
    (forall e, In e can ->
       exists q, Dict.get (fst e) remaining = Some q /\ 0 < snd e <= q) ->
    forall k,
      default 0 (Dict.get k (foldl submit_unit remaining can))
      = default 0 (Dict.get k remaining) - default 0 (Dict.get k can).
Proof.
  induction can as [|e can IH]; intros remaining Hc Hr Hall k; simpl.
  - lia.
  - unfold Dict.keys in Hc. simpl in Hc. apply NoDup_cons in Hc as [He Hc].
    destruct (Hall e (or_introl eq_refl)) as (q & Hq & Hm).
    rewrite IH.
    + rewrite (submit_unit_get remaining e q k Hr Hq Hm).
      destruct e as [u m]. simpl in *.
      destruct (Z.eqb u k) eqn:Ek; simpl; [|lia].
      apply Z.eqb_eq in Ek. subst k.
      rewrite (dict_get_None_keys u can).
      * simpl. lia.
      * intros H. apply He, list_elem_of_In, H.
    + exact Hc.
    + apply submit_unit_keys. exact Hr.
    + intros x Hx. destruct (Hall x (or_intror Hx)) as (qx & Hqx & Hmx).
      exists qx. split; [|exact Hmx].
      rewrite submit_unit_get_other; [exact Hqx|].
      intros E. apply He. apply list_elem_of_In.
      unfold Dict.keys. rewrite E. apply in_map. exact Hx.
Qed.

Lemma can_recruit_keys (b : building) (available : amounts) :
  NoDup (Dict.keys (snd (fst (can_recruit b available)))).
Proof.
  unfold can_recruit.
  assert (H : NoDup (Dict.keys (snd (fst (available, @nil (Z * Z), 0)))))
    by constructor.
  revert H. generalize (available, @nil (Z * Z), 0).
  induction (remaining_assignments b) as [|e l IH]; intros acc H; simpl.
  - exact H.
  - apply IH. destruct acc as [[avail can] total]. unfold consider_unit.
    destruct (unit_data b !! e.1) as [d|]; [|exact H].
    destruct (0 <? _); [|exact H].
    simpl. apply dict_keys_set_NoDup. exact H.
Qed.

Lemma submit_order_step (env : environment) (cur : list building)
    (sent : list recruit_info) (info : recruit_info) (b : building) :
  cur !! ri_building info = Some b ->
  submit_order env (cur, sent) info = (cur, sent)
  \/ exists b',
       submit_order env (cur, sent) info
       = (<[ri_building info := b']> cur, sent ++ [info])
       /\ assignments b' = assignments b
       /\ remaining_assignments b'
          = if post_succeeds env (ri_building info)
            then foldl submit_unit (remaining_assignments b) (to_recruit info)
            else remaining_assignments b.
Proof.
  intros Hb. unfold submit_order. rewrite Hb.
  destruct (obtain_action_code env (ri_building info) b) as [code|];
    [|left; reflexivity].
  right. destruct (post_succeeds env (ri_building info));
    eexists; (split; [reflexivity|]); split; reflexivity.
Qed.

(** What the submissions of a cycle do to the building of one planned
    order, the planned orders being for distinct buildings. *)
Lemma submit_orders_effect (env : environment) (infos : list recruit_info) :
  forall (cur : list building) (sent : list recruit_info),
    NoDup (map ri_building infos) ->
    forall info b,
      In info infos ->
      ~ In info sent ->
      cur !! ri_building info = Some b ->
      exists b',
        fst (foldl (submit_order env) (cur, sent) infos) !! ri_building info
        = Some b'
        /\ assignments b' = assignments b
        /\ (In info (snd (foldl (submit_order env) (cur, sent) infos)) ->
            post_succeeds env (ri_building info) = true ->
            remaining_assignments b'
            = foldl submit_unit (remaining_assignments b) (to_recruit info))
        /\ (~ In info (snd (foldl (submit_order env) (cur, sent) infos))
            \/ post_succeeds env (ri_building info) = false ->
            remaining_assignments b' = remaining_assignments b).
Proof.
  induction infos as [|x xs IH]; intros cur sent Hnd info b Hin Hsent Hb;
    [destruct Hin|].
  simpl in Hnd. apply NoDup_cons in Hnd as [Hx Hnd].
  cbn [foldl].
  destruct Hin as [-> | Hin].
  - assert (Hskip : Forall (fun y => ri_building y <> ri_building info) xs).
    { apply Forall_forall. intros y Hy E. apply Hx.
      rewrite <- E. apply list_elem_of_In, in_map, list_elem_of_In, Hy. }
    destruct (submit_orders_skip env xs (ri_building info) Hskip
                (submit_order env (cur, sent) info)) as [Hkeep Hfrom].
    destruct (submit_orders_sublist env xs
                (submit_order env (cur, sent) info)) as (l & Hl & Hsubl).
    assert (Hnotin : ~ In info xs).
    { intros H. apply Hx. apply list_elem_of_In, in_map, H. }
    rewrite Hkeep, Hl. clear Hl Hkeep IH.
    assert (Hlt : (ri_building info < length cur)%nat)
      by (apply lookup_lt_Some in Hb; exact Hb).
    destruct (submit_order_step env cur sent info b Hb)
      as [E | (b' & E & Ha & Hr)]; rewrite E in *; cbn [fst snd] in *.
    + exists b. split; [exact Hb|].
      split; [reflexivity|]. split; [|intros _; reflexivity].
      intros H _. exfalso.
      apply in_app_or in H as [H | H]; [tauto|].
      apply Hnotin, list_elem_of_In.
      eapply elem_of_sublist; [|exact Hsubl]. apply list_elem_of_In. exact H.
    + rewrite list_lookup_insert_eq by exact Hlt.
      exists b'. split; [reflexivity|]. split; [exact Ha|].
      rewrite Hr. split.
      * intros _ ->. reflexivity.
      * intros [H | ->]; [|reflexivity]. exfalso. apply H.
        apply in_or_app. left. apply in_or_app. right. left. reflexivity.
  - assert (Hne : ri_building x <> ri_building info).
    { intros E. apply Hx. rewrite E.
      apply list_elem_of_In, in_map, Hin. }
    destruct (submit_order_skip env (cur, sent) x (ri_building info) Hne)
      as [Hkeep Hfrom].
    destruct (submit_order env (cur, sent) x) as [cur1 sent1] eqn:E1.
    cbn [fst snd] in Hkeep, Hfrom.
    apply IH; [exact Hnd|exact Hin| |rewrite Hkeep; exact Hb].
    intros H. destruct (Hfrom info H) as [H' | ->]; [tauto|].
    apply Hne. reflexivity.
Qed.

(** X16. An accepted request is taken off the remaining work exactly:
    for every request posted in a cycle of the loop, the building keeps
    its assignments, and if the request was accepted, what remains for
    the building of every unit type is what remained before less the
    quantity requested, while a request that failed leaves the
    remaining assignments as they were. *)
Theorem accepted_order_is_deducted (env : environment)
    (bs bs' : list building) (posted : list recruit_info) (wait : Z)
    (info : recruit_info) (b : building) :
  Forall (fun b => NoDup (Dict.keys (remaining_assignments b))) bs ->
  run_cycle env bs = Continue bs' posted wait ->
  In info posted ->
  bs !! ri_building info = Some b ->
  exists b',
    bs' !! ri_building info = Some b'
    /\ assignments b' = assignments b
    /\ (post_succeeds env (ri_building info) = true ->
        forall u,
          remaining_of u b'
          = remaining_of u b - default 0 (Dict.get u (to_recruit info)))
    /\ (post_succeeds env (ri_building info) = false ->
        remaining_assignments b' = remaining_assignments b).
Proof.
  intros Hnd Hrun Hin Hb.
  pose proof (run_cycle_posted env bs bs' posted wait Hrun) as Hsub.
  assert (Hplanned : In info (buildings_to_recruit (plan_cycle env bs))).
  { apply list_elem_of_In. eapply elem_of_sublist; [|exact Hsub].
    apply list_elem_of_In. exact Hin. }
  destruct (plan_cycle_invariant env bs) as [Hw Hmeet].
  rewrite Forall_forall in Hmeet.
  destruct (Hmeet info (proj2 (list_elem_of_In _ _) Hplanned))
    as (y & stock & left & Hy & Hcan & _).
  assert (y = b) by congruence. subst y.
  destruct (same_work_lookup bs (pl_buildings (plan_cycle env bs))
              (ri_building info) b (eq_sym Hw) Hb) as (b0 & Hb0 & Hwork).
  assert (Ha0 : assignments b0 = assignments b)
    by (unfold work in Hwork; congruence).
  assert (Hr0 : remaining_assignments b0 = remaining_assignments b)
    by (unfold work in Hwork; congruence).
  destruct (submit_orders_effect env (buildings_to_recruit (plan_cycle env bs))
              (pl_buildings (plan_cycle env bs)) []
              (plan_cycle_distinct env bs) info b0 Hplanned
              (fun H => H) Hb0)
    as (b' & Hb' & Ha' & Hyes & Hno).
  unfold run_cycle in Hrun.
  destruct (total_remaining bs <=? 0); [discriminate|].
  destruct (buildings_to_recruit (plan_cycle env bs)) as [|x xs] eqn:Ei;
    [destruct Hplanned|].
  destruct (foldl (submit_order env) (pl_buildings (plan_cycle env bs), [])
              (x :: xs)) as [cur sent].
  injection Hrun as <- <- _. cbn [fst snd] in *.
  exists b'. split; [exact Hb'|]. split; [congruence|]. split.
  - intros Hp u. unfold remaining_of.
    rewrite (Hyes Hin Hp), Hr0.
    assert (Hnb : NoDup (Dict.keys (remaining_assignments b))).
    { rewrite Forall_forall in Hnd. eapply Hnd, list_elem_of_lookup_2, Hb. }
    apply submit_units_get.
    + pose proof (can_recruit_keys b stock) as H. rewrite Hcan in H. exact H.
    + exact Hnb.
    + destruct (can_recruit_within b stock) as [Hwithin _].
      rewrite Hcan in Hwithin. cbn [fst snd] in Hwithin.
      rewrite Forall_forall in Hwithin.
      intros e He. apply list_elem_of_In, Hwithin in He.
      destruct He as (Hpos & _ & q & Hq & Hle).
      exists q. split; [|lia].
      apply dict_In_get_NoDup; assumption.
  - intros Hp. rewrite (Hno (or_intror Hp)). exact Hr0.
Qed.

Lemma accepted_order_of_first_cycle :
  remaining_of 301 (default (idle_building 0 ∅)
                      (start_loop small_distribution !! 0%nat)) = 100
  /\ default 0 (Dict.get 301 (to_recruit first_order)) = 60
  /\ exists b',
       first_cycle_buildings !! 0%nat = Some b'
       /\ remaining_of 301 b' = 40
       /\ remaining_of 302 b' = 5.
Proof.
  assert (Hnd : Forall (fun b => NoDup (Dict.keys (remaining_assignments b)))
                  (start_loop small_distribution)).
  { apply (bool_decide_unpack _). vm_compute. exact I. }
  assert (Hrun : run_cycle sample_environment (start_loop small_distribution)
                 = Continue first_cycle_buildings first_cycle_posted 60)
    by (vm_compute; reflexivity).
  assert (Hin : In first_order first_cycle_posted)
    by (vm_compute; left; reflexivity).
  assert (Hidx : ri_building first_order = 0%nat)
    by (vm_compute; reflexivity).
  assert (Hb : start_loop small_distribution !! ri_building first_order
               = Some (default (idle_building 0 ∅)
                         (start_loop small_distribution !! 0%nat)))
    by (vm_compute; reflexivity).
  assert (Hpost : post_succeeds sample_environment (ri_building first_order)
                  = true) by (rewrite Hidx; reflexivity).
  assert (H301 : remaining_of 301
                   (default (idle_building 0 ∅)
                      (start_loop small_distribution !! 0%nat)) = 100)
    by (vm_compute; reflexivity).
  assert (H302 : remaining_of 302
                   (default (idle_building 0 ∅)
                      (start_loop small_distribution !! 0%nat)) = 5)
    by (vm_compute; reflexivity).
  assert (Q301 : default 0 (Dict.get 301 (to_recruit first_order)) = 60)
    by (vm_compute; reflexivity).
  assert (Q302 : default 0 (Dict.get 302 (to_recruit first_order)) = 0)
    by (vm_compute; reflexivity).
  destruct (accepted_order_is_deducted sample_environment
              (start_loop small_distribution) first_cycle_buildings
              first_cycle_posted 60 first_order _ Hnd Hrun Hin Hb)
    as (b' & Hb' & _ & Hyes & _).
  rewrite Hidx in Hb'.
  split; [exact H301|]. split; [exact Q301|].
  exists b'. split; [exact Hb'|].
  rewrite (Hyes Hpost 301), (Hyes Hpost 302), H301, H302, Q301, Q302.
  split; reflexivity.
Defined.

(** ** The outcomes of the quantity prompts *)

Lemma ask_order_state (bs : list building) (read : Z -> answer)
    (unit_list : list (string * Z)) :
  match foldl (ask_unit bs read) (Some ([], O)) unit_list with
  | None =>
      Exists (fun u => shown bs u /\ read (snd u) = Back) unit_list
  | Some (order, units_shown) =>
      Forall (fun u => shown bs u -> read (snd u) <> Back) unit_list
      /\ (units_shown = O <-> Forall (fun u => ~ shown bs u) unit_list)
      /\ (order = [] <->
          Forall (fun u => shown bs u -> declined read u) unit_list)
  end.
Proof.
  induction unit_list as [|u l IH] using rev_ind.
  - simpl. split; [constructor|]. split; split; intros; try constructor;
      reflexivity.
  - rewrite foldl_app. cbn [foldl].
    destruct (foldl (ask_unit bs read) (Some ([], O)) l) as [[order n]|].
    + destruct IH as (Hback & Hn & Ho). unfold ask_unit.
      unfold shown, declined in *.
      destruct (existsb (capable (snd u)) bs) eqn:Es.
      * destruct (read (snd u)) as [| |q] eqn:Er.
        -- apply Exists_app. right. constructor. split; [exact Es|exact Er].
        -- rewrite !Forall_app, !Forall_singleton. rewrite Es, Er.
           split; [split; [exact Hback|intros _; discriminate]|].
           split; [split; [discriminate|intros [_ H]; exfalso; apply H; reflexivity]|].
           rewrite Ho. split; [intros H; split; [exact H|intros _; left; reflexivity]|tauto].
        -- destruct (0 <? q) eqn:Eq;
             rewrite !Forall_app, !Forall_singleton; rewrite Es, Er.
           ++ apply Z.ltb_lt in Eq.
              split; [split; [exact Hback|intros _; discriminate]|].
              split; [split; [discriminate|intros [_ H]; exfalso; apply H; reflexivity]|].
              split; [intros H; exfalso; exact (dict_set_not_nil _ _ _ H)|].
              intros [_ H]. destruct (H eq_refl) as [H' | (q' & H' & Hq')];
                [discriminate|]. injection H' as <-. lia.
           ++ apply Z.ltb_ge in Eq.
              split; [split; [exact Hback|intros _; discriminate]|].
              split; [split; [discriminate|intros [_ H]; exfalso; apply H; reflexivity]|].
              rewrite Ho. split; [|tauto].
              intros H; split; [exact H|]. intros _. right. exists q. auto.
      * rewrite !Forall_app, !Forall_singleton. rewrite Es.
        split; [split; [exact Hback|discriminate]|].
        split; [rewrite Hn; split; [intros H; split; [exact H|discriminate]|tauto]|].
        rewrite Ho. split; [intros H; split; [exact H|discriminate]|tauto].
    + simpl. apply Exists_app. left. exact IH.
Qed.

(** X17. The quantity prompts end in one of four ways, decided by the
    answers to the units that are shown (those some building can
    build): the operator is sent back to the menu exactly when the
    answer to a shown unit is the quote; the error that no units could
    be parsed is raised exactly when no unit of the list is shown; and
    nothing is selected exactly when a unit is shown and every shown
    unit is answered with an empty line or a number that is not
    positive.  In every other case an order is made. *)
Theorem ask_order_outcomes (unit_list : list (string * Z))
    (bs : list building) (read : Z -> answer) :
  (ask_order unit_list bs read = Cancelled
   <-> Exists (fun u => shown bs u /\ read (snd u) = Back) unit_list)
  /\ (ask_order unit_list bs read = NoUnitsParsed
      <-> Forall (fun u => ~ shown bs u) unit_list)
  /\ (ask_order unit_list bs read = NothingSelected
      <-> Exists (shown bs) unit_list
          /\ Forall (fun u => shown bs u -> declined read u) unit_list)
  /\ ((exists order, ask_order unit_list bs read = Ordered order)
      <-> Forall (fun u => shown bs u -> read (snd u) <> Back) unit_list
          /\ Exists (fun u => shown bs u /\ ~ declined read u) unit_list).
Proof.
  pose proof (ask_order_state bs read unit_list) as H. unfold ask_order.
  assert (Hdec : forall u, Decision (shown bs u))
    by (intros u; unfold shown; apply _).
  assert (Hex : Exists (shown bs) unit_list
                <-> ~ Forall (fun u => ~ shown bs u) unit_list).
  { rewrite Forall_Exists_neg.
    destruct (Exists_dec (shown bs) unit_list) as [H1 | H1]; tauto. }
  assert (Hno : Forall (fun u => shown bs u -> read (snd u) <> Back) unit_list
                <-> ~ Exists (fun u => shown bs u /\ read (snd u) = Back)
                      unit_list).
  { rewrite <- Forall_Exists_neg. apply Forall_iff. intros u. tauto. }
  assert (Hnd : ~ Forall (fun u => shown bs u -> declined read u) unit_list
                -> Exists (fun u => shown bs u /\ ~ declined read u) unit_list).
  { clear. induction unit_list as [|u l IH]; intros Hn.
    - exfalso. apply Hn. constructor.
    - destruct (existsb (capable (snd u)) bs) eqn:Es.
      + destruct (read (snd u)) as [| |q] eqn:Er.
        * left. split; [exact Es|]. intros [H | (q & H & _)]; congruence.
        * right. apply IH. intros Hl. apply Hn. constructor; [|exact Hl].
          intros _. left. exact Er.
        * destruct (Z.le_gt_cases q 0) as [Hq | Hq].
          -- right. apply IH. intros Hl. apply Hn. constructor; [|exact Hl].
             intros _. right. exists q. auto.
          -- left. split; [exact Es|].
             intros [H | (q' & H & Hq')]; [congruence|].
             rewrite Er in H. injection H as <-. lia.
      + right. apply IH. intros Hl. apply Hn. constructor; [|exact Hl].
        unfold shown. rewrite Es. discriminate. }
  assert (Hdn : Exists (fun u => shown bs u /\ ~ declined read u) unit_list ->
                ~ Forall (fun u => shown bs u -> declined read u) unit_list).
  { intros He Hf. apply Exists_exists in He as (u & Hu & Hs & Hd).
    rewrite Forall_forall in Hf. exact (Hd (Hf u Hu Hs)). }
  assert (Hsome : Exists (fun u => shown bs u /\ ~ declined read u) unit_list ->
                  Exists (shown bs) unit_list).
  { intros He. eapply Exists_impl; [exact He|]. simpl. tauto. }
  destruct (foldl (ask_unit bs read) (Some ([], O)) unit_list)
    as [[order n]|].
  - destruct H as (Hback & Hn & Ho).
    destruct n as [|n].
    + assert (Hf : Forall (fun u => ~ shown bs u) unit_list)
        by (apply Hn; reflexivity).
      split; [split; [discriminate|tauto]|].
      split; [tauto|].
      split; [split; [discriminate|tauto]|].
      split; [intros [o Ho']; discriminate|].
      intros [_ He]. apply Hsome in He. tauto.
    + assert (Hf : ~ Forall (fun u => ~ shown bs u) unit_list)
        by (intros Hf; apply Hn in Hf; discriminate).
      destruct order as [|e order].
      * assert (Hd : Forall (fun u => shown bs u -> declined read u) unit_list)
          by (apply Ho; reflexivity).
        split; [split; [discriminate|tauto]|].
        split; [split; [discriminate|tauto]|].
        split; [tauto|].
        split; [intros [o Ho']; discriminate|].
        intros [_ He]. apply Hdn in He. tauto.
      * assert (Hd : ~ Forall (fun u => shown bs u -> declined read u)
                       unit_list)
          by (intros Hd; apply Ho in Hd; discriminate).
        split; [split; [discriminate|tauto]|].
        split; [split; [discriminate|tauto]|].
        split; [split; [discriminate|tauto]|].
        split; [intros _; split; [exact Hback|apply Hnd; exact Hd]|].
        intros _. eexists. reflexivity.
  - split; [tauto|].
    assert (Hs : Exists (shown bs) unit_list).
    { eapply Exists_impl; [exact H|]. simpl. tauto. }
    split; [split; [discriminate|tauto]|].
    split.
    + split; [discriminate|]. intros [_ Hf]. exfalso.
      apply Exists_exists in H as (u & Hu & Hsu & Hb).
      rewrite Forall_forall in Hf.
      destruct (Hf u Hu Hsu) as [Hd | (q & Hd & _)]; congruence.
    + split; [intros [o Ho']; discriminate|]. tauto.
Qed.
